(** * Relay pipeline: a shallow embedding of the monitor's core

    The development follows the Python sources:
    - [ffmpeg_split.py]            segment planning and extraction,
    - [video_duration_utils.py]    duration policy and extension,
    - [youtube_monitor.py]         caches, download stage, upload workers,
                                   the polling path,
    - [youtube_monitor_pubsub.py]  the push path and channel routing.

    External collaborators (scrapetube, yt-dlp, pytube, moviepy, ffmpeg,
    the uploader) are not modelled: their observable outcomes are
    supplied by an environment record, and every statement quantifies
    over it.  Conventions:
    - durations are rationals (a Python float is a dyadic rational, and
      the comparisons and integer products the code uses are exact);
    - a Python [str] is held as its UTF-8 encoding;
    - a dictionary field read with [.get] is an [option];
    - an exception caught by a handler is the handler's return value;
    - the file system is a finite map from paths to files, paths are
      taken as absolute, [os.remove] and the [save_*] methods succeed;
    - every function that logs only is transparent to the model; effects
      on the outside world are recorded in a trace of events;
    - concurrent activities (notifications overlapping a job, the
      threads of [monitor_all_channels]) interleave at the granularity
      of the phases before and after the dedup check and the gate. *)

From Stdlib Require Import ZArith QArith Qround Lqa Lia String Ascii List.
From stdpp Require Import gmap strings list pretty.

Local Open Scope Z_scope.

(* ------------------------------------------------------------------ *)
(** ** Python helpers *)

(** [a < b] on floats/ints, as a boolean. *)
Definition Qlt_bool (a b : Q) : bool := negb (Qle_bool b a).

(** Python's [min(a, b)]: the first argument unless the second is
    strictly smaller. *)
Definition py_min (a b : Q) : Q := if Qlt_bool b a then b else a.

(** [range(n)] for a Python int [n]: empty when [n <= 0]. *)
Definition py_range (n : Z) : list nat := seq 0 (Z.to_nat n).

(* ------------------------------------------------------------------ *)
(** ** ffmpeg_split.py *)

Module FfmpegSplit.

(** One planned part: the loop index [i] (the file is named
    [<base>_part_<i+1>.mp4]) with its [start_time] and [end_time]. *)
Record part := Part { part_index : nat; start_time : Q; end_time : Q }.

Definition part_length (p : part) : Q := end_time p - start_time p.

(** [int(duration // part_duration)] *)
Definition max_possible_parts (duration : Q) (part_duration : Z) : Z :=
  Qfloor (duration / inject_Z part_duration).

(** Lines 76-81: the number of loop iterations. *)
Definition actual_num_parts (duration : Q) (num_parts part_duration : Z) : Z :=
  let actual := Z.min num_parts (max_possible_parts duration part_duration) in
  if Qle_bool 3 duration then Z.max 1 actual else actual.

(** Lines 87-101: the body of the [for] loop up to the point where the
    extraction command is built.  [break] ends the loop, [continue]
    skips the index. *)
Fixpoint plan_loop (duration : Q) (part_duration : Z) (indices : list nat)
  : list part :=
  match indices with
  | [] => []
  | i :: rest =>
      let start := inject_Z (Z.of_nat i * part_duration) in
      if Qle_bool duration start then []
      else
        let stop :=
          py_min (inject_Z ((Z.of_nat i + 1) * part_duration)) duration in
        if Qlt_bool (stop - start) 3
        then plan_loop duration part_duration rest
        else Part i start stop :: plan_loop duration part_duration rest
  end.

(** The parts for which an extraction is attempted. *)
Definition segment_plan (duration : Q) (num_parts max_duration : Z) : list part :=
  plan_loop duration max_duration
    (py_range (actual_num_parts duration num_parts max_duration)).

(** Lines 118-138: a part is appended to [output_files] only when the
    extraction command returned 0 and the file exists; [extract_ok i]
    is that outcome for loop index [i].  A zero [max_duration] makes
    the floor division raise, and the function returns []. *)
Definition ffmpeg_split_video (duration : Q) (num_parts max_duration : Z)
    (extract_ok : nat -> bool) : list part :=
  if Z.eqb max_duration 0 then []
  else List.filter (fun p => extract_ok (part_index p))
         (segment_plan duration num_parts max_duration).

(** Segments laid end to end from time [t]: each one starts where the
    previous one stopped and has positive length, so the list is
    ordered and free of overlaps and gaps. *)
Fixpoint contiguous (t : Q) (l : list part) : Prop :=
  match l with
  | [] => True
  | p :: rest =>
      (start_time p == t)%Q /\ (start_time p < end_time p)%Q /\
      contiguous (end_time p) rest
  end.

(** The segmentation-bounds property with the count bound
    [min(part_count_hint, floor(D / 113))]. *)
Definition segmentation_as_stated (duration : Q) (num_parts : Z)
    (extract_ok : nat -> bool) : Prop :=
  let emitted := ffmpeg_split_video duration num_parts 113 extract_ok in
  Forall (fun p => (3 <= part_length p)%Q /\ (part_length p <= 113)%Q) emitted /\
  contiguous 0 emitted /\
  Z.of_nat (length emitted) <= Z.min num_parts (Qfloor (duration / 113)).

End FfmpegSplit.

(* ------------------------------------------------------------------ *)
(** ** Files and paths *)

(** A media file on disk: its size in bytes ([os.path.getsize]) and the
    duration moviepy reads from it; [None] when it cannot be opened as a
    video ([VideoFileClip] raises). *)
Record file := File { file_size : N; media_duration : option Q }.

(** The part of the file system the pipeline touches, by path. *)
Abbreviation filesystem := (gmap string file).

Definition exists_ (fs : filesystem) (path : string) : bool :=
  bool_decide (is_Some (fs !! path)).

(** [os.remove]: the file, when present, is gone afterwards.  (Every
    call site swallows a failure of the removal; a failing removal is
    outside the model.) *)
Definition remove (fs : filesystem) (path : string) : filesystem :=
  delete path fs.

Definition slash : ascii := "/"%char.
Definition dot : ascii := "."%char.

Fixpoint scan_ext (rev_chars : list ascii) : option (list ascii) :=
  match rev_chars with
  | [] => None
  | c :: r =>
      if Ascii.eqb c slash then None
      else if Ascii.eqb c dot then Some r
      else scan_ext r
  end.

Fixpoint basename_rev (rev_chars : list ascii) : list ascii :=
  match rev_chars with
  | [] => []
  | c :: r => if Ascii.eqb c slash then [] else c :: basename_rev r
  end.

(** [os.path.splitext(path)[0]]: the path without the extension of its
    last component; leading dots of that component are no extension. *)
Definition splitext_root (path : string) : string :=
  match scan_ext (rev (list_ascii_of_string path)) with
  | None => path
  | Some r =>
      if forallb (Ascii.eqb dot) (basename_rev r) then path
      else string_of_list_ascii (rev r)
  end.

(** [needle in haystack] on strings. *)
Definition py_in_str (needle haystack : string) : bool :=
  bool_decide (is_Some (String.index 0 needle haystack)).

(** What an external tool left at the path it was asked to write. *)
Inductive disk_effect :=
| Untouched
| Wrote (f : file)
| Deleted.

Definition apply_effect (fs : filesystem) (path : string) (e : disk_effect)
  : filesystem :=
  match e with
  | Untouched => fs
  | Wrote f => <[path := f]> fs
  | Deleted => delete path fs
  end.

(** [write_videofile(output_path)] with the [close] calls that follow
    it: either all of them return, and the file written has the given
    size, or one of them raises, and the run leaves behind what it had
    put at [output_path] by then (nothing, a partial file, or the
    whole file when it is a [close] that raises). *)
Inductive encode_outcome :=
| Encoded (size : N)
| EncodeRaised (left_behind : disk_effect).

Definition encoded (o : encode_outcome) : bool :=
  match o with Encoded _ => true | EncodeRaised _ => false end.

(* ------------------------------------------------------------------ *)
(** ** video_duration_utils.py *)

Module VideoDurationUtils.

Inductive message :=
| FailedToGetDuration | VideoTooShort | VideoTooLong | DurationOK
| ExtendedTo63 | FailedToExtend | ReadyForUpload.

(** [get_video_duration]: 0.0 when the file cannot be read. *)
Definition get_video_duration (fs : filesystem) (video_path : string) : Q :=
  match fs !! video_path with
  | Some f => default 0%Q (media_duration f)
  | None => 0%Q
  end.

(** [check_video_duration_requirements]: (is_valid, message, duration). *)
Definition check_video_duration_requirements (fs : filesystem)
    (video_path : string) : bool * message * Q :=
  let duration := get_video_duration fs video_path in
  if Qeq_bool duration 0 then (false, FailedToGetDuration, 0%Q)
  else if Qlt_bool duration 3 then (false, VideoTooShort, duration)
  else if Qlt_bool 120 duration then (false, VideoTooLong, duration)
  else (true, DurationOK, duration).

(** Lines 103-120: the duration of [concatenate_videoclips(clips)],
    the original clip followed by at most one loop clip taken from
    its beginning. *)
Definition extended_duration (original_duration target_duration : Q) : Q :=
  let remaining_time := (target_duration - original_duration)%Q in
  if Qlt_bool 0 remaining_time
  then (original_duration + py_min remaining_time original_duration)%Q
  else original_duration.

(** [extend_video_to_minimum_duration].  [encode p] is the outcome of
    [write_videofile] to [p] and of the [close] calls after it.  A
    file written in full has the duration of the concatenated clips.
    The handler of lines 163-165 returns [None] and removes nothing:
    what a raising run left at [output_path] stays there. *)
Definition extend_video_to_minimum_duration (encode : string -> encode_outcome)
    (fs : filesystem) (video_path : string) (target_duration : Q)
  : option string * filesystem :=
  match fs !! video_path ≫= media_duration with
  | None => (None, fs)
  | Some original_duration =>
      if Qle_bool target_duration original_duration
      then (Some video_path, fs)
      else
        let output_path := splitext_root video_path +:+ "_extended.mp4" in
        match encode output_path with
        | EncodeRaised e => (None, apply_effect fs output_path e)
        | Encoded sz =>
            let d := extended_duration original_duration target_duration in
            (Some output_path, <[output_path := File sz (Some d)]> fs)
        end
  end.

(** [process_video_for_upload]:
    (should_upload, message, processed_video_path). *)
Definition process_video_for_upload (encode : string -> encode_outcome)
    (fs : filesystem) (video_path : string)
  : (bool * message * option string) * filesystem :=
  let '(is_valid, msg, duration) :=
    check_video_duration_requirements fs video_path in
  if negb is_valid then ((false, msg, None), fs)
  else if Qlt_bool duration 60 then
    match extend_video_to_minimum_duration encode fs video_path 63 with
    | (Some extended_path, fs') => ((true, ExtendedTo63, Some extended_path), fs')
    | (None, fs') => ((false, FailedToExtend, None), fs')
    end
  else ((true, ReadyForUpload, Some video_path), fs).

(** [cleanup_extended_video] *)
Definition cleanup_extended_video (fs : filesystem) (video_path : string)
  : filesystem :=
  if exists_ fs video_path && py_in_str "_extended" video_path
  then remove fs video_path else fs.

(** The duration of the file handed on by [process_video_for_upload],
    when it accepts the input. *)
Definition processed_duration (encode : string -> encode_outcome)
    (fs : filesystem) (video_path : string) : option Q :=
  match process_video_for_upload encode fs video_path with
  | ((true, _, Some p), fs') => fs' !! p ≫= media_duration
  | _ => None
  end.

End VideoDurationUtils.

(* ------------------------------------------------------------------ *)
(** ** hashlib.md5 (RFC 1321) on 32-bit words held in [Z] *)

Module Md5.

Definition mask32 : Z := 4294967295.

Definition add32 (a b : Z) : Z := Z.land (a + b) mask32.
Definition not32 (a : Z) : Z := Z.lxor a mask32.
Definition rotl32 (x c : Z) : Z :=
  Z.lor (Z.land (Z.shiftl x c) mask32) (Z.shiftr x (32 - c)).

Definition shifts : list Z :=
  [7; 12; 17; 22; 7; 12; 17; 22; 7; 12; 17; 22; 7; 12; 17; 22;
   5; 9; 14; 20; 5; 9; 14; 20; 5; 9; 14; 20; 5; 9; 14; 20;
   4; 11; 16; 23; 4; 11; 16; 23; 4; 11; 16; 23; 4; 11; 16; 23;
   6; 10; 15; 21; 6; 10; 15; 21; 6; 10; 15; 21; 6; 10; 15; 21].

(** [floor(2^32 * abs(sin(i + 1)))] for [i] in 0..63. *)
Definition sines : list Z :=
  [3614090360; 3905402710; 606105819; 3250441966; 4118548399; 1200080426; 2821735955; 4249261313;
   1770035416; 2336552879; 4294925233; 2304563134; 1804603682; 4254626195; 2792965006; 1236535329;
   4129170786; 3225465664; 643717713; 3921069994; 3593408605; 38016083; 3634488961; 3889429448;
   568446438; 3275163606; 4107603335; 1163531501; 2850285829; 4243563512; 1735328473; 2368359562;
   4294588738; 2272392833; 1839030562; 4259657740; 2763975236; 1272893353; 4139469664; 3200236656;
   681279174; 3936430074; 3572445317; 76029189; 3654602809; 3873151461; 530742520; 3299628645;
   4096336452; 1126891415; 2878612391; 4237533241; 1700485571; 2399980690; 4293915773; 2240044497;
   1873313359; 4264355552; 2734768916; 1309151649; 4149444226; 3174756917; 718787259; 3951481745].

Record state := State { sa : Z; sb : Z; sc : Z; sd : Z }.

Definition init : state := State 1732584193 4023233417 2562383102 271733878.

Definition nth_word (l : list Z) (i : Z) : Z := nth (Z.to_nat i) l 0.

(** One of the 64 operations on the working registers. *)
Definition step (M : list Z) (s : state) (i : Z) : state :=
  let '(State a b c d) := s in
  let '(f, g) :=
    if i <? 16 then (Z.lor (Z.land b c) (Z.land (not32 b) d), i)
    else if i <? 32 then
      (Z.lor (Z.land d b) (Z.land (not32 d) c), (5 * i + 1) mod 16)
    else if i <? 48 then (Z.lxor b (Z.lxor c d), (3 * i + 5) mod 16)
    else (Z.lxor c (Z.lor b (not32 d)), (7 * i) mod 16) in
  let f := add32 (add32 (add32 f a) (nth_word sines i)) (nth_word M g) in
  State d (add32 b (rotl32 f (nth_word shifts i))) b c.

(** Four bytes, least significant first, as one word. *)
Fixpoint words_le (bytes : list Z) : list Z :=
  match bytes with
  | b0 :: b1 :: b2 :: b3 :: rest =>
      (b0 + 256 * b1 + 65536 * b2 + 16777216 * b3) :: words_le rest
  | _ => []
  end.

Definition compress (s : state) (block : list Z) : state :=
  let M := words_le block in
  let s' := fold_left (step M) (map Z.of_nat (seq 0 64)) s in
  State (add32 (sa s) (sa s')) (add32 (sb s) (sb s'))
        (add32 (sc s) (sc s')) (add32 (sd s) (sd s')).

Fixpoint blocks (n : nat) (bytes : list Z) (s : state) : state :=
  match n with
  | O => s
  | S n' => blocks n' (skipn 64 bytes) (compress s (firstn 64 bytes))
  end.

Definition bytes_le (width : nat) (x : Z) : list Z :=
  map (fun k => Z.land (Z.shiftr x (8 * Z.of_nat k)) 255) (seq 0 width).

(** Message, the byte 0x80, zeros up to 56 modulo 64, then the bit
    length in 64 bits. *)
Definition pad (msg : list Z) : list Z :=
  let len := Z.of_nat (length msg) in
  let zeros := Z.to_nat ((55 - len) mod 64) in
  msg ++ [128] ++ repeat 0 zeros ++ bytes_le 8 ((8 * len) mod 2 ^ 64).

Definition digest (msg : list Z) : list Z :=
  let padded := pad msg in
  let s := blocks (length padded / 64) padded init in
  bytes_le 4 (sa s) ++ bytes_le 4 (sb s) ++ bytes_le 4 (sc s) ++ bytes_le 4 (sd s).

Definition hex_digit (n : Z) : ascii :=
  nth (Z.to_nat n) (list_ascii_of_string "0123456789abcdef") "0"%char.

Fixpoint hex (bytes : list Z) : string :=
  match bytes with
  | [] => EmptyString
  | b :: rest =>
      String (hex_digit (b / 16)) (String (hex_digit (b mod 16)) (hex rest))
  end.

(** A Python [str] is held as its UTF-8 encoding, so [s.encode()] is
    the byte list of the string. *)
Definition encode (s : string) : list Z :=
  map (fun c => Z.of_N (N_of_ascii c)) (list_ascii_of_string s).

(** [hashlib.md5(s.encode()).hexdigest()] *)
Definition hexdigest (s : string) : string := hex (digest (encode s)).

End Md5.

(* ------------------------------------------------------------------ *)
(** ** Dictionaries of the configuration and of the feeds *)

(** A video dictionary as both ingestion paths build it; a field is
    [None] when the key is absent (or maps to [None]). *)
Record video := Video {
  video_id : option string;          (* 'id' *)
  video_title : option string;       (* 'title' *)
  video_url : option string;         (* 'url' *)
  video_published : option string;   (* 'published' *)
  video_channel_id : option string;  (* 'channel_id' *)
  video_author : option string;      (* 'author' *)
}.

(** The four values of a complete proxy entry, each as the text an
    f-string gives it. *)
Record proxy := Proxy {
  proxy_ip : string; proxy_port : string;
  proxy_username : string; proxy_password : string;
}.

(** A channel's ['proxy'] value when it is truthy: a dictionary in
    which any of the four keys may be missing.  (A truthy value that
    is no dictionary raises at the first subscript, as an entry
    without ['ip'] does.) *)
Record proxy_entry := ProxyEntry {
  entry_ip : option string;          (* 'ip' *)
  entry_port : option string;        (* 'port' *)
  entry_username : option string;    (* 'username' *)
  entry_password : option string;    (* 'password' *)
}.

(** One entry of [config["channels"]]. *)
Record channel := Channel {
  channel_name : option string;      (* 'name' *)
  channel_id : option string;        (* 'channel_id' *)
  tiktok_cookie : option string;     (* 'tiktok_cookie' *)
  channel_proxy : option proxy_entry;  (* 'proxy'; None also when falsy *)
}.

(** [monitor_config.json]; [{}] when loading failed. *)
Record config := Config {
  channels : option (list channel);
  auto_upload : option bool;
  download_path : option string;
  video_parts : option Z;
  video_duration_limit : option Z;
}.

(** Truth value of an optional string: [None] and [""] are false. *)
Definition truthy (o : option string) : bool :=
  match o with
  | Some s => negb (String.eqb s "")
  | None => false
  end.

(* ------------------------------------------------------------------ *)
(** ** Proxy strings (youtube_monitor.py, youtube_monitor_pubsub.py) *)

(** [str.split] on a one-character separator. *)
Fixpoint split_char (sep : ascii) (s : string) : list string :=
  match s with
  | EmptyString => [EmptyString]
  | String c rest =>
      if Ascii.eqb c sep then EmptyString :: split_char sep rest
      else match split_char sep rest with
           | h :: t => String c h :: t
           | [] => [String c EmptyString]
           end
  end.

Definition colon : ascii := ":"%char.

Fixpoint occurrences (c : ascii) (s : string) : nat :=
  match s with
  | EmptyString => 0
  | String x rest =>
      (if Ascii.eqb x c then 1 else 0) + occurrences c rest
  end.

Definition colon_free (s : string) : bool :=
  Nat.eqb (occurrences colon s) 0.

(** The proxy string both monitors build from a channel's proxy entry
    ([check_channel_for_new_videos] line 653, [process_video_async]
    line 213). *)
Definition proxy_string (p : proxy) : string :=
  proxy_ip p +:+ ":" +:+ proxy_port p +:+ ":" +:+ proxy_username p
    +:+ ":" +:+ proxy_password p.

(** The f-string applied to a channel's ['proxy'] entry; [None] when
    one of the four subscripts raises. *)
Definition proxy_entry_string (proxy_info : proxy_entry) : option string :=
  ip ← entry_ip proxy_info;
  port ← entry_port proxy_info;
  username ← entry_username proxy_info;
  password ← entry_password proxy_info;
  Some (proxy_string (Proxy ip port username password)).

(** Lines 650-657 of [check_channel_for_new_videos] and 210-216 of
    [process_video_async]: the proxy argument for [split_video].
    [Some None] is no proxy; [None] is an exception raised while the
    string is built, which ends the job in the handler of the caller. *)
Definition proxy_config_of (channel_info : option channel)
  : option (option string) :=
  match channel_info ≫= channel_proxy with
  | None => Some None
  | Some proxy_info =>
      match proxy_entry_string proxy_info with
      | Some proxy_string => Some (Some proxy_string)
      | None => None
      end
  end.

(** [upload_to_tiktok], lines 553-566: the proxy URL handed to the
    uploader.  A string that does not split into four parts is logged
    as invalid and the upload goes on with [proxy=None]. *)
Definition proxy_url (proxy_config : option string) : option string :=
  if truthy proxy_config then
    match split_char colon (default "" proxy_config) with
    | [ip; port; username; password] =>
        Some ("http://" +:+ username +:+ ":" +:+ password +:+ "@"
                +:+ ip +:+ ":" +:+ port)
    | _ => None
    end
  else None.

(* ------------------------------------------------------------------ *)
(** ** youtube_monitor.py: download stage and upload worker *)

(** [os.path.getsize] of a file known to exist. *)
Definition getsize (fs : filesystem) (path : string) : N :=
  match fs !! path with Some f => file_size f | None => 0%N end.

(** One call of [ydl.download]: whether it raised, and what it left at
    [output_path]. *)
Record ytdlp_outcome := YtDlp { raised : bool; ytdlp_effect : disk_effect }.

(** One call of the pytube fallback: an exception anywhere inside it,
    no suitable stream, or [stream.download] returning. *)
Inductive pytube_outcome :=
| PytubeRaises (e : disk_effect)
| PytubeNoStreams
| PytubeDownloaded (e : disk_effect).

Inductive attempt_result := AttemptRaised | AttemptNoFile | AttemptEmptyFile | AttemptOk.
Inductive fallback_result := FallbackRaised | FallbackNoStreams | FallbackNoFile | FallbackOk.

(** Observable actions of the pipeline, in program order. *)
Inductive event :=
| PrimaryAttempt (attempt : nat) (r : attempt_result)
| Sleep (seconds : nat)
| FallbackAttempt (r : fallback_result)
| UploadAttempt (account : string) (path : string) (success : bool)
| RemoveFile (path : string).

(** The external collaborators. *)
Record env := Env {
  (* scrapetube.get_channel, already parsed; None when it raises *)
  scrapetube : string -> option (list video);
  (* ydl.download, by output path and attempt number *)
  ytdlp : string -> nat -> ytdlp_outcome;
  (* the pytube fallback, by output path *)
  pytube : string -> pytube_outcome;
  (* write_videofile and the close calls after it, by output path *)
  encode : string -> encode_outcome;
  (* ffmpeg segment copy, by output path: size written, None on failure *)
  extract : string -> option N;
  (* tiktok.upload_video returned without raising, by account and file *)
  upload_video : string -> string -> bool;
}.

Module Download.

Definition max_attempts : nat := 2.

(** [download_video_pytube_fallback] *)
Definition download_video_pytube_fallback (E : env) (fs : filesystem)
    (output_path : string) : option string * filesystem * list event :=
  match pytube E output_path with
  | PytubeRaises e =>
      (None, apply_effect fs output_path e, [FallbackAttempt FallbackRaised])
  | PytubeNoStreams => (None, fs, [FallbackAttempt FallbackNoStreams])
  | PytubeDownloaded e =>
      let fs1 := apply_effect fs output_path e in
      if exists_ fs1 output_path && (0 <? getsize fs1 output_path)%N
      then (Some output_path, fs1, [FallbackAttempt FallbackOk])
      else (None, fs1, [FallbackAttempt FallbackNoFile])
  end.

(** How the [while attempt < max_attempts] loop is left: by a
    [return], or by its condition turning false. *)
Inductive loop_exit := Returned (r : option string) | LoopDone.

(** The loop of [download_video], lines 286-328. [fuel] bounds the
    number of iterations; [max_attempts - attempt] suffices. *)
Fixpoint primary_attempts (E : env) (fuel attempt : nat) (fs : filesystem)
    (output_path : string) : loop_exit * filesystem * list event :=
  match fuel with
  | O => (LoopDone, fs, [])
  | S fuel' =>
      if negb (attempt <? max_attempts)%nat then (LoopDone, fs, [])
      else
        let attempt := S attempt in
        let o := ytdlp E output_path attempt in
        let fs1 := apply_effect fs output_path (ytdlp_effect o) in
        let wait := if (attempt <? max_attempts)%nat
                    then [Sleep (5 * attempt)] else [] in
        if raised o then
          if (attempt <? max_attempts)%nat then
            let '(r, fs2, tr) :=
              primary_attempts E fuel' attempt fs1 output_path in
            (r, fs2, PrimaryAttempt attempt AttemptRaised :: wait ++ tr)
          else
            let fs2 := if exists_ fs1 output_path
                       then remove fs1 output_path else fs1 in
            (Returned None, fs2, [PrimaryAttempt attempt AttemptRaised])
        else if exists_ fs1 output_path then
          if (0 <? getsize fs1 output_path)%N then
            (Returned (Some output_path), fs1,
             [PrimaryAttempt attempt AttemptOk])
          else
            let fs2 := remove fs1 output_path in
            let '(r, fs3, tr) :=
              primary_attempts E fuel' attempt fs2 output_path in
            (r, fs3, PrimaryAttempt attempt AttemptEmptyFile :: wait ++ tr)
        else
          let '(r, fs2, tr) :=
            primary_attempts E fuel' attempt fs1 output_path in
          (r, fs2, PrimaryAttempt attempt AttemptNoFile :: wait ++ tr)
  end.

(** [download_video] *)
Definition download_video (E : env) (fs : filesystem) (output_path : string)
  : option string * filesystem * list event :=
  match primary_attempts E max_attempts 0 fs output_path with
  | (Returned r, fs1, tr) => (r, fs1, tr)
  | (LoopDone, fs1, tr) =>
      let '(r, fs2, tr') := download_video_pytube_fallback E fs1 output_path in
      (r, fs2, tr ++ tr')
  end.

Definition primary_attempts_trace (E : env) (fuel attempt : nat)
    (fs : filesystem) (output_path : string) : list event :=
  (primary_attempts E fuel attempt fs output_path).2.

Definition is_fallback (e : event) : bool :=
  match e with FallbackAttempt _ => true | _ => false end.

Definition fallback_attempts (tr : list event) : nat :=
  length (List.filter is_fallback tr).

(** No primary attempt produced a non-empty file. *)
Definition primary_all_failed (tr : list event) : Prop :=
  forall n, PrimaryAttempt n AttemptOk ∉ tr.

Definition fallback_failed (tr : list event) : Prop :=
  exists r, FallbackAttempt r ∈ tr /\ r <> FallbackOk.

(** What holds when the primary loop is left: it made no fallback
    attempt; a returned path is the output path and holds a non-empty
    file; [return None] happens on a raising last attempt, after the
    cleanup; falling out of the loop means no attempt succeeded and
    the last one did not raise. *)
Definition primary_post (p : string)
    (x : loop_exit * filesystem * list event) : Prop :=
  let '(r, fs', tr) := x in
  Forall (fun e => is_fallback e = false) tr /\
  match r with
  | Returned (Some q) =>
      q = p /\ (exists f, fs' !! p = Some f /\ (0 < file_size f)%N) /\
      (exists n, PrimaryAttempt n AttemptOk ∈ tr) /\
      PrimaryAttempt max_attempts AttemptRaised ∉ tr
  | Returned None =>
      PrimaryAttempt max_attempts AttemptRaised ∈ tr /\
      fs' !! p = None /\ primary_all_failed tr
  | LoopDone =>
      primary_all_failed tr /\
      PrimaryAttempt max_attempts AttemptRaised ∉ tr
  end.

(** The download-stage property as worded: fallback exactly once
    whenever every primary attempt failed; whenever the fallback
    failed too, no path is returned and nothing is left at
    [output_path]; a returned path names an existing non-empty file. *)
Definition download_stage_as_stated (E : env) (fs : filesystem)
    (output_path : string) : Prop :=
  let '(r, fs', tr) := download_video E fs output_path in
  (primary_all_failed tr -> fallback_attempts tr = 1%nat) /\
  (fallback_failed tr -> r = None /\ fs' !! output_path = None) /\
  (forall p, r = Some p ->
     exists f, fs' !! p = Some f /\ (0 < file_size f)%N).

End Download.

Module Upload.

(** [upload_part_worker]: one worker thread for one part file. *)
Definition upload_part_worker (E : env) (fs : filesystem)
    (part_path tiktok_cookie : string) : filesystem * list event :=
  if negb (exists_ fs part_path) then (fs, [])
  else if (getsize fs part_path =? 0)%N then (fs, [])
  else
    let success := upload_video E tiktok_cookie part_path in
    if success
    then (remove fs part_path,
          [UploadAttempt tiktok_cookie part_path true; RemoveFile part_path])
    else (fs, [UploadAttempt tiktok_cookie part_path false]).

Definition is_upload (e : event) : bool :=
  match e with UploadAttempt _ _ _ => true | _ => false end.

Definition upload_attempts (tr : list event) : nat :=
  length (List.filter is_upload tr).

(** The event is no upload, or an upload to [account]. *)
Definition upload_account_is (account : string) (e : event) : Prop :=
  match e with
  | UploadAttempt a _ _ => a = account
  | _ => True
  end.

End Upload.

(* ------------------------------------------------------------------ *)
(** ** Stage outcomes *)

(** The download stage returned no path. *)
Definition download_failed (E : env) (fs : filesystem) (output_path : string)
  : Prop :=
  (Download.download_video E fs output_path).1.1 = None.

(** The download stage delivered a file and the duration policy did
    not accept it ([should_upload] is false). *)
Definition duration_rejected (E : env) (fs : filesystem) (output_path : string)
  : Prop :=
  exists q fs1 tr,
    Download.download_video E fs output_path = (Some q, fs1, tr) /\
    (VideoDurationUtils.process_video_for_upload (encode E) fs1 q).1.1.1 = false.

(* ------------------------------------------------------------------ *)
(** ** youtube_monitor.py: caches, splitting with uploads, polling *)

Module YouTubeMonitor.

(** A value of [scrapetube_cache]: ['videos'] and ['timestamp']. *)
Record cache_entry := CacheEntry {
  entry_videos : list video;
  entry_timestamp : Q;
}.

(** An [OrderedDict] with string keys: the items in insertion order. *)
Abbreviation ordered_dict := (list (string * cache_entry)).

Fixpoint od_get (d : ordered_dict) (k : string) : option cache_entry :=
  match d with
  | [] => None
  | (k', v) :: rest => if String.eqb k' k then Some v else od_get rest k
  end.

(** [d[k] = v]: an existing key keeps its position, a new key goes to
    the end. *)
Fixpoint od_set (d : ordered_dict) (k : string) (v : cache_entry)
  : ordered_dict :=
  match d with
  | [] => [(k, v)]
  | (k', v') :: rest =>
      if String.eqb k' k then (k, v) :: rest
      else (k', v') :: od_set rest k v
  end.

(** [d.popitem(last=False)] on a non-empty dictionary. *)
Definition od_popitem_first (d : ordered_dict) : ordered_dict := tail d.

Definition od_keys (d : ordered_dict) : list string := fst <$> d.

(** The state of a [YouTubeMonitor] object together with the files
    it persists to. *)
Record monitor := Monitor {
  mon_config : config;
  processed_videos : list string;
  video_hash_cache : gset string;
  scrapetube_cache : ordered_dict;
  max_cache_size : nat;
  save_counter : option nat;
  processed_videos_file : list string;        (* processed_videos.json *)
  video_hash_cache_file : gset string;        (* video_hash_cache.pkl *)
  scrapetube_cache_file : ordered_dict;       (* scrapetube_cache.pkl *)
}.

(** [__init__] with nothing on disk: empty caches, capacity 50. *)
Definition new_monitor (cfg : config) : monitor :=
  Monitor cfg [] ∅ [] 50 None [] ∅ [].

Definition set_processed_videos (m : monitor) (l : list string) : monitor :=
  Monitor (mon_config m) l (video_hash_cache m) (scrapetube_cache m)
    (max_cache_size m) (save_counter m) (processed_videos_file m)
    (video_hash_cache_file m) (scrapetube_cache_file m).

Definition set_video_hash_cache (m : monitor) (h : gset string) : monitor :=
  Monitor (mon_config m) (processed_videos m) h (scrapetube_cache m)
    (max_cache_size m) (save_counter m) (processed_videos_file m)
    (video_hash_cache_file m) (scrapetube_cache_file m).

Definition set_scrapetube_cache (m : monitor) (d : ordered_dict) : monitor :=
  Monitor (mon_config m) (processed_videos m) (video_hash_cache m) d
    (max_cache_size m) (save_counter m) (processed_videos_file m)
    (video_hash_cache_file m) (scrapetube_cache_file m).

Definition set_save_counter (m : monitor) (c : option nat) : monitor :=
  Monitor (mon_config m) (processed_videos m) (video_hash_cache m)
    (scrapetube_cache m) (max_cache_size m) c (processed_videos_file m)
    (video_hash_cache_file m) (scrapetube_cache_file m).

(** The [save_*] methods: the file takes the in-memory value. *)
Definition save_processed_videos (m : monitor) : monitor :=
  Monitor (mon_config m) (processed_videos m) (video_hash_cache m)
    (scrapetube_cache m) (max_cache_size m) (save_counter m)
    (processed_videos m) (video_hash_cache_file m) (scrapetube_cache_file m).

Definition save_video_hash_cache (m : monitor) : monitor :=
  Monitor (mon_config m) (processed_videos m) (video_hash_cache m)
    (scrapetube_cache m) (max_cache_size m) (save_counter m)
    (processed_videos_file m) (video_hash_cache m) (scrapetube_cache_file m).

Definition save_scrapetube_cache (m : monitor) : monitor :=
  Monitor (mon_config m) (processed_videos m) (video_hash_cache m)
    (scrapetube_cache m) (max_cache_size m) (save_counter m)
    (processed_videos_file m) (video_hash_cache_file m) (scrapetube_cache m).

Definition cache_key (channel_id : string) : string :=
  "scrapetube_" +:+ channel_id.

(** [get_cached_scrapetube_data]; [now] is [time.time()]. *)
Definition get_cached_scrapetube_data (m : monitor) (channel_id : string)
    (max_age_seconds now : Q) : option (list video) :=
  match od_get (scrapetube_cache m) (cache_key channel_id) with
  | Some cached_data =>
      if Qlt_bool (now - entry_timestamp cached_data) max_age_seconds
      then Some (entry_videos cached_data)
      else None
  | None => None
  end.

(** [cache_scrapetube_data] *)
Definition cache_scrapetube_data (m : monitor) (channel_id : string)
    (videos : list video) (now : Q) : monitor :=
  let d1 := od_set (scrapetube_cache m) (cache_key channel_id)
              (CacheEntry videos now) in
  let d2 := if (max_cache_size m <? length d1)%nat
            then od_popitem_first d1 else d1 in
  let m2 := set_scrapetube_cache m d2 in
  if (length d2 mod 10 =? 0)%nat then save_scrapetube_cache m2 else m2.

(** The fetch results of the channels [ids] cached one after the
    other. *)
Definition cache_all (m : monitor) (ids : list string)
    (videos_of : string -> list video) (time_of : string -> Q) : monitor :=
  foldl (fun m' id => cache_scrapetube_data m' id (videos_of id) (time_of id))
    m ids.

(** [is_video_processed] *)
Definition is_video_processed (m : monitor) (video_hash : string) : bool :=
  bool_decide (video_hash ∈ video_hash_cache m).

(** [mark_video_processed] *)
Definition mark_video_processed (m : monitor) (video_hash : string) : monitor :=
  let m1 := set_video_hash_cache m ({[video_hash]} ∪ video_hash_cache m) in
  if (size (video_hash_cache m1) mod 50 =? 0)%nat
  then save_video_hash_cache m1 else m1.

(** [get_channel_videos_scrapetube] *)
Definition get_channel_videos_scrapetube (E : env) (m : monitor)
    (channel_id : string) (limit : nat) (now : Q) : list video * monitor :=
  match get_cached_scrapetube_data m channel_id 300 now with
  | Some (v :: cached) => (take limit (v :: cached), m)
  | _ =>
      match scrapetube E channel_id with
      | None => ([], m)
      | Some fetched =>
          let video_list := take limit fetched in
          (video_list, cache_scrapetube_data m channel_id video_list now)
      end
  end.

(** The name of the file for loop index [i] of the splitter. *)
Definition part_path (video_path : string) (i : nat) : string :=
  splitext_root video_path +:+ "_part_" +:+ pretty (S i) +:+ ".mp4".

(** [ffmpeg_split_video] on files: existence check, duration probe,
    then one extraction per planned part. *)
Definition ffmpeg_split_video_files (E : env) (fs : filesystem)
    (video_path : string) (num_parts max_duration : Z)
  : list string * filesystem :=
  if negb (exists_ fs video_path) then ([], fs)
  else
    match fs !! video_path ≫= media_duration with
    | None => ([], fs)
    | Some duration =>
        let ok i := bool_decide (is_Some (extract E (part_path video_path i))) in
        let parts :=
          FfmpegSplit.ffmpeg_split_video duration num_parts max_duration ok in
        (map (fun p => part_path video_path (FfmpegSplit.part_index p)) parts,
         foldl (fun fs' p =>
                  let out := part_path video_path (FfmpegSplit.part_index p) in
                  match extract E out with
                  | Some sz =>
                      <[out := File sz (Some (FfmpegSplit.part_length p))]> fs'
                  | None => fs'
                  end) fs parts)
    end.

(** The upload workers of one job.  Each touches only its own part
    file, so their interleaving is immaterial; they are run in list
    order. *)
Fixpoint run_upload_workers (E : env) (fs : filesystem)
    (parts : list string) (tiktok_cookie : string)
  : filesystem * list event :=
  match parts with
  | [] => (fs, [])
  | part :: rest =>
      let '(fs1, tr1) := Upload.upload_part_worker E fs part tiktok_cookie in
      let '(fs2, tr2) := run_upload_workers E fs1 rest tiktok_cookie in
      (fs2, tr1 ++ tr2)
  end.

(** [split_video] *)
Definition split_video (E : env) (cfg : config) (fs : filesystem)
    (video_path : string) (num_parts : Z) (tiktok_cookie : string)
  : list string * filesystem * list event :=
  if negb (exists_ fs video_path) then ([], fs, [])
  else
    match VideoDurationUtils.process_video_for_upload (encode E) fs video_path with
    | ((true, _, Some video_to_split), fs1) =>
        let extended_video_path :=
          if String.eqb video_to_split video_path
          then None else Some video_to_split in
        let max_duration := default 113 (video_duration_limit cfg) in
        let '(split_videos, fs2) :=
          ffmpeg_split_video_files E fs1 video_to_split num_parts max_duration in
        let '(fs3, tr) :=
          match split_videos with
          | [] => (fs2, [])
          | _ :: _ =>
              if default true (auto_upload cfg)
              then run_upload_workers E fs2 split_videos tiktok_cookie
              else (fs2, [])
          end in
        let fs4 :=
          match extended_video_path with
          | Some p => VideoDurationUtils.cleanup_extended_video fs3 p
          | None => fs3
          end in
        (split_videos, fs4, tr)
    | (_, fs1) => ([], fs1, [])
    end.

(** A new video found by the polling path, about to be processed. *)
Record job := Job {
  job_channel : channel;
  job_video_id : string;
  job_video_url : string;
  job_video_title : string;
  job_video_hash : string;
}.

(** [hashlib.md5(f"{video_id}_{video_title}".encode()).hexdigest()] *)
Definition video_hash (video_id video_title : string) : string :=
  Md5.hexdigest (video_id +:+ "_" +:+ video_title).

(** [check_channel_for_new_videos], lines 594-633: fetch the latest
    video and decide whether it is new. *)
Definition check_begin (E : env) (m : monitor) (channel_info : channel)
    (now : Q) : option job * monitor :=
  match channel_id channel_info with
  | Some cid =>
      if String.eqb cid "" then (None, m)
      else
        let '(videos, m1) := get_channel_videos_scrapetube E m cid 1 now in
        match videos with
        | [] => (None, m1)
        | video_data :: _ =>
            if negb (truthy (video_id video_data))
               || negb (truthy (video_url video_data))
            then (None, m1)
            else
              let vid := default "" (video_id video_data) in
              let url := default "" (video_url video_data) in
              let title := default "Untitled" (video_title video_data) in
              let h := video_hash vid title in
              if is_video_processed m1 h then (None, m1)
              else (Some (Job channel_info vid url title h), m1)
        end
  | None => (None, m)
  end.

(** [check_channel_for_new_videos], lines 635-693: download, build the
    proxy string, split and upload, then mark the video processed.  An
    exception while the proxy string is built is caught by the handler
    of lines 695-699, which returns [[]] with the download left where
    it is.  [split_video] hands the proxy string on to
    [upload_to_tiktok]; the [upload_video] oracle stands for the result
    of that call, with whatever proxy it was given. *)
Definition job_output_path (m : monitor) (j : job) : option string :=
  let name := default "Unknown" (channel_name (job_channel j)) in
  match download_path (mon_config m) with
  | None => None
  | Some dir =>
      Some (dir +:+ "/" +:+ name +:+ "_" +:+ job_video_id j +:+ ".mp4")
  end.

Definition check_job (E : env) (m : monitor) (fs : filesystem) (j : job)
  : list job * monitor * filesystem * list event :=
  let cookie := default "default" (tiktok_cookie (job_channel j)) in
  match job_output_path m j with
  | None => ([], m, fs, [])
  | Some output_path =>
      match Download.download_video E fs output_path with
      | (None, fs1, tr1) => ([], m, fs1, tr1)
      | (Some downloaded_path, fs1, tr1) =>
          let num_parts := Z.min 3 (default 3 (video_parts (mon_config m))) in
          match proxy_config_of (Some (job_channel j)) with
          | None => ([], m, fs1, tr1)
          | Some proxy_string =>
              match split_video E (mon_config m) fs1 downloaded_path
                      num_parts cookie with
              | ([], fs2, tr2) => ([], m, fs2, tr1 ++ tr2)
              | (_ :: _, fs2, tr2) =>
                  let m1 := mark_video_processed m (job_video_hash j) in
                  let m2 := set_processed_videos m1
                              (processed_videos m1 ++ [job_video_hash j]) in
                  let m3 := save_processed_videos m2 in
                  ([j], m3, remove fs2 downloaded_path,
                   tr1 ++ tr2 ++ [RemoveFile downloaded_path])
              end
          end
      end
  end.

(** [check_channel_for_new_videos] *)
Definition check_channel_for_new_videos (E : env) (m : monitor)
    (fs : filesystem) (channel_info : channel) (now : Q)
  : list job * monitor * filesystem * list event :=
  match check_begin E m channel_info now with
  | (Some j, m1) => check_job E m1 fs j
  | (None, m1) => ([], m1, fs, [])
  end.

(** The dedup state of the polling path: what [is_video_processed]
    reads and what the path persists. *)
Definition dedup_state (m : monitor)
  : gset string * list string * list string * gset string :=
  (video_hash_cache m, processed_videos m,
   processed_videos_file m, video_hash_cache_file m).

(** The polling path accepts the video: [is_video_processed] is false
    for its hash. *)
Definition poll_accepts (m : monitor) (v : video) : bool :=
  negb (is_video_processed m
          (video_hash (default "" (video_id v))
             (default "Untitled" (video_title v)))).

(** *** The threads of [monitor_all_channels] *)

(** One thread per channel, running [check_channel_for_new_videos]:
    not yet at the dedup check, inside the job, or finished. *)
Inductive thread :=
| Ready (c : channel)
| InFlight (j : job)
| Finished.

Record process := Process {
  mon : monitor;
  disk : filesystem;
  threads : list thread;
}.

(** Lines 709-716: every thread is started before any is joined. *)
Definition start_threads (m : monitor) (fs : filesystem) : process :=
  Process m fs (map Ready (default [] (channels (mon_config m)))).

(** The scheduler lets thread [i] run its next phase. *)
Definition thread_step (E : env) (now : Q) (s : process) (i : nat) : process :=
  match threads s !! i with
  | Some (Ready c) =>
      let '(oj, m1) := check_begin E (mon s) c now in
      let t := match oj with Some j => InFlight j | None => Finished end in
      Process m1 (disk s) (<[i := t]> (threads s))
  | Some (InFlight j) =>
      let '(_, m1, fs1, _) := check_job E (mon s) (disk s) j in
      Process m1 fs1 (<[i := Finished]> (threads s))
  | _ => s
  end.

Definition run_schedule (E : env) (now : Q) (s : process)
    (schedule : list nat) : process :=
  foldl (thread_step E now) s schedule.

Definition is_in_flight (t : thread) : bool :=
  match t with InFlight _ => true | _ => false end.

Definition jobs_in_flight (s : process) : nat :=
  length (List.filter is_in_flight (threads s)).

(** [monitor_all_channels]: start the threads, let them run under
    some schedule, join them all (each unfinished thread is run to
    its end), then count the cycle and save the caches on every
    fifth one. *)
Definition monitor_all_channels (E : env) (now : Q) (m : monitor)
    (fs : filesystem) (schedule : list nat) : monitor * filesystem :=
  let s0 := start_threads m fs in
  let s1 := run_schedule E now s0 schedule in
  let all := seq 0 (length (threads s1)) in
  let s2 := run_schedule E now s1 (all ++ all) in
  let c := match save_counter (mon s2) with Some c => S c | None => 1%nat end in
  let m1 := set_save_counter (mon s2) (Some c) in
  let m2 := if (c mod 5 =? 0)%nat
            then save_video_hash_cache (save_scrapetube_cache m1) else m1 in
  (m2, disk s2).

End YouTubeMonitor.

(* ------------------------------------------------------------------ *)
(** ** youtube_monitor_pubsub.py: the push path *)

Module YouTubeMonitorPubSub.

(** The state of a [YouTubeMonitorPubSub] object with the file it
    persists to.  [yt_config] is the configuration of the
    [YouTubeMonitor] it creates for downloading and splitting; those
    two methods read nothing else of that object and change nothing
    of it. *)
Record pubsub := PubSub {
  ps_config : config;
  processed_videos : gset (option string);
  processing_video : bool;
  notifications_received : nat;
  videos_processed : nat;
  processed_videos_file : gset (option string);   (* processed_videos.json *)
  yt_config : config;
}.

Definition new_pubsub (cfg yt_cfg : config) : pubsub :=
  PubSub cfg ∅ false 0 0 ∅ yt_cfg.

Definition set_processing_video (ps : pubsub) (b : bool) : pubsub :=
  PubSub (ps_config ps) (processed_videos ps) b (notifications_received ps)
    (videos_processed ps) (processed_videos_file ps) (yt_config ps).

Definition count_video_processed (ps : pubsub) : pubsub :=
  PubSub (ps_config ps) (processed_videos ps) (processing_video ps)
    (notifications_received ps) (S (videos_processed ps))
    (processed_videos_file ps) (yt_config ps).

(** [find_channel_for_video].  Reading [default_channel['name']] for
    the log line raises when the first channel has no name; the
    handler then returns [None]. *)
Definition first_channel (cfg : config) : option channel :=
  match default [] (channels cfg) with
  | default_channel :: _ =>
      match channel_name default_channel with
      | Some _ => Some default_channel
      | None => None
      end
  | [] => None
  end.

Fixpoint match_channel (cs : list channel) (video_channel_id : string)
  : option channel :=
  match cs with
  | [] => None
  | c :: rest =>
      if String.eqb (default "" (channel_id c)) video_channel_id
      then Some c else match_channel rest video_channel_id
  end.

Definition find_channel_for_video (cfg : config) (v : video) : option channel :=
  if negb (truthy (video_channel_id v)) then first_channel cfg
  else
    match match_channel (default [] (channels cfg))
            (default "" (video_channel_id v)) with
    | Some c => Some c
    | None => first_channel cfg
    end.

(** Lines 186-188: the account and the channel name of the job. *)
Definition job_tiktok_cookie (cfg : config) (v : video) : string :=
  match find_channel_for_video cfg v with
  | Some c => default "default" (tiktok_cookie c)
  | None => "default"
  end.

Definition job_channel_name (cfg : config) (v : video) : string :=
  match find_channel_for_video cfg v with
  | Some c => default "Unknown" (channel_name c)
  | None => "Unknown"
  end.

(** [process_video_async], lines 162-166: the in-flight gate.
    [None] when the event is dropped. *)
Definition process_video_async_enter (ps : pubsub) : option pubsub :=
  if processing_video ps then None
  else Some (set_processing_video ps true).

(** Lines 194-197: the path the video is downloaded to. *)
Definition job_output_path (ps : pubsub) (v : video) : option string :=
  match download_path (yt_config ps), video_id v with
  | Some dir, Some vid => Some (dir +:+ "/new_video_" +:+ vid +:+ ".mp4")
  | _, _ => None
  end.

(** Lines 210-216: the proxy string of the routed channel. *)
Definition job_proxy_config (cfg : config) (v : video)
  : option (option string) :=
  proxy_config_of (find_channel_for_video cfg v).

(** [process_video_async], lines 168-246: the body of the [try], with
    the handler of lines 243-246.  An exception while the proxy string
    is built ends the job there: the download is neither split nor
    removed.  [split_video] hands the proxy string on to
    [upload_to_tiktok]; the [upload_video] oracle stands for the result
    of that call, with whatever proxy it was given. *)
Definition process_video_async_body (E : env) (ps : pubsub)
    (fs : filesystem) (v : video) : pubsub * filesystem * list event :=
  if negb (truthy (video_url v)) then (ps, fs, [])
  else
    match job_output_path ps v with
    | Some output_path =>
        match Download.download_video E fs output_path with
        | (None, fs1, tr1) => (ps, fs1, tr1)
        | (Some downloaded_path, fs1, tr1) =>
            match job_proxy_config (ps_config ps) v with
            | None => (ps, fs1, tr1)
            | Some proxy_config =>
                match YouTubeMonitor.split_video E (yt_config ps) fs1
                        downloaded_path 5
                        (job_tiktok_cookie (ps_config ps) v) with
                | ([], fs2, tr2) =>
                    (ps, remove fs2 downloaded_path,
                     tr1 ++ tr2 ++ [RemoveFile downloaded_path])
                | (_ :: _, fs2, tr2) =>
                    (count_video_processed ps, remove fs2 downloaded_path,
                     tr1 ++ tr2 ++ [RemoveFile downloaded_path])
                end
            end
        end
    | None => (ps, fs, [])
    end.

(** [process_video_async], line 249: the [finally]. *)
Definition process_video_async_exit (ps : pubsub) : pubsub :=
  set_processing_video ps false.

(** [process_video_async] run from its first to its last line. *)
Definition process_video_async (E : env) (ps : pubsub) (fs : filesystem)
    (v : video) : pubsub * filesystem * list event :=
  match process_video_async_enter ps with
  | None => (ps, fs, [])
  | Some ps1 =>
      let '(ps2, fs1, tr) := process_video_async_body E ps1 fs v in
      (process_video_async_exit ps2, fs1, tr)
  end.

(** [video_notification_callback], lines 133-151: the dedup check,
    then the statistics, the mark and the save.  [None] when the video
    is already known. *)
Definition callback_admit (ps : pubsub) (v : video) : option pubsub :=
  if bool_decide (video_id v ∈ processed_videos ps) then None
  else
    let marked := {[video_id v]} ∪ processed_videos ps in
    Some (PubSub (ps_config ps) marked (processing_video ps)
            (S (notifications_received ps)) (videos_processed ps)
            marked (yt_config ps)).

(** [video_notification_callback] *)
Definition video_notification_callback (E : env) (ps : pubsub)
    (fs : filesystem) (v : video) : pubsub * filesystem * list event :=
  match callback_admit ps v with
  | None => (ps, fs, [])
  | Some ps1 =>
      if default true (auto_upload (ps_config ps1))
      then process_video_async E ps1 fs v
      else (ps1, fs, [])
  end.

(** The dedup state of the push path. *)
Definition dedup_state (ps : pubsub)
  : gset (option string) * gset (option string) :=
  (processed_videos ps, processed_videos_file ps).

(** The push path accepts the video: the dedup check of
    [video_notification_callback] lets it through. *)
Definition push_accepts (ps : pubsub) (v : video) : bool :=
  bool_decide (is_Some (callback_admit ps v)).

(** Retry after failure, as worded, on the push path: a failed
    download or duration stage leaves the dedup state as it was. *)
Definition failure_keeps_dedup_state (E : env) (ps : pubsub)
    (fs : filesystem) (v : video) : Prop :=
  forall out, job_output_path ps v = Some out ->
    download_failed E fs out \/ duration_rejected E fs out ->
    dedup_state (video_notification_callback E ps fs v).1.1 = dedup_state ps.

(** *** Notifications overlapping a running job *)

(** The receiver delivers a notification, or the running job reaches
    its end. *)
Inductive action :=
| Arrive (v : video)
| Complete.

Record process := Process {
  state : pubsub;
  disk : filesystem;
  running : list video;      (* jobs past the gate and not yet finished *)
}.

Definition start (ps : pubsub) (fs : filesystem) : process :=
  Process ps fs [].

Definition step (E : env) (s : process) (a : action) : process :=
  match a with
  | Arrive v =>
      match callback_admit (state s) v with
      | None => s
      | Some ps1 =>
          if default true (auto_upload (ps_config ps1)) then
            match process_video_async_enter ps1 with
            | None => Process ps1 (disk s) (running s)
            | Some ps2 => Process ps2 (disk s) (v :: running s)
            end
          else Process ps1 (disk s) (running s)
      end
  | Complete =>
      match running s with
      | [] => s
      | v :: rest =>
          let '(ps1, fs1, _) :=
            process_video_async_body E (state s) (disk s) v in
          Process (process_video_async_exit ps1) fs1 rest
      end
  end.

Definition run (E : env) (s : process) (actions : list action) : process :=
  foldl (step E) s actions.

Definition jobs_in_flight (s : process) : nat := length (running s).

(** The flag is set exactly while one job is running. *)
Definition gate_invariant (s : process) : Prop :=
  length (running s) = if processing_video (state s) then 1%nat else 0%nat.

End YouTubeMonitorPubSub.

(* ------------------------------------------------------------------ *)
(** ** The two ingestion paths side by side *)

(** Both paths take the same decision on every video. *)
Definition dedup_paths_agree (ps : YouTubeMonitorPubSub.pubsub)
    (m : YouTubeMonitor.monitor) : Prop :=
  forall v, YouTubeMonitorPubSub.push_accepts ps v
            = YouTubeMonitor.poll_accepts m v.

(** At most one job in flight, on the push path under every sequence
    of notifications and on the polling path under every schedule. *)
Definition single_in_flight_as_stated (E : env) (now : Q)
    (ps : YouTubeMonitorPubSub.pubsub) (m : YouTubeMonitor.monitor)
    (fs : filesystem) : Prop :=
  (forall actions,
     (YouTubeMonitorPubSub.jobs_in_flight
        (YouTubeMonitorPubSub.run E (YouTubeMonitorPubSub.start ps fs) actions)
      <= 1)%nat) /\
  (forall schedule,
     (YouTubeMonitor.jobs_in_flight
        (YouTubeMonitor.run_schedule E now
           (YouTubeMonitor.start_threads m fs) schedule)
      <= 1)%nat).

(* ------------------------------------------------------------------ *)
(** ** Sample configurations and environments *)

Module Examples.

Definition two_channels : config :=
  Config (Some [Channel (Some "A") (Some "UC_A") (Some "acct_a") None;
                Channel (Some "B") (Some "UC_B") (Some "acct_b") None])
    None (Some "dl") None None.

Definition no_channels : config :=
  Config (Some []) None (Some "dl") None None.

(** The first channel has a proxy entry without user name and
    password. *)
Definition incomplete_proxy : config :=
  Config (Some [Channel (Some "A") (Some "UC_A") (Some "acct_a")
                  (Some (ProxyEntry (Some "10.0.0.1") (Some "8080") None None));
                Channel (Some "B") (Some "UC_B") (Some "acct_b") None])
    None (Some "dl") None None.

Definition video_a : video :=
  Video (Some "vidA") (Some "First") (Some "https://www.youtube.com/watch?v=vidA")
    None (Some "UC_A") (Some "A").

Definition video_b : video :=
  Video (Some "vidB") (Some "Second") (Some "https://www.youtube.com/watch?v=vidB")
    None (Some "UC_B") (Some "B").

Definition feed (cid : string) : option (list video) :=
  if String.eqb cid "UC_A" then Some [video_a]
  else if String.eqb cid "UC_B" then Some [video_b]
  else Some [].

(** Every collaborator succeeds: downloads are 70-second files. *)
Definition all_succeed : env :=
  Env feed (fun _ _ => YtDlp false (Wrote (File 5000 (Some 70%Q))))
      (fun _ => PytubeNoStreams)
      (fun _ => Encoded 6000) (fun _ => Some 3000%N) (fun _ _ => true).

(** The primary downloader finds nothing and no fallback stream
    exists. *)
Definition never_stream : env :=
  Env feed (fun _ _ => YtDlp false Untouched) (fun _ => PytubeNoStreams)
      (fun _ => EncodeRaised Untouched) (fun _ => None) (fun _ _ => false).

(** Every primary attempt raises. *)
Definition always_raising : env :=
  Env feed (fun _ _ => YtDlp true Untouched) (fun _ => PytubeNoStreams)
      (fun _ => EncodeRaised Untouched) (fun _ => None) (fun _ _ => false).

(** The fallback returns but leaves an empty file. *)
Definition empty_fallback_file : env :=
  Env feed (fun _ _ => YtDlp false Untouched)
      (fun _ => PytubeDownloaded (Wrote (File 0 None)))
      (fun _ => EncodeRaised Untouched) (fun _ => None) (fun _ _ => false).

End Examples.

(** Short names for the two monitors. *)
Module Poll := YouTubeMonitor.
Module Push := YouTubeMonitorPubSub.

(** An event is not in an explicit trace. *)
Ltac not_in_trace :=
  let H := fresh in
  intros H;
  repeat (apply elem_of_cons in H as [H|H]; [discriminate H|]);
  now apply elem_of_nil in H.

(* ------------------------------------------------------------------ *)
(** ** Further notions used in the properties *)

(** The part of loop index [i] when the video reaches the end of that
    part: [i * max_duration] to [(i + 1) * max_duration]. *)
Definition full_part (max_duration : Z) (i : nat) : FfmpegSplit.part :=
  FfmpegSplit.Part i (inject_Z (Z.of_nat i * max_duration))
    (inject_Z ((Z.of_nat i + 1) * max_duration)).

(** The hashes [hs] marked processed one after the other. *)
Definition mark_all (m : YouTubeMonitor.monitor) (hs : list string)
  : YouTubeMonitor.monitor :=
  foldl YouTubeMonitor.mark_video_processed m hs.




(** The events the download stage can produce. *)
Definition is_download_event (e : event) : bool :=
  match e with
  | PrimaryAttempt _ _ | Sleep _ | FallbackAttempt _ => true
  | _ => false
  end.


(** The event is an upload of one of [parts] to [account], or the
    removal of one of [parts]. *)
Definition part_event (account : string) (parts : list string) (e : event)
  : Prop :=
  match e with
  | UploadAttempt a path _ => a = account /\ path ∈ parts
  | RemoveFile path => path ∈ parts
  | _ => False
  end.


(* ------------------------------------------------------------------ *)
(** ** youtube_monitor_pubsub.py: channel administration *)

Module ChannelAdmin.

Definition set_channels (cfg : config) (cs : option (list channel)) : config :=
  Config cs (auto_upload cfg) (download_path cfg) (video_parts cfg)
    (video_duration_limit cfg).

Definition new_channel (cid name cookie : string) : channel :=
  Channel (Some name) (Some cid) (Some cookie) None.

(** [add_channel], lines 387-419.  The entry is appended to
    [config["channels"]] first; without that key the append raises and
    nothing changes.  [io_ok] says that neither writing
    [monitor_config.json] nor the subscription raises: when one does,
    the method returns [False] and the appended entry stays. *)
Definition add_channel (cfg : config) (cid name cookie : string)
    (io_ok : bool) : bool * config :=
  match channels cfg with
  | None => (false, cfg)
  | Some cs => (io_ok, set_channels cfg (Some (cs ++ [new_channel cid name cookie])))
  end.

(** [remove_channel], lines 421-444: every entry with that id goes. *)
Definition remove_channel (cfg : config) (cid : string) (io_ok : bool)
  : bool * config :=
  (io_ok,
   set_channels cfg
     (Some (List.filter (fun ch => bool_decide (channel_id ch ≠ Some cid))
              (default [] (channels cfg))))).

End ChannelAdmin.


(* ------------------------------------------------------------------ *)
(** ** youtube_monitor.py: channel ids from URLs *)

(** [s] without the prefix [p], when it starts with it. *)
Fixpoint strip_prefix (p s : string) : option string :=
  match p, s with
  | EmptyString, _ => Some s
  | String a p', String b s' =>
      if Ascii.eqb a b then strip_prefix p' s' else None
  | String _ _, EmptyString => None
  end.

(** What follows the first occurrence of [sep] in [s]: [sep in s] is
    [is_Some] of it. *)
Fixpoint after_first (sep s : string) : option string :=
  match strip_prefix sep s with
  | Some r => Some r
  | None =>
      match s with
      | EmptyString => None
      | String _ s' => after_first sep s'
      end
  end.

(** [s.split(sep)[0]]: what precedes the first occurrence of [sep],
    all of [s] when there is none. *)
Fixpoint before_first (sep s : string) : string :=
  match strip_prefix sep s with
  | Some _ => EmptyString
  | None =>
      match s with
      | EmptyString => EmptyString
      | String c s' => String c (before_first sep s')
      end
  end.

(** [get_channel_id_from_url], lines 196-203.  [url.split("channel/")[1]]
    is what lies between the first and the second occurrence of
    ["channel/"]. *)
Definition get_channel_id_from_url (channel_url : string) : option string :=
  match after_first "channel/" channel_url with
  | Some rest => Some (before_first "/" (before_first "channel/" rest))
  | None => None
  end.

(* ================================================================== *)
(** * Properties *)

Section Md5Vectors.

(** The test suite of RFC 1321, and a message of two blocks. *)
Example md5_empty :
  Md5.hexdigest "" = "d41d8cd98f00b204e9800998ecf8427e"%string.
Proof. vm_compute. reflexivity. Qed.

Example md5_abc :
  Md5.hexdigest "abc" = "900150983cd24fb0d6963f7d28e17f72"%string.
Proof. vm_compute. reflexivity. Qed.

Example md5_digits :
  Md5.hexdigest
    "12345678901234567890123456789012345678901234567890123456789012345678901234567890"
  = "57edf4a22be3c955ac49da2e2107b67a"%string.
Proof. vm_compute. reflexivity. Qed.

End Md5Vectors.

Section Splitter.
Import FfmpegSplit.
Local Open Scope Q_scope.

Lemma Qlt_bool_iff a b : Qlt_bool a b = true <-> a < b.
Proof.
  unfold Qlt_bool. rewrite negb_true_iff.
  destruct (Qle_bool b a) eqn:E.
  - apply Qle_bool_iff in E. split; [discriminate | lra].
  - split; [intros _ | reflexivity].
    apply Qnot_le_lt. intros H. apply Qle_bool_iff in H. congruence.
Qed.

Lemma Qlt_bool_false a b : Qlt_bool a b = false <-> b <= a.
Proof.
  unfold Qlt_bool. rewrite negb_false_iff. apply Qle_bool_iff.
Qed.

Lemma Qle_bool_false a b : Qle_bool a b = false <-> b < a.
Proof.
  split; intros H.
  - apply Qnot_le_lt. intros H'. apply Qle_bool_iff in H'. congruence.
  - destruct (Qle_bool a b) eqn:E; [|reflexivity].
    apply Qle_bool_iff in E. lra.
Qed.

Lemma py_min_cases a b :
  (b < a /\ py_min a b = b) \/ (a <= b /\ py_min a b = a).
Proof.
  unfold py_min. destruct (Qlt_bool b a) eqn:E.
  - left. apply Qlt_bool_iff in E. auto.
  - right. apply Qlt_bool_false in E. auto.
Qed.

Lemma plan_loop_past_end D m n k :
  D <= inject_Z (Z.of_nat k * m) -> plan_loop D m (seq k n) = [].
Proof.
  intros H. destruct n as [|n]; [reflexivity|]. simpl.
  apply Qle_bool_iff in H. now rewrite H.
Qed.

Lemma plan_loop_length D m l : (length (plan_loop D m l) <= length l)%nat.
Proof.
  induction l as [|i l IH]; simpl; [lia|].
  destruct (Qle_bool D _); simpl; [lia|].
  destruct (Qlt_bool _ 3); simpl; lia.
Qed.

Lemma plan_loop_bounds D m l :
  Forall (fun p => 3 <= part_length p /\ part_length p <= inject_Z m)
         (plan_loop D m l).
Proof.
  induction l as [|i l IH]; simpl; [constructor|].
  destruct (Qle_bool D _) eqn:Hbrk; [constructor|].
  destruct (Qlt_bool _ 3) eqn:Hshort; [exact IH|].
  constructor; [|exact IH].
  unfold part_length; simpl.
  apply Qlt_bool_false in Hshort. split; [exact Hshort|].
  replace ((Z.of_nat i + 1) * m)%Z with (Z.of_nat i * m + m)%Z by ring.
  rewrite inject_Z_plus.
  destruct (py_min_cases (inject_Z (Z.of_nat i * m) + inject_Z m) D)
    as [[Hlt ->]|[Hle ->]]; lra.
Qed.

Lemma plan_loop_contiguous D m n k :
  3 <= inject_Z m ->
  contiguous (inject_Z (Z.of_nat k * m)) (plan_loop D m (seq k n)).
Proof.
  intros Hm. revert k. induction n as [|n IH]; intros k; simpl; [exact I|].
  destruct (Qle_bool D _) eqn:Hbrk; [exact I|].
  apply Qle_bool_false in Hbrk.
  assert (Hnext : inject_Z ((Z.of_nat k + 1) * m)
                  = inject_Z (Z.of_nat k * m) + inject_Z m).
  { rewrite <- inject_Z_plus. f_equal. ring. }
  assert (HS : (Z.of_nat (S k) * m = (Z.of_nat k + 1) * m)%Z)
    by (f_equal; lia).
  destruct (Qlt_bool _ 3) eqn:Hshort.
  - (* the tail is too short: nothing follows it *)
    apply Qlt_bool_iff in Hshort.
    rewrite plan_loop_past_end; [exact I|].
    rewrite HS, Hnext. rewrite Hnext in Hshort.
    destruct (py_min_cases (inject_Z (Z.of_nat k * m) + inject_Z m) D)
      as [[Hlt Heq]|[Hle Heq]]; rewrite Heq in Hshort; lra.
  - apply Qlt_bool_false in Hshort. simpl.
    split; [reflexivity|]. split; [lra|].
    destruct (py_min_cases (inject_Z ((Z.of_nat k + 1) * m)) D)
      as [[Hlt Heq]|[Hle Heq]]; rewrite Heq in *.
    + rewrite plan_loop_past_end; [exact I|]. rewrite HS. lra.
    + rewrite <- HS. apply IH.
Qed.

Lemma bfilter_sublist {A} (f : A -> bool) (l : list A) :
  List.filter f l `sublist_of` l.
Proof.
  induction l as [|x l IH]; simpl; [constructor|].
  destruct (f x); now constructor.
Qed.

Lemma bfilter_all {A} (f : A -> bool) (l : list A) :
  (forall x, f x = true) -> List.filter f l = l.
Proof.
  intros Hf. induction l as [|x l IH]; simpl; [reflexivity|].
  now rewrite Hf, IH.
Qed.

Lemma bfilter_Forall {A} (P : A -> Prop) (f : A -> bool) (l : list A) :
  Forall P l -> Forall P (List.filter f l).
Proof.
  induction 1 as [|x l Hx _ IH]; simpl; [constructor|].
  destruct (f x); [now constructor|exact IH].
Qed.

Lemma actual_num_parts_bound D hint m :
  (Z.of_nat (Z.to_nat (actual_num_parts D hint m))
   <= Z.max 1 (Z.min hint (max_possible_parts D m)))%Z.
Proof.
  unfold actual_num_parts. destruct (Qle_bool 3 D); lia.
Qed.

(** C4 (amended).  With [max_part_duration = 113]: every planned part
    is between 3 and 113 seconds long, and so is every emitted part;
    the planned parts start at 0 and are laid end to end (ordered, no
    gap, no overlap); the emitted parts are a subsequence of the plan,
    and all of it when every extraction succeeds; and the number of
    emitted parts is at most
    [max(1, min(part_count_hint, floor(D / 113)))]. *)
Theorem segmentation_bounds (D : Q) (hint : Z) (extract_ok : nat -> bool) :
  let plan := segment_plan D hint 113 in
  let emitted := ffmpeg_split_video D hint 113 extract_ok in
  Forall (fun p => 3 <= part_length p /\ part_length p <= 113) plan /\
  Forall (fun p => 3 <= part_length p /\ part_length p <= 113) emitted /\
  contiguous 0 plan /\
  emitted `sublist_of` plan /\
  ((forall i, extract_ok i = true) -> emitted = plan) /\
  (Z.of_nat (length emitted) <= Z.max 1 (Z.min hint (Qfloor (D / 113))))%Z.
Proof.
  intros plan emitted. subst plan emitted.
  unfold ffmpeg_split_video, segment_plan, py_range. simpl (113 =? 0)%Z.
  cbv iota.
  split; [apply (plan_loop_bounds D 113)|].
  split; [apply bfilter_Forall, (plan_loop_bounds D 113)|].
  split; [apply (plan_loop_contiguous D 113 _ 0); vm_compute; discriminate|].
  split; [apply bfilter_sublist|].
  split.
  - intros Hok. apply bfilter_all. intros p. apply Hok.
  - etransitivity; [|apply (actual_num_parts_bound D hint 113)].
    apply inj_le. etransitivity; [apply sublist_length, bfilter_sublist|].
    etransitivity; [apply plan_loop_length|]. now rewrite length_seq.
Qed.

Lemma segmentation_bounds_witness :
  let all_ok := fun _ : nat => true in
  ffmpeg_split_video 300 3 113 all_ok = segment_plan 300 3 113.
Proof.
  intros all_ok.
  apply (segmentation_bounds 300 3 all_ok). reflexivity.
Defined.

(** C4 as stated fails: a 50-second input with hint 3 yields one part,
    while [min(3, floor(50 / 113)) = 0]. *)
Lemma segmentation_count_counterexample :
  ~ segmentation_as_stated 50 3 (fun _ => true).
Proof.
  unfold segmentation_as_stated. intros (_ & _ & Hcount).
  vm_compute in Hcount. apply Hcount. reflexivity.
Qed.

(** C5 (amended).  For [D = 300], [max_part_duration = 113] and
    [part_count_hint = 3] only [floor(300 / 113) = 2] parts are
    planned: [0,113) and [113,226).  The 74-second tail is not
    emitted. *)
Theorem split_300_two_parts :
  ffmpeg_split_video 300 3 113 (fun _ => true)
  = [Part 0 0 113; Part 1 113 226].
Proof. vm_compute. reflexivity. Qed.

(** C5 as stated fails: the result is not the three-part list. *)
Lemma split_300_counterexample :
  ffmpeg_split_video 300 3 113 (fun _ => true)
  <> [Part 0 0 113; Part 1 113 226; Part 2 226 300].
Proof. vm_compute. discriminate. Qed.

End Splitter.

Section DurationPolicy.
Import VideoDurationUtils.
Local Open Scope Q_scope.

(** The extended stream is never shorter than the original. *)
Lemma extended_duration_ge_original D T :
  0 <= D -> D <= extended_duration D T.
Proof.
  intros HD. unfold extended_duration.
  destruct (Qlt_bool 0 (T - D)) eqn:E; [|lra].
  apply Qlt_bool_iff in E.
  destruct (py_min_cases (T - D) D) as [[_ ->]|[_ ->]]; lra.
Qed.

(** One loop clip of at most the original length is appended, so the
    target is reached exactly when the original is at least half of
    it. *)
Lemma extended_duration_reaches_target D T :
  D < T -> (T <= extended_duration D T <-> T <= 2 * D).
Proof.
  intros HD. unfold extended_duration.
  destruct (Qlt_bool 0 (T - D)) eqn:E.
  - destruct (py_min_cases (T - D) D) as [[H ->]|[H ->]]; split; lra.
  - apply Qlt_bool_false in E. lra.
Qed.

Lemma extended_duration_short D T :
  0 < D -> 2 * D < T -> extended_duration D T == 2 * D.
Proof.
  intros H0 HD. unfold extended_duration.
  destruct (Qlt_bool 0 (T - D)) eqn:E.
  - destruct (py_min_cases (T - D) D) as [[H ->]|[H ->]]; lra.
  - apply Qlt_bool_false in E. lra.
Qed.

(** A readable file of 3 to 60 seconds whose re-encoding succeeds is
    handed on with the duration of the original plus one loop clip. *)
Lemma process_short_video encode fs p sz D sz' :
  fs !! p = Some (File sz (Some D)) -> 3 <= D -> D < 60 ->
  encode (splitext_root p +:+ "_extended.mp4") = Encoded sz' ->
  processed_duration encode fs p = Some (extended_duration D 63).
Proof.
  intros Hfile Hmin Hmax Henc.
  unfold processed_duration, process_video_for_upload,
    check_video_duration_requirements, get_video_duration.
  rewrite Hfile. simpl.
  destruct (Qeq_bool D 0) eqn:Hz.
  { apply Qeq_bool_iff in Hz. lra. }
  assert (H3 : Qlt_bool D 3 = false) by now apply Qlt_bool_false.
  assert (H120 : Qlt_bool 120 D = false) by (apply Qlt_bool_false; lra).
  assert (H60 : Qlt_bool D 60 = true) by now apply Qlt_bool_iff.
  rewrite H3, H120. simpl. rewrite H60.
  unfold extend_video_to_minimum_duration. rewrite Hfile. simpl.
  assert (H63 : Qle_bool 63 D = false) by (apply Qle_bool_false; lra).
  rewrite H63, Henc. now rewrite lookup_insert_eq.
Qed.

(** C6 (the code at a failing input).  A readable 10-second download
    passes the duration check, is extended because it is shorter than
    60 s, and is reported as extended to 1.03 minutes; but the file
    handed on lasts 10 + min(53, 10) = 20 seconds, less than the 63 s
    target. *)
Theorem extension_of_10s_video_misses_target :
  let fs : filesystem := {[ "dl/v.mp4"%string := File 1000 (Some 10) ]} in
  let encode := fun _ : string => Encoded 2000 in
  fst (process_video_for_upload encode fs "dl/v.mp4")
    = (true, ExtendedTo63, Some "dl/v_extended.mp4"%string) /\
  processed_duration encode fs "dl/v.mp4" = Some 20 /\
  ~ (63 <= 20).
Proof.
  split; [vm_compute; reflexivity|].
  split; [vm_compute; reflexivity|].
  intros H. vm_compute in H. apply H. reflexivity.
Qed.

End DurationPolicy.

Section DownloadStage.
Import Download.
Variable E : env.

Lemma exists_true fs p : exists_ fs p = true <-> is_Some (fs !! p).
Proof. unfold exists_. apply bool_decide_eq_true. Qed.

Lemma exists_false fs p : exists_ fs p = false <-> fs !! p = None.
Proof.
  unfold exists_. rewrite bool_decide_eq_false, <- eq_None_not_Some. tauto.
Qed.

Lemma nonempty_file fs p :
  exists_ fs p = true -> (0 <? getsize fs p)%N = true ->
  exists f, fs !! p = Some f /\ (0 < file_size f)%N.
Proof.
  intros [f Hf]%exists_true Hsz. exists f. split; [exact Hf|].
  unfold getsize in Hsz. rewrite Hf in Hsz. now apply N.ltb_lt.
Qed.

Lemma remove_lookup fs p : remove fs p !! p = None.
Proof. apply lookup_delete_eq. Qed.

Lemma primary_post_step p e wait r fs' tr :
  (e = PrimaryAttempt max_attempts AttemptRaised -> False) ->
  (forall n, e = PrimaryAttempt n AttemptOk -> False) ->
  is_fallback e = false ->
  (wait = [] \/ exists s, wait = [Sleep s]) ->
  primary_post p (r, fs', tr) ->
  primary_post p (r, fs', e :: wait ++ tr).
Proof.
  intros Hmax Hok Hfb Hwait [Hnofb Hr]. split.
  - constructor; [exact Hfb|]. apply Forall_app. split; [|exact Hnofb].
    destruct Hwait as [->|[s ->]]; repeat constructor.
  - assert (Hin : forall x, (forall s, x <> Sleep s) ->
              x ∈ e :: wait ++ tr -> x = e \/ x ∈ tr).
    { intros x Hx [->|[Hw|Ht]%elem_of_app]%elem_of_cons; auto.
      destruct Hwait as [->|[s ->]].
      - now apply elem_of_nil in Hw.
      - apply list_elem_of_singleton in Hw. now apply Hx in Hw. }
    destruct r as [[q|]|].
    + destruct Hr as (Hq & Hf & (n & Hn) & Hnot). split; [exact Hq|].
      split; [exact Hf|]. split.
      * exists n. apply elem_of_cons. right. apply elem_of_app. now right.
      * intros [Heq|Ht]%Hin; [now apply Hmax|now apply Hnot|discriminate].
    + destruct Hr as (Hraised & Hgone & Hfail). split; [|split; [exact Hgone|]].
      * apply elem_of_cons. right. apply elem_of_app. now right.
      * intros n [Heq|Ht]%Hin;
          [now apply (Hok n)|now apply (Hfail n)|discriminate].
    + destruct Hr as (Hfail & Hnot). split.
      * intros n [Heq|Ht]%Hin;
          [now apply (Hok n)|now apply (Hfail n)|discriminate].
      * intros [Heq|Ht]%Hin; [now apply Hmax|now apply Hnot|discriminate].
Qed.

Lemma primary_attempts_post fuel attempt fs p :
  primary_post p (primary_attempts E fuel attempt fs p).
Proof.
  revert attempt fs. induction fuel as [|fuel IH]; intros attempt fs;
    cbn [primary_attempts].
  { split; [apply Forall_nil_2|].
    split; [intros n|]; apply not_elem_of_nil. }
  destruct (attempt <? max_attempts)%nat eqn:Hwhile; cbn [negb].
  2:{ split; [apply Forall_nil_2|].
      split; [intros n|]; apply not_elem_of_nil. }
  set (o := ytdlp E p (S attempt)).
  set (fs1 := apply_effect fs p (ytdlp_effect o)).
  assert (Hwait :
            (if (S attempt <? max_attempts)%nat
             then [Sleep (5 * S attempt)] else []) = []
            \/ exists s,
                (if (S attempt <? max_attempts)%nat
                 then [Sleep (5 * S attempt)] else []) = [Sleep s]).
  { destruct (S attempt <? max_attempts)%nat; eauto. }
  destruct (raised o).
  - destruct (S attempt <? max_attempts)%nat eqn:Hmore.
    + specialize (IH (S attempt) fs1).
      destruct (primary_attempts E fuel (S attempt) fs1 p) as [[r fs2] tr].
      apply primary_post_step; auto; try discriminate.
      intros [= Heq]. rewrite Heq in Hmore.
      now rewrite Nat.ltb_irrefl in Hmore.
    + assert (Hlast : S attempt = max_attempts).
      { apply Nat.ltb_lt in Hwhile. apply Nat.ltb_ge in Hmore. lia. }
      rewrite Hlast. split; [repeat constructor|].
      split; [apply list_elem_of_here|]. split.
      * destruct (exists_ fs1 p) eqn:Hex; [apply remove_lookup|].
        now apply exists_false.
      * intros n Hin. apply list_elem_of_singleton in Hin. discriminate.
  - destruct (exists_ fs1 p) eqn:Hex.
    + destruct (0 <? getsize fs1 p)%N eqn:Hsz.
      * split; [repeat constructor|]. split; [reflexivity|].
        split; [now apply nonempty_file|]. split.
        -- exists (S attempt). apply list_elem_of_here.
        -- intros Hin. apply list_elem_of_singleton in Hin. discriminate.
      * specialize (IH (S attempt) (remove fs1 p)).
        destruct (primary_attempts E fuel (S attempt) (remove fs1 p) p)
          as [[r fs2] tr].
        apply primary_post_step; auto; discriminate.
    + specialize (IH (S attempt) fs1).
      destruct (primary_attempts E fuel (S attempt) fs1 p) as [[r fs2] tr].
      apply primary_post_step; auto; discriminate.
Qed.

Lemma fallback_attempts_app tr tr' :
  fallback_attempts (tr ++ tr') = (fallback_attempts tr + fallback_attempts tr')%nat.
Proof. unfold fallback_attempts. now rewrite List.filter_app, length_app. Qed.

Lemma no_fallback_count tr :
  Forall (fun e => is_fallback e = false) tr -> fallback_attempts tr = 0%nat.
Proof.
  unfold fallback_attempts. induction 1 as [|e tr He _ IH]; simpl; [reflexivity|].
  now rewrite He.
Qed.

Lemma no_fallback_elem tr res :
  Forall (fun e => is_fallback e = false) tr -> FallbackAttempt res ∉ tr.
Proof.
  intros Hall Hin. rewrite Forall_forall in Hall.
  specialize (Hall _ Hin). discriminate.
Qed.

Lemma fallback_post fs p :
  let '(r, fs', tr) := download_video_pytube_fallback E fs p in
  exists res, tr = [FallbackAttempt res] /\
    (res <> FallbackOk -> r = None) /\
    (forall q, r = Some q ->
       q = p /\ exists f, fs' !! p = Some f /\ (0 < file_size f)%N).
Proof.
  unfold download_video_pytube_fallback.
  destruct (pytube E p) as [e| |e].
  - eexists. split; [reflexivity|]. split; [reflexivity|discriminate].
  - eexists. split; [reflexivity|]. split; [reflexivity|discriminate].
  - destruct (exists_ _ p) eqn:Hex; simpl.
    + destruct (0 <? getsize _ p)%N eqn:Hsz.
      * eexists. split; [reflexivity|]. split; [congruence|].
        intros q [= <-]. split; [reflexivity|]. now apply nonempty_file.
      * eexists. split; [reflexivity|]. split; [reflexivity|discriminate].
    + eexists. split; [reflexivity|]. split; [reflexivity|discriminate].
Qed.

(** X27.  The download stage as the code has it.  The fallback
    downloader is attempted at most once.  It is attempted exactly
    once when no primary attempt produced a non-empty file and the
    last primary attempt did not raise.  When the last primary attempt
    raised, the stage removes what is at the output path and reports
    failure without calling the fallback.  When the fallback was
    attempted and failed, the stage reports failure.  A reported
    success names the output path, which then holds a non-empty
    file. *)
Theorem download_stage (fs : filesystem) (p : string) :
  let '(r, fs', tr) := download_video E fs p in
  (fallback_attempts tr <= 1)%nat /\
  (primary_all_failed tr ->
   PrimaryAttempt max_attempts AttemptRaised ∉ tr ->
   fallback_attempts tr = 1%nat) /\
  (PrimaryAttempt max_attempts AttemptRaised ∈ tr ->
   r = None /\ fallback_attempts tr = 0%nat /\ fs' !! p = None) /\
  (fallback_failed tr -> r = None) /\
  (forall q, r = Some q ->
     q = p /\ exists f, fs' !! q = Some f /\ (0 < file_size f)%N).
Proof.
  unfold download_video.
  pose proof (primary_attempts_post max_attempts 0 fs p) as Hpost.
  destruct (primary_attempts E max_attempts 0 fs p) as [[r0 fs1] tr].
  destruct Hpost as [Hnofb Hr0].
  destruct r0 as [[q|]|].
  - destruct Hr0 as (-> & Hfile & (n & Hn) & Hnot).
    rewrite (no_fallback_count _ Hnofb).
    split; [lia|]. split; [intros Hfail; now destruct (Hfail n)|].
    split; [intros Hin|split].
    + now destruct Hnot.
    + intros (res & Hin & _). now destruct (no_fallback_elem _ res Hnofb).
    + intros q [= <-]. now split.
  - destruct Hr0 as (Hraised & Hgone & Hfail).
    rewrite (no_fallback_count _ Hnofb).
    split; [lia|]. split; [intros _ Hnot; now destruct Hnot|].
    split; [now intros _|]. split; [reflexivity|discriminate].
  - destruct Hr0 as (Hfail & Hnot).
    pose proof (fallback_post fs1 p) as Hfb.
    destruct (download_video_pytube_fallback E fs1 p) as [[r fs2] tr'].
    destruct Hfb as (res & -> & Hres & Hsome).
    rewrite fallback_attempts_app, (no_fallback_count _ Hnofb).
    change (fallback_attempts [FallbackAttempt res]) with 1%nat.
    split; [lia|]. split; [reflexivity|].
    split; [|split].
    + intros [Hin|Hin]%elem_of_app; [now destruct Hnot|].
      apply list_elem_of_singleton in Hin. discriminate.
    + intros (res' & [Hin|Hin]%elem_of_app & Hne).
      * now destruct (no_fallback_elem _ res' Hnofb).
      * apply list_elem_of_singleton in Hin. injection Hin as ->. auto.
    + intros q Hq. destruct (Hsome q Hq) as [-> Hf]. now split.
Qed.

End DownloadStage.

Section DownloadExamples.
Import Download Examples.

Lemma download_stage_witness :
  fallback_attempts (download_video never_stream ∅ "dl/v.mp4").2 = 1%nat.
Proof.
  pose proof (download_stage never_stream ∅ "dl/v.mp4") as H.
  destruct (download_video never_stream ∅ "dl/v.mp4") as [[r fs'] tr] eqn:Hrun.
  vm_compute in Hrun. injection Hrun as <- <- <-.
  destruct H as (_ & H & _). apply H.
  - intros n. not_in_trace.
  - not_in_trace.
Defined.

(** C7 (the code at two failing inputs).  When both primary attempts
    raise, every primary attempt has failed, yet the stage returns
    from the handler of the last attempt and the fallback is never
    called; a last attempt that fails without raising does reach it.
    When the fallback is reached and leaves an empty file, the stage
    reports failure with that file still at the output path.  On both
    inputs the property as worded fails. *)
Theorem download_stage_misses_fallback :
  download_video always_raising ∅ "dl/v.mp4"
  = (None, ∅,
     [PrimaryAttempt 1 AttemptRaised; Sleep 5;
      PrimaryAttempt 2 AttemptRaised]) /\
  primary_all_failed (download_video always_raising ∅ "dl/v.mp4").2 /\
  fallback_attempts (download_video always_raising ∅ "dl/v.mp4").2 = 0%nat /\
  ~ download_stage_as_stated always_raising ∅ "dl/v.mp4" /\
  fallback_attempts (download_video never_stream ∅ "dl/v.mp4").2 = 1%nat /\
  download_video empty_fallback_file ∅ "dl/v.mp4"
  = (None, {[ "dl/v.mp4"%string := File 0 None ]},
     [PrimaryAttempt 1 AttemptNoFile; Sleep 5;
      PrimaryAttempt 2 AttemptNoFile; FallbackAttempt FallbackNoFile]) /\
  fallback_failed (download_video empty_fallback_file ∅ "dl/v.mp4").2 /\
  ~ download_stage_as_stated empty_fallback_file ∅ "dl/v.mp4".
Proof.
  assert (Hraise : download_video always_raising ∅ "dl/v.mp4"
                   = (None, ∅,
                      [PrimaryAttempt 1 AttemptRaised; Sleep 5;
                       PrimaryAttempt 2 AttemptRaised]))
    by (vm_compute; reflexivity).
  assert (Hempty : download_video empty_fallback_file ∅ "dl/v.mp4"
                   = (None, {[ "dl/v.mp4"%string := File 0 None ]},
                      [PrimaryAttempt 1 AttemptNoFile; Sleep 5;
                       PrimaryAttempt 2 AttemptNoFile;
                       FallbackAttempt FallbackNoFile]))
    by (vm_compute; reflexivity).
  assert (Hfailed : primary_all_failed
                      (download_video always_raising ∅ "dl/v.mp4").2).
  { rewrite Hraise. intros n. cbn [snd]. not_in_trace. }
  assert (Hfb : fallback_failed
                  (download_video empty_fallback_file ∅ "dl/v.mp4").2).
  { rewrite Hempty. exists FallbackNoFile. cbn [snd].
    split; [|discriminate]. do 3 right. left. }
  split; [exact Hraise|]. split; [exact Hfailed|].
  split; [now rewrite Hraise|]. split.
  { unfold download_stage_as_stated. rewrite Hraise in Hfailed |- *.
    intros (H & _). specialize (H Hfailed). discriminate. }
  split; [vm_compute; reflexivity|]. split; [exact Hempty|].
  split; [exact Hfb|].
  unfold download_stage_as_stated. rewrite Hempty in Hfb |- *.
  intros (_ & H & _). destruct (H Hfb) as [_ Hgone].
  rewrite lookup_singleton_eq in Hgone. discriminate.
Qed.

End DownloadExamples.

Section UploadWorker.
Import Upload.

(** C8.  A worker never uploads a missing or empty part file and
    leaves the disk as it found it.  For an existing non-empty part
    it makes exactly one upload attempt; it removes the part file
    exactly when that attempt succeeded, and leaves the disk
    unchanged when it failed. *)
Theorem upload_worker_outcome (E : env) (fs : filesystem)
    (path account : string) :
  let '(fs', tr) := upload_part_worker E fs path account in
  ((fs !! path = None \/ exists f, fs !! path = Some f /\ file_size f = 0%N) ->
     upload_attempts tr = 0%nat /\ fs' = fs) /\
  (forall f, fs !! path = Some f -> (0 < file_size f)%N ->
     upload_attempts tr = 1%nat /\
     UploadAttempt account path (upload_video E account path) ∈ tr /\
     (upload_video E account path = true -> fs' !! path = None) /\
     (upload_video E account path = false -> fs' = fs)) /\
  (RemoveFile path ∈ tr <-> UploadAttempt account path true ∈ tr) /\
  (fs' = fs \/ fs' = delete path fs /\ UploadAttempt account path true ∈ tr).
Proof.
  unfold upload_part_worker.
  destruct (exists_ fs path) eqn:Hex; simpl.
  - apply exists_true in Hex as [f Hf].
    unfold getsize. rewrite Hf.
    destruct (file_size f =? 0)%N eqn:Hsz.
    + apply N.eqb_eq in Hsz.
      split; [auto|]. split.
      { intros f' [= <-] Hpos. lia. }
      split; [|now left].
      split; intros Hin; now apply elem_of_nil in Hin.
    + apply N.eqb_neq in Hsz.
      destruct (upload_video E account path) eqn:Hup.
      * split.
        { intros [Hno|(f' & Hf' & Hz)]; congruence. }
        split.
        { intros f' _ _. split; [reflexivity|].
          split; [apply list_elem_of_here|].
          split; [intros _; apply remove_lookup|discriminate]. }
        split.
        { split; intros _; [apply list_elem_of_here|].
          apply list_elem_of_further, list_elem_of_here. }
        right. split; [reflexivity|apply list_elem_of_here].
      * split.
        { intros [Hno|(f' & Hf' & Hz)]; congruence. }
        split.
        { intros f' _ _. split; [reflexivity|].
          split; [apply list_elem_of_here|].
          split; [discriminate|reflexivity]. }
        split; [|now left].
        split; intros Hin; apply list_elem_of_singleton in Hin; discriminate.
  - apply exists_false in Hex.
    split; [auto|]. split.
    { intros f Hf. congruence. }
    split; [|now left].
    split; intros Hin; now apply elem_of_nil in Hin.
Qed.

Lemma upload_worker_outcome_witness :
  let fs : filesystem := {[ "dl/v_part_1.mp4"%string := File 4096 (Some 63%Q) ]} in
  let '(fs', tr) :=
    upload_part_worker Examples.all_succeed fs "dl/v_part_1.mp4" "default" in
  upload_attempts tr = 1%nat /\ fs' !! "dl/v_part_1.mp4"%string = None.
Proof.
  intros fs.
  pose proof (upload_worker_outcome Examples.all_succeed fs "dl/v_part_1.mp4"
                "default") as H.
  destruct (upload_part_worker Examples.all_succeed fs "dl/v_part_1.mp4" "default")
    as [fs' tr].
  destruct H as (_ & H & _).
  destruct (H (File 4096 (Some 63%Q))) as (Hone & _ & Hdel & _).
  - reflexivity.
  - reflexivity.
  - split; [exact Hone|]. apply Hdel. reflexivity.
Defined.

End UploadWorker.

Section Routing.
Import YouTubeMonitor YouTubeMonitorPubSub Upload.

Lemma primary_attempts_no_upload E fuel attempt fs p :
  Forall (fun e => is_upload e = false)
    (Download.primary_attempts_trace E fuel attempt fs p).
Proof.
  unfold Download.primary_attempts_trace.
  revert attempt fs. induction fuel as [|fuel IH]; intros attempt fs;
    cbn [Download.primary_attempts]; [constructor|].
  destruct (attempt <? Download.max_attempts)%nat; cbn [negb]; [|constructor].
  assert (Hwait : Forall (fun e => is_upload e = false)
            (if (S attempt <? Download.max_attempts)%nat
             then [Sleep (5 * S attempt)] else [])).
  { destruct (S attempt <? Download.max_attempts)%nat; repeat constructor. }
  destruct (raised _).
  - destruct (S attempt <? Download.max_attempts)%nat.
    + specialize (IH (S attempt) (apply_effect fs p (ytdlp_effect (ytdlp E p (S attempt))))).
      destruct (Download.primary_attempts E fuel (S attempt) _ p) as [[r fs2] tr].
      constructor; [reflexivity|]. apply Forall_app. now split.
    + repeat constructor.
  - destruct (exists_ _ p).
    + destruct (0 <? getsize _ p)%N; [repeat constructor|].
      specialize (IH (S attempt)
        (remove (apply_effect fs p (ytdlp_effect (ytdlp E p (S attempt)))) p)).
      destruct (Download.primary_attempts E fuel (S attempt) _ p) as [[r fs2] tr].
      constructor; [reflexivity|]. apply Forall_app. now split.
    + specialize (IH (S attempt) (apply_effect fs p (ytdlp_effect (ytdlp E p (S attempt))))).
      destruct (Download.primary_attempts E fuel (S attempt) _ p) as [[r fs2] tr].
      constructor; [reflexivity|]. apply Forall_app. now split.
Qed.

Lemma no_upload_account c tr :
  Forall (fun e => is_upload e = false) tr -> Forall (upload_account_is c) tr.
Proof.
  intros H. eapply Forall_impl; [exact H|].
  intros [] He; simpl in *; try exact I. discriminate.
Qed.

Lemma download_video_account c E fs p :
  Forall (upload_account_is c) (Download.download_video E fs p).2.
Proof.
  unfold Download.download_video.
  pose proof (primary_attempts_no_upload E Download.max_attempts 0 fs p) as H.
  unfold Download.primary_attempts_trace in H.
  destruct (Download.primary_attempts E Download.max_attempts 0 fs p)
    as [[[r|] fs1] tr]; simpl in *.
  - now apply no_upload_account.
  - unfold Download.download_video_pytube_fallback.
    destruct (pytube E p); simpl;
      try (destruct (exists_ _ p && _)%bool; simpl);
      (apply Forall_app; split; [now apply no_upload_account|repeat constructor]).
Qed.

Lemma upload_part_worker_account c E fs part :
  Forall (upload_account_is c) (upload_part_worker E fs part c).2.
Proof.
  unfold upload_part_worker.
  destruct (exists_ fs part); simpl; [|constructor].
  destruct (getsize fs part =? 0)%N; [constructor|].
  destruct (upload_video E c part); repeat constructor.
Qed.

Lemma run_upload_workers_account c E fs parts :
  Forall (upload_account_is c) (run_upload_workers E fs parts c).2.
Proof.
  revert fs. induction parts as [|part rest IH]; intros fs; simpl; [constructor|].
  pose proof (upload_part_worker_account c E fs part) as Hw.
  destruct (upload_part_worker E fs part c) as [fs1 tr1].
  specialize (IH fs1). destruct (run_upload_workers E fs1 rest c) as [fs2 tr2].
  apply Forall_app. now split.
Qed.

Lemma split_video_account c E cfg fs p n :
  Forall (upload_account_is c) (split_video E cfg fs p n c).2.
Proof.
  unfold split_video.
  destruct (exists_ fs p); simpl; [|constructor].
  destruct (VideoDurationUtils.process_video_for_upload (encode E) fs p)
    as [[[[|] msg] [q|]] fs1]; simpl; try constructor.
  destruct (ffmpeg_split_video_files E fs1 q n _) as [[|part parts] fs2];
    simpl; [constructor|].
  destruct (default true (auto_upload cfg)); [|constructor].
  pose proof (run_upload_workers_account c E fs2 (part :: parts)) as H.
  simpl in H |- *.
  destruct (upload_part_worker E fs2 part c) as [fs3 tr1].
  destruct (run_upload_workers E fs3 parts c) as [fs4 tr2]. exact H.
Qed.

Lemma process_video_async_body_account E ps fs v :
  Forall (upload_account_is (job_tiktok_cookie (ps_config ps) v))
    (process_video_async_body E ps fs v).2.
Proof.
  unfold process_video_async_body.
  destruct (truthy (video_url v)); simpl; [|constructor].
  destruct (job_output_path ps v) as [out|]; [|constructor].
  set (c := job_tiktok_cookie (ps_config ps) v).
  pose proof (download_video_account c E fs out) as Hd.
  destruct (Download.download_video E fs _) as [[[q|] fs1] tr1];
    simpl in *; [|exact Hd].
  destruct (job_proxy_config (ps_config ps) v) as [proxy_config|];
    [|exact Hd].
  pose proof (split_video_account c E (yt_config ps) fs1 q 5) as Hs.
  destruct (split_video E (yt_config ps) fs1 q 5 c) as [[[|part parts] fs2] tr2];
    simpl in *; repeat (apply Forall_app; split); auto; repeat constructor.
Qed.

(** C10.  With no channel configured (an empty list, or no list at
    all), routing returns no channel for every event, the job's
    account is the literal ["default"], and every upload the job then
    makes goes to that account. *)
Theorem no_channels_default_account (E : env) (ps : pubsub)
    (fs : filesystem) (v : video) :
  default [] (channels (ps_config ps)) = [] ->
  find_channel_for_video (ps_config ps) v = None /\
  job_tiktok_cookie (ps_config ps) v = "default"%string /\
  job_channel_name (ps_config ps) v = "Unknown"%string /\
  Forall (upload_account_is "default")
    (process_video_async_body E ps fs v).2.
Proof.
  intros Hnone.
  assert (Hfind : find_channel_for_video (ps_config ps) v = None).
  { unfold find_channel_for_video, first_channel. rewrite Hnone.
    now destruct (truthy (video_channel_id v)). }
  assert (Hcookie : job_tiktok_cookie (ps_config ps) v = "default"%string).
  { unfold job_tiktok_cookie. now rewrite Hfind. }
  split; [exact Hfind|]. split; [exact Hcookie|]. split.
  - unfold job_channel_name. now rewrite Hfind.
  - rewrite <- Hcookie at 1. apply process_video_async_body_account.
Qed.

Lemma no_channels_default_account_witness :
  let ps := new_pubsub Examples.no_channels Examples.no_channels in
  find_channel_for_video (ps_config ps) Examples.video_a = None /\
  job_tiktok_cookie (ps_config ps) Examples.video_a = "default"%string /\
  (process_video_async_body Examples.all_succeed ps ∅ Examples.video_a).2
  = [PrimaryAttempt 1 AttemptOk;
     UploadAttempt "default" "dl/new_video_vidA_part_1.mp4" true;
     RemoveFile "dl/new_video_vidA_part_1.mp4";
     RemoveFile "dl/new_video_vidA.mp4"].
Proof.
  intros ps.
  destruct (no_channels_default_account Examples.all_succeed ps ∅
              Examples.video_a) as (Hfind & Hcookie & _).
  - reflexivity.
  - split; [exact Hfind|]. split; [exact Hcookie|].
    vm_compute. reflexivity.
Defined.

(** With at least one channel configured, an event without a channel
    id, or with one that matches no channel, is routed to the first
    channel (provided it has a name to log). *)
Lemma unmatched_video_routes_to_first_channel cfg v c cs :
  channels cfg = Some (c :: cs) -> is_Some (channel_name c) ->
  (truthy (video_channel_id v) = false \/
   match_channel (c :: cs) (default "" (video_channel_id v)) = None) ->
  find_channel_for_video cfg v = Some c.
Proof.
  intros Hcs [n Hn] Hno.
  unfold find_channel_for_video, first_channel. rewrite Hcs.
  cbn [default from_option id]. rewrite Hn.
  destruct (truthy (video_channel_id v)); cbn [negb]; [|reflexivity].
  destruct Hno as [Hno|Hno]; [discriminate|]. now rewrite Hno.
Qed.

End Routing.

Section ChannelListCache.
Import YouTubeMonitor.

Lemma od_set_length_le d k v : (length (od_set d k v) <= S (length d))%nat.
Proof.
  induction d as [|[k' v'] d IH]; simpl; [lia|].
  destruct (String.eqb k' k); simpl; lia.
Qed.

Lemma od_set_fresh d k v :
  k ∉ od_keys d -> od_set d k v = d ++ [(k, v)].
Proof.
  induction d as [|[k' v'] d IH]; simpl; intros Hk; [reflexivity|].
  apply not_elem_of_cons in Hk as [Hne Hk].
  destruct (String.eqb_spec k' k) as [->|_]; [congruence|].
  now rewrite IH.
Qed.

Lemma od_get_None d k : k ∉ od_keys d -> od_get d k = None.
Proof.
  induction d as [|[k' v'] d IH]; simpl; intros Hk; [reflexivity|].
  apply not_elem_of_cons in Hk as [Hne Hk].
  destruct (String.eqb_spec k' k) as [->|_]; [congruence|]. now apply IH.
Qed.

Lemma tail_as_drop {A} (l : list A) : tail l = drop 1 l.
Proof. now destruct l. Qed.

Lemma elem_of_drop_suffix {A} (x : A) n l : x ∈ drop n l -> x ∈ l.
Proof.
  intros H. rewrite <- (take_drop n l). apply elem_of_app. now right.
Qed.

Lemma cache_key_inj a b : cache_key a = cache_key b -> a = b.
Proof. unfold cache_key. intros H. now apply (inj (String.append _)) in H. Qed.

Lemma scrapetube_cache_put m id vs now :
  scrapetube_cache (cache_scrapetube_data m id vs now)
  = let d1 := od_set (scrapetube_cache m) (cache_key id) (CacheEntry vs now) in
    if (max_cache_size m <? length d1)%nat then od_popitem_first d1 else d1.
Proof.
  unfold cache_scrapetube_data. cbv zeta.
  now destruct (_ mod 10 =? 0)%nat.
Qed.

Lemma max_cache_size_put m id vs now :
  max_cache_size (cache_scrapetube_data m id vs now) = max_cache_size m.
Proof.
  unfold cache_scrapetube_data. cbv zeta.
  now destruct (_ mod 10 =? 0)%nat.
Qed.

(** A put never leaves more than [max_cache_size] entries in a cache
    that respected the bound. *)
Lemma cache_put_bounded m id vs now :
  (length (scrapetube_cache m) <= max_cache_size m)%nat ->
  (length (scrapetube_cache (cache_scrapetube_data m id vs now))
   <= max_cache_size m)%nat.
Proof.
  intros Hle. rewrite scrapetube_cache_put. cbv zeta.
  pose proof (od_set_length_le (scrapetube_cache m) (cache_key id)
                (CacheEntry vs now)) as Hset.
  destruct (max_cache_size m <? _)%nat eqn:Hfull.
  - unfold od_popitem_first.
    destruct (od_set _ _ _) as [|x d]; simpl in *; lia.
  - apply Nat.ltb_ge in Hfull. lia.
Qed.

Section Puts.
Variables (videos_of : string -> list video) (time_of : string -> Q).

Lemma cache_all_snoc m ids id :
  cache_all m (ids ++ [id]) videos_of time_of
  = cache_scrapetube_data (cache_all m ids videos_of time_of) id
      (videos_of id) (time_of id).
Proof. unfold cache_all. now rewrite foldl_app. Qed.

Lemma cache_all_max_cache_size m ids :
  max_cache_size (cache_all m ids videos_of time_of) = max_cache_size m.
Proof.
  induction ids as [|id ids IH] using rev_ind; [reflexivity|].
  now rewrite cache_all_snoc, max_cache_size_put.
Qed.

Lemma cache_all_bounded m ids :
  (length (scrapetube_cache m) <= max_cache_size m)%nat ->
  (length (scrapetube_cache (cache_all m ids videos_of time_of))
   <= max_cache_size m)%nat.
Proof.
  intros Hm. induction ids as [|id ids IH] using rev_ind; [exact Hm|].
  rewrite cache_all_snoc.
  rewrite <- (cache_all_max_cache_size m ids) in IH |- *.
  now apply cache_put_bounded.
Qed.

(** After caching distinct channels into an empty cache, the keys
    are those of the last [max_cache_size] channels, oldest first. *)
Lemma cache_all_keys m ids :
  scrapetube_cache m = [] -> NoDup ids ->
  od_keys (scrapetube_cache (cache_all m ids videos_of time_of))
  = cache_key <$> drop (length ids - max_cache_size m) ids.
Proof.
  intros Hempty. induction ids as [|id ids IH] using rev_ind; intros Hnd.
  { simpl. now rewrite Hempty. }
  apply NoDup_app in Hnd as (Hnd & Hfresh & _). specialize (IH Hnd).
  assert (Hid : id ∉ ids).
  { intros Hin. apply (Hfresh _ Hin), list_elem_of_here. }
  rewrite cache_all_snoc, scrapetube_cache_put, cache_all_max_cache_size.
  set (d := scrapetube_cache (cache_all m ids videos_of time_of)) in *.
  set (cap := max_cache_size m). fold cap in IH.
  set (n := length ids). fold n in IH.
  assert (Hkey : cache_key id ∉ od_keys d).
  { rewrite IH. intros (y & Hy & Hin)%list_elem_of_fmap.
    apply cache_key_inj in Hy as <-.
    apply Hid. eapply elem_of_drop_suffix. exact Hin. }
  cbv zeta. rewrite (od_set_fresh d _ _ Hkey).
  assert (Hlen : length d = (n - (n - cap))%nat).
  { transitivity (length (od_keys d)).
    - unfold od_keys. now rewrite length_fmap.
    - rewrite IH, length_fmap, length_drop. reflexivity. }
  rewrite !length_app, Hlen. simpl length.
  replace (length ids + 1)%nat with (S n) by (subst n; lia).
  destruct (cap <? n - (n - cap) + 1)%nat eqn:Hfull.
  - apply Nat.ltb_lt in Hfull.
    unfold od_popitem_first, od_keys in *.
    rewrite tail_as_drop.
    rewrite fmap_drop, fmap_app, IH. simpl.
    rewrite <- (fmap_app cache_key _ [id]).
    rewrite <- drop_app_le by (subst n; lia).
    rewrite <- fmap_drop, drop_drop. f_equal. f_equal. lia.
  - apply Nat.ltb_ge in Hfull.
    unfold od_keys in *.
    rewrite fmap_app, IH. simpl.
    replace (n - cap)%nat with 0%nat by lia.
    replace (S n - cap)%nat with 0%nat by lia.
    rewrite !drop_0. now rewrite fmap_app.
Qed.

End Puts.

(** C9.  A fresh monitor has capacity 50.  After the results of
    [50 + k] distinct channels have been cached, the cache holds
    exactly 50 entries, those of the last 50 channels in insertion
    order; the first [k] channels have been evicted.  After any
    sequence of puts, distinct or not, the cache holds at most 50
    entries. *)
Theorem lru_bound (cfg : config) (ids : list string) (k : nat)
    (videos_of : string -> list video) (time_of : string -> Q) :
  NoDup ids -> length ids = (50 + k)%nat ->
  let m' := cache_all (new_monitor cfg) ids videos_of time_of in
  length (scrapetube_cache m') = 50%nat /\
  od_keys (scrapetube_cache m') = cache_key <$> drop k ids /\
  (forall id, id ∈ take k ids ->
     od_get (scrapetube_cache m') (cache_key id) = None) /\
  (forall puts : list string,
     (length (scrapetube_cache
                (cache_all (new_monitor cfg) puts videos_of time_of))
      <= 50)%nat).
Proof.
  intros Hnd Hlen m'.
  assert (Hkeys : od_keys (scrapetube_cache m') = cache_key <$> drop k ids).
  { subst m'. rewrite cache_all_keys by (reflexivity || exact Hnd).
    simpl max_cache_size. rewrite Hlen. do 2 f_equal. lia. }
  split; [|split; [exact Hkeys|split]].
  - transitivity (length (od_keys (scrapetube_cache m'))).
    + unfold od_keys. now rewrite length_fmap.
    + rewrite Hkeys, length_fmap, length_drop. lia.
  - intros id Hin. apply od_get_None. rewrite Hkeys.
    intros (y & Hy & Hdrop)%list_elem_of_fmap.
    apply cache_key_inj in Hy as <-.
    rewrite <- (take_drop k ids) in Hnd.
    apply NoDup_app in Hnd as (_ & Hdisj & _). exact (Hdisj _ Hin Hdrop).
  - intros puts.
    apply (cache_all_bounded videos_of time_of (new_monitor cfg) puts).
    simpl. lia.
Qed.

Lemma lru_bound_witness :
  let ids := pretty <$> seq 0 52 in
  let m' := cache_all (new_monitor (Config None None None None None)) ids
              (fun _ => []) (fun _ => 0%Q) in
  length (scrapetube_cache m') = 50%nat /\
  od_keys (scrapetube_cache m') = cache_key <$> drop 2 ids.
Proof.
  intros ids m'.
  destruct (lru_bound (Config None None None None None) ids 2
              (fun _ => []) (fun _ => 0%Q)) as (Hlen & Hkeys & _).
  - apply (bool_decide_eq_true_1 (NoDup ids)). vm_compute. reflexivity.
  - reflexivity.
  - split; [exact Hlen|exact Hkeys].
Defined.

End ChannelListCache.

Section InFlight.
Import YouTubeMonitorPubSub.

Lemma callback_admit_flag ps v ps1 :
  callback_admit ps v = Some ps1 ->
  processing_video ps1 = processing_video ps.
Proof.
  unfold callback_admit. destruct (bool_decide _); [discriminate|].
  now intros [= <-].
Qed.

Lemma step_gate_invariant E s a :
  gate_invariant s -> gate_invariant (step E s a).
Proof.
  unfold gate_invariant. intros Hinv. destruct a as [v|]; simpl.
  - destruct (callback_admit (state s) v) as [ps1|] eqn:Hadmit; [|exact Hinv].
    apply callback_admit_flag in Hadmit.
    destruct (default true (auto_upload (ps_config ps1))); simpl;
      [|now rewrite Hadmit].
    unfold process_video_async_enter.
    destruct (processing_video ps1) eqn:Hflag; simpl.
    + rewrite Hflag. now rewrite <- Hadmit in Hinv.
    + rewrite <- Hadmit in Hinv. now rewrite Hinv.
  - destruct (running s) as [|v rest] eqn:Hrun; [now rewrite Hrun|].
    destruct (process_video_async_body E (state s) (disk s) v)
      as [[ps1 fs1] tr]; simpl.
    destruct (processing_video (state s)); simpl in Hinv; [|discriminate].
    now destruct rest.
Qed.

Lemma run_gate_invariant E actions s :
  gate_invariant s -> gate_invariant (run E s actions).
Proof.
  unfold run. revert s. induction actions as [|a actions IH]; intros s Hs;
    simpl; [exact Hs|].
  apply IH. now apply step_gate_invariant.
Qed.

Lemma gate_invariant_bound s : gate_invariant s -> (jobs_in_flight s <= 1)%nat.
Proof.
  unfold gate_invariant, jobs_in_flight. intros ->.
  destruct (processing_video (state s)); lia.
Qed.

(** An event arriving while a job is running starts no job. *)
Lemma arrive_while_running_dropped E s v :
  gate_invariant s -> jobs_in_flight s = 1%nat ->
  running (step E s (Arrive v)) = running s.
Proof.
  unfold gate_invariant, jobs_in_flight. intros Hinv Hone. simpl.
  destruct (callback_admit (state s) v) as [ps1|] eqn:Hadmit; [|reflexivity].
  apply callback_admit_flag in Hadmit.
  destruct (default true (auto_upload (ps_config ps1))); [|reflexivity].
  unfold process_video_async_enter. rewrite Hadmit.
  destruct (processing_video (state s)); [reflexivity|]. lia.
Qed.

End InFlight.

Section PollingThreads.
Import YouTubeMonitor.

Lemma thread_step_length E now s i :
  length (threads (thread_step E now s i)) = length (threads s).
Proof.
  unfold thread_step. destruct (threads s !! i) as [[c|j|]|]; try reflexivity.
  - destruct (check_begin E (mon s) c now) as [oj m1]. simpl.
    apply length_insert.
  - destruct (check_job E (mon s) (disk s) j) as [[[r m1] fs1] tr]. simpl.
    apply length_insert.
Qed.

Lemma run_schedule_length E now schedule s :
  length (threads (run_schedule E now s schedule)) = length (threads s).
Proof.
  unfold run_schedule. revert s.
  induction schedule as [|i schedule IH]; intros s; simpl; [reflexivity|].
  now rewrite IH, thread_step_length.
Qed.

Lemma jobs_in_flight_le_threads s :
  (jobs_in_flight s <= length (threads s))%nat.
Proof. unfold jobs_in_flight. apply List.filter_length_le. Qed.

End PollingThreads.

(** C1 (amended).  On the push path, from a state whose in-flight flag
    is clear and under every sequence of arriving notifications and job
    completions, at most one job is in flight, and a notification that
    arrives while a job is in flight starts no job.  On the polling
    path [monitor_all_channels] runs one thread per channel with no
    gate between them: the number of jobs in flight is bounded by the
    number of configured channels. *)
Theorem single_in_flight (E : env) (now : Q)
    (ps : YouTubeMonitorPubSub.pubsub) (m : YouTubeMonitor.monitor)
    (fs : filesystem) (actions : list YouTubeMonitorPubSub.action)
    (schedule : list nat) :
  YouTubeMonitorPubSub.processing_video ps = false ->
  let s := YouTubeMonitorPubSub.run E (YouTubeMonitorPubSub.start ps fs) actions in
  (YouTubeMonitorPubSub.jobs_in_flight s <= 1)%nat /\
  (forall v, YouTubeMonitorPubSub.jobs_in_flight s = 1%nat ->
     YouTubeMonitorPubSub.running
       (YouTubeMonitorPubSub.step E s (YouTubeMonitorPubSub.Arrive v))
     = YouTubeMonitorPubSub.running s) /\
  (YouTubeMonitor.jobs_in_flight
     (YouTubeMonitor.run_schedule E now (YouTubeMonitor.start_threads m fs) schedule)
   <= length (default [] (channels (YouTubeMonitor.mon_config m))))%nat.
Proof.
  intros Hclear s.
  assert (Hinv : YouTubeMonitorPubSub.gate_invariant s).
  { apply run_gate_invariant. unfold YouTubeMonitorPubSub.gate_invariant.
    simpl. now rewrite Hclear. }
  split; [now apply gate_invariant_bound|].
  split; [intros v; now apply arrive_while_running_dropped|].
  etransitivity; [apply jobs_in_flight_le_threads|].
  rewrite run_schedule_length. simpl. now rewrite length_map.
Qed.

Lemma single_in_flight_witness :
  let ps := YouTubeMonitorPubSub.new_pubsub Examples.two_channels Examples.two_channels in
  let s := YouTubeMonitorPubSub.run Examples.all_succeed
             (YouTubeMonitorPubSub.start ps ∅)
             [YouTubeMonitorPubSub.Arrive Examples.video_a;
              YouTubeMonitorPubSub.Arrive Examples.video_b] in
  YouTubeMonitorPubSub.running s = [Examples.video_a] /\
  (YouTubeMonitorPubSub.jobs_in_flight s <= 1)%nat.
Proof.
  intros ps s. split; [vm_compute; reflexivity|].
  apply (single_in_flight Examples.all_succeed 0
           ps (YouTubeMonitor.new_monitor Examples.two_channels) ∅
           [YouTubeMonitorPubSub.Arrive Examples.video_a;
            YouTubeMonitorPubSub.Arrive Examples.video_b] []).
  reflexivity.
Defined.

(** Two channels, each showing a new video: once both threads have
    passed the dedup check, two jobs are in flight. *)
Lemma two_polling_jobs_in_flight :
  YouTubeMonitor.jobs_in_flight
    (YouTubeMonitor.run_schedule Examples.all_succeed 0
       (YouTubeMonitor.start_threads
          (YouTubeMonitor.new_monitor Examples.two_channels) ∅)
       [0; 1]%nat) = 2%nat.
Proof. vm_compute. reflexivity. Qed.

(** C1 as worded fails: with two channels that each show a new video,
    both polling threads are inside their job at the same time. *)
Lemma two_polling_jobs_counterexample :
  ~ single_in_flight_as_stated Examples.all_succeed 0
      (YouTubeMonitorPubSub.new_pubsub Examples.two_channels Examples.two_channels)
      (YouTubeMonitor.new_monitor Examples.two_channels) ∅.
Proof.
  intros [_ Hpoll]. specialize (Hpoll [0; 1]%nat).
  vm_compute in Hpoll. lia.
Qed.

Section Dedup.
Import YouTubeMonitor YouTubeMonitorPubSub.

Lemma callback_admit_None ps v :
  callback_admit ps v = None <-> video_id v ∈ processed_videos ps.
Proof.
  unfold callback_admit. case_bool_decide; split; intros H';
    try reflexivity; try discriminate; tauto.
Qed.

Lemma callback_admit_marks ps v ps1 :
  callback_admit ps v = Some ps1 ->
  processed_videos ps1 = {[video_id v]} ∪ processed_videos ps /\
  YouTubeMonitorPubSub.processed_videos_file ps1
    = {[video_id v]} ∪ processed_videos ps.
Proof.
  unfold callback_admit. case_bool_decide; [discriminate|].
  intros [= <-]. split; reflexivity.
Qed.

Lemma process_video_async_body_dedup E ps fs v :
  YouTubeMonitorPubSub.dedup_state (process_video_async_body E ps fs v).1.1
  = YouTubeMonitorPubSub.dedup_state ps.
Proof.
  unfold process_video_async_body.
  destruct (truthy (video_url v)); simpl; [|reflexivity].
  destruct (YouTubeMonitorPubSub.job_output_path ps v) as [out|]; [|reflexivity].
  destruct (Download.download_video E fs out) as [[[q|] fs1] tr1];
    [|reflexivity].
  destruct (job_proxy_config (ps_config ps) v) as [proxy_config|];
    [|reflexivity].
  destruct (split_video E (yt_config ps) fs1 q 5 _) as [[[|part parts] fs2] tr2];
    reflexivity.
Qed.

Lemma process_video_async_dedup E ps fs v :
  YouTubeMonitorPubSub.dedup_state (process_video_async E ps fs v).1.1
  = YouTubeMonitorPubSub.dedup_state ps.
Proof.
  unfold process_video_async, process_video_async_enter.
  destruct (processing_video ps); [reflexivity|].
  pose proof (process_video_async_body_dedup E
                (set_processing_video ps true) fs v) as H.
  destruct (process_video_async_body E (set_processing_video ps true) fs v)
    as [[ps2 fs1] tr]. exact H.
Qed.

(** On the push path the video is marked and the mark is saved
    before the job runs, whatever the job then does. *)
Lemma callback_marks_before_job E ps fs v :
  video_id v ∉ processed_videos ps ->
  YouTubeMonitorPubSub.dedup_state (video_notification_callback E ps fs v).1.1
  = ({[video_id v]} ∪ processed_videos ps,
     {[video_id v]} ∪ processed_videos ps).
Proof.
  intros Hnew. unfold video_notification_callback.
  destruct (callback_admit ps v) as [ps1|] eqn:Hadmit.
  - apply callback_admit_marks in Hadmit as [Hmem Hfile].
    destruct (default true (auto_upload (ps_config ps1))).
    + rewrite process_video_async_dedup.
      unfold YouTubeMonitorPubSub.dedup_state. now rewrite Hmem, Hfile.
    + unfold YouTubeMonitorPubSub.dedup_state. simpl. now rewrite Hmem, Hfile.
  - apply callback_admit_None in Hadmit. contradiction.
Qed.

Lemma push_accepts_iff ps v :
  push_accepts ps v = true <-> video_id v ∉ processed_videos ps.
Proof.
  unfold push_accepts. rewrite bool_decide_eq_true.
  rewrite <- callback_admit_None.
  destruct (callback_admit ps v) as [ps1|]; split; intros H.
  - discriminate.
  - now exists ps1.
  - now destruct H.
  - now destruct H.
Qed.

Lemma poll_accepts_iff m v :
  poll_accepts m v = true <->
  video_hash (default "" (video_id v)) (default "Untitled" (video_title v))
    ∉ video_hash_cache m.
Proof.
  unfold poll_accepts, is_video_processed.
  rewrite negb_true_iff, bool_decide_eq_false. reflexivity.
Qed.

Lemma cache_scrapetube_data_dedup m id vs now :
  YouTubeMonitor.dedup_state (cache_scrapetube_data m id vs now)
  = YouTubeMonitor.dedup_state m.
Proof.
  unfold cache_scrapetube_data. cbv zeta.
  now destruct (_ mod 10 =? 0)%nat.
Qed.

Lemma get_channel_videos_dedup E m cid limit now :
  YouTubeMonitor.dedup_state (get_channel_videos_scrapetube E m cid limit now).2
  = YouTubeMonitor.dedup_state m.
Proof.
  unfold get_channel_videos_scrapetube.
  destruct (get_cached_scrapetube_data m cid 300 now) as [[|v vs]|];
    try reflexivity;
    (destruct (scrapetube E cid); [apply cache_scrapetube_data_dedup|reflexivity]).
Qed.

(** The first phase of a poll never touches the dedup state, and a
    job it starts is for a video whose hash is not in the cache. *)
Lemma check_begin_dedup E m c now :
  YouTubeMonitor.dedup_state (check_begin E m c now).2
  = YouTubeMonitor.dedup_state m /\
  forall j, (check_begin E m c now).1 = Some j ->
    is_video_processed (check_begin E m c now).2 (job_video_hash j) = false.
Proof.
  unfold check_begin.
  destruct (channel_id c) as [cid|]; [|split; [reflexivity|discriminate]].
  destruct (String.eqb cid ""); [split; [reflexivity|discriminate]|].
  pose proof (get_channel_videos_dedup E m cid 1 now) as Hd.
  destruct (get_channel_videos_scrapetube E m cid 1 now) as [[|v vs] m1];
    simpl in *; [split; [exact Hd|discriminate]|].
  destruct (negb (truthy (video_id v)) || negb (truthy (video_url v)));
    [split; [exact Hd|discriminate]|].
  destruct (is_video_processed m1 _) eqn:Hp; simpl;
    [split; [exact Hd|discriminate]|].
  split; [exact Hd|]. now intros j [= <-].
Qed.

Lemma split_video_rejected E cfg fs p n c :
  (VideoDurationUtils.process_video_for_upload (encode E) fs p).1.1.1 = false ->
  (split_video E cfg fs p n c).1.1 = [].
Proof.
  unfold split_video. intros Hrej.
  destruct (exists_ fs p); [|reflexivity]. cbn [negb].
  destruct (VideoDurationUtils.process_video_for_upload (encode E) fs p)
    as [[[[|] msg] [q|]] fs1]; simpl in Hrej; try discriminate; reflexivity.
Qed.

(** A failed download or a rejected duration ends the polling job
    with the monitor exactly as it was. *)
Lemma check_job_failed E m fs j out :
  YouTubeMonitor.job_output_path m j = Some out ->
  download_failed E fs out \/ duration_rejected E fs out ->
  (check_job E m fs j).1.1.1 = [] /\ (check_job E m fs j).1.1.2 = m.
Proof.
  unfold check_job, download_failed, duration_rejected. intros -> Hfail.
  destruct (Download.download_video E fs out) as [[[q|] fs1] tr1];
    simpl in *; [|split; reflexivity].
  destruct Hfail as [Hfail|(q' & fs1' & tr' & [= <- <- <-] & Hrej)];
    [discriminate|].
  destruct (proxy_config_of (Some (job_channel j))) as [proxy_config|];
    [|split; reflexivity].
  pose proof (split_video_rejected E (mon_config m) fs1 q
                (Z.min 3 (default 3 (video_parts (mon_config m))))
                (default "default" (tiktok_cookie (job_channel j))) Hrej) as Hs.
  destruct (split_video E (mon_config m) fs1 q _ _) as [[[|part parts] fs2] tr2];
    simpl in Hs; [split; reflexivity|discriminate].
Qed.

End Dedup.

Section IngestionPaths.
Import Examples.

(** C2 (amended).  The push path accepts a video exactly when its id
    is not in the push monitor's [processed_videos]; a rejected
    notification changes nothing, an accepted one puts the id into
    that set.  The polling path accepts the latest video of a channel
    exactly when the MD5 digest of [id_title] is not in the polling
    monitor's [video_hash_cache].  The two checks read different
    sets with different keys. *)
Theorem dedup_decisions (E : env) (ps : Push.pubsub) (m : Poll.monitor)
    (v : video) :
  (Push.push_accepts ps v = true <-> video_id v ∉ Push.processed_videos ps) /\
  (forall fs, Push.push_accepts ps v = false ->
     Push.video_notification_callback E ps fs v = (ps, fs, [])) /\
  (forall fs, Push.push_accepts ps v = true ->
     Push.processed_videos (Push.video_notification_callback E ps fs v).1.1
     = {[video_id v]} ∪ Push.processed_videos ps) /\
  (Poll.poll_accepts m v = true <->
   Poll.video_hash (default "" (video_id v))
     (default "Untitled" (video_title v)) ∉ Poll.video_hash_cache m) /\
  (forall c cid now rest m1,
     channel_id c = Some cid -> cid <> ""%string ->
     Poll.get_channel_videos_scrapetube E m cid 1 now = (v :: rest, m1) ->
     truthy (video_id v) = true -> truthy (video_url v) = true ->
     (is_Some (Poll.check_begin E m c now).1 <-> Poll.poll_accepts m1 v = true)).
Proof.
  split; [apply push_accepts_iff|]. split; [|split; [|split]].
  - intros fs Hrej. unfold Push.video_notification_callback.
    unfold Push.push_accepts in Hrej. apply bool_decide_eq_false in Hrej.
    destruct (Push.callback_admit ps v) as [ps1|]; [|reflexivity].
    destruct Hrej. now exists ps1.
  - intros fs Hacc. apply push_accepts_iff in Hacc.
    pose proof (callback_marks_before_job E ps fs v Hacc) as H.
    apply (f_equal fst) in H. exact H.
  - apply poll_accepts_iff.
  - intros c cid now rest m1 Hcid Hne Hfetch Hid Hurl.
    unfold Poll.check_begin, Poll.poll_accepts.
    rewrite Hcid. apply String.eqb_neq in Hne. rewrite Hne, Hfetch, Hid, Hurl.
    cbn [negb orb].
    destruct (Poll.is_video_processed m1 _); simpl; split; intros H;
      try reflexivity; try discriminate; try (now eexists).
    now destruct H.
Qed.

Lemma dedup_decisions_witness :
  let ps := Push.new_pubsub two_channels two_channels in
  Push.processed_videos
    (Push.video_notification_callback all_succeed ps ∅ video_a).1.1
  = {[video_id video_a]} ∪ Push.processed_videos ps.
Proof.
  intros ps.
  apply (dedup_decisions all_succeed ps (Poll.new_monitor two_channels) video_a).
  reflexivity.
Defined.

(** C2 as worded fails: after the push path has handled a video, the
    push path rejects it and the polling path still accepts it. *)
Lemma dedup_paths_disagree_counterexample :
  ~ dedup_paths_agree
      (Push.video_notification_callback all_succeed
         (Push.new_pubsub two_channels two_channels) ∅ video_a).1.1
      (Poll.new_monitor two_channels).
Proof.
  intros H. specialize (H video_a). vm_compute in H. discriminate.
Qed.

(** C3 (amended).  On the polling path, when the download stage or
    the duration policy fails for a new video, the poll returns
    nothing and leaves the dedup state (hash cache, processed list and
    both files) unchanged, so the hash is still unmarked.  On the push
    path the id is marked and saved when the notification is
    accepted, before the job runs: whatever the job does, the id is
    in [processed_videos] and in its file afterwards, and the same
    notification is rejected from then on. *)
Theorem failed_stage_dedup_state (E : env) :
  (forall m fs c now j out,
     (Poll.check_begin E m c now).1 = Some j ->
     Poll.job_output_path (Poll.check_begin E m c now).2 j = Some out ->
     download_failed E fs out \/ duration_rejected E fs out ->
     let '(r, m', _, _) := Poll.check_channel_for_new_videos E m fs c now in
     r = [] /\
     Poll.dedup_state m' = Poll.dedup_state m /\
     Poll.is_video_processed m' (Poll.job_video_hash j) = false) /\
  (forall ps fs v,
     video_id v ∉ Push.processed_videos ps ->
     let ps' := (Push.video_notification_callback E ps fs v).1.1 in
     Push.dedup_state ps'
     = ({[video_id v]} ∪ Push.processed_videos ps,
        {[video_id v]} ∪ Push.processed_videos ps) /\
     Push.callback_admit ps' v = None).
Proof.
  split.
  - intros m fs c now j out Hjob Hout Hfail.
    unfold Poll.check_channel_for_new_videos.
    destruct (check_begin_dedup E m c now) as [Hd Hnew].
    specialize (Hnew j Hjob).
    destruct (Poll.check_begin E m c now) as [oj m1]. simpl in *. subst oj.
    destruct (check_job_failed E m1 fs j out Hout Hfail) as [Hr Hm].
    destruct (Poll.check_job E m1 fs j) as [[[r m'] fs'] tr]. simpl in *.
    subst r m'. auto.
  - intros ps fs v Hnew ps'.
    pose proof (callback_marks_before_job E ps fs v Hnew) as H.
    split; [exact H|].
    apply callback_admit_None. apply (f_equal fst) in H.
    cbn [fst Push.dedup_state] in H. fold ps' in H. rewrite H.
    apply elem_of_union_l, elem_of_singleton. reflexivity.
Qed.

Lemma failed_stage_dedup_state_witness :
  let m := Poll.new_monitor two_channels in
  let c := Channel (Some "A") (Some "UC_A") (Some "acct_a") None in
  let '(r, m', _, _) :=
    Poll.check_channel_for_new_videos always_raising m ∅ c 0 in
  r = [] /\ Poll.dedup_state m' = Poll.dedup_state m.
Proof.
  intros m c.
  destruct (failed_stage_dedup_state always_raising) as [Hpoll _].
  specialize (Hpoll m ∅ c 0%Q
                (Poll.Job c "vidA" "https://www.youtube.com/watch?v=vidA"
                   "First" (Poll.video_hash "vidA" "First"))
                "dl/A_vidA.mp4"%string).
  destruct (Poll.check_channel_for_new_videos always_raising m ∅ c 0)
    as [[[r m'] fs'] tr].
  destruct Hpoll as (Hr & Hd & _).
  - vm_compute. reflexivity.
  - vm_compute. reflexivity.
  - left. vm_compute. reflexivity.
  - split; [exact Hr|exact Hd].
Defined.

(** C3 as worded fails on the push path: the download fails and the
    dedup state has changed. *)
Lemma push_failure_marks_counterexample :
  ~ Push.failure_keeps_dedup_state always_raising
      (Push.new_pubsub two_channels two_channels) ∅ video_a.
Proof.
  intros H.
  specialize (H "dl/new_video_vidA.mp4"%string eq_refl).
  assert (Hfail : download_failed always_raising ∅ "dl/new_video_vidA.mp4").
  { vm_compute. reflexivity. }
  specialize (H (or_introl Hfail)).
  rewrite callback_marks_before_job in H by set_solver.
  apply (f_equal fst) in H. cbn [fst Push.dedup_state] in H.
  assert (Hin : video_id video_a ∈ Push.processed_videos
                  (Push.new_pubsub two_channels two_channels)).
  { rewrite <- H. set_solver. }
  exact (not_elem_of_empty (C := gset (option string)) _ Hin).
Qed.

End IngestionPaths.

(* ------------------------------------------------------------------ *)
(** ** Path names *)

Section PathNames.
Import YouTubeMonitor.

Lemma append_assoc (a b c : string) : (a +:+ b) +:+ c = a +:+ (b +:+ c).
Proof.
  induction a as [|x a IH]; [reflexivity|].
  change (String x ((a +:+ b) +:+ c) = String x (a +:+ (b +:+ c))).
  now rewrite IH.
Qed.

Lemma append_nil_r (a : string) : a +:+ "" = a.
Proof.
  induction a as [|x a IH]; [reflexivity|].
  change (String x (a +:+ "") = String x a). now rewrite IH.
Qed.

Lemma string_of_list_ascii_app (a b : list ascii) :
  string_of_list_ascii (a ++ b)
  = string_of_list_ascii a +:+ string_of_list_ascii b.
Proof.
  induction a as [|x a IH]; [reflexivity|].
  change (String x (string_of_list_ascii (a ++ b))
          = String x (string_of_list_ascii a +:+ string_of_list_ascii b)).
  now rewrite IH.
Qed.

Lemma list_ascii_of_string_app (a b : string) :
  list_ascii_of_string (a +:+ b)
  = list_ascii_of_string a ++ list_ascii_of_string b.
Proof.
  induction a as [|x a IH]; [reflexivity|].
  change (x :: list_ascii_of_string (a +:+ b)
          = x :: (list_ascii_of_string a ++ list_ascii_of_string b)).
  now rewrite IH.
Qed.

Lemma scan_ext_Some l r :
  scan_ext l = Some r ->
  exists e, l = e ++ dot :: r /\ Forall (fun c => c <> slash) e.
Proof.
  revert r. induction l as [|c l IH]; simpl; intros r; [discriminate|].
  destruct (Ascii.eqb_spec c slash) as [->|Hs]; [discriminate|].
  destruct (Ascii.eqb_spec c dot) as [->|Hd].
  - intros [= <-]. exists []. split; [reflexivity|constructor].
  - intros H. destruct (IH r H) as (e & -> & He).
    exists (c :: e). split; [reflexivity|now constructor].
Qed.

(** [os.path.splitext]: the root is a prefix of the path, and what it
    leaves off is empty or an extension that starts with a period and
    contains no slash. *)
Lemma splitext_root_split (path : string) :
  exists ext,
    path = splitext_root path +:+ ext /\
    (ext = ""%string \/
     exists e, ext = String dot e /\
       Forall (fun c => c <> slash) (list_ascii_of_string e)).
Proof.
  unfold splitext_root.
  destruct (scan_ext (rev (list_ascii_of_string path))) as [r|] eqn:Hscan.
  2:{ exists ""%string. split; [now rewrite append_nil_r|now left]. }
  destruct (forallb (Ascii.eqb dot) (basename_rev r)).
  { exists ""%string. split; [now rewrite append_nil_r|now left]. }
  apply scan_ext_Some in Hscan as (e & Hrev & He).
  apply rev_eq_app in Hrev. cbn [rev] in Hrev.
  rewrite <- app_assoc in Hrev. cbn [app] in Hrev.
  exists (String dot (string_of_list_ascii (rev e))). split.
  - rewrite <- (string_of_list_ascii_of_string path) at 1.
    rewrite Hrev, string_of_list_ascii_app. reflexivity.
  - right. eexists. split; [reflexivity|].
    rewrite list_ascii_of_string_of_list_ascii.
    now apply List.Forall_rev.
Qed.

Lemma splitext_root_extended (r : string) :
  splitext_root (r +:+ "_extended.mp4") = r +:+ "_extended".
Proof.
  unfold splitext_root.
  rewrite list_ascii_of_string_app, rev_app_distr. cbn.
  rewrite rev_involutive, <- !app_assoc. cbn [app].
  rewrite string_of_list_ascii_app, string_of_list_ascii_of_string.
  reflexivity.
Qed.

(** A path is none of the names derived from it. *)
Lemma derived_names_differ (p : string) :
  splitext_root p +:+ "_extended.mp4" <> p /\
  (forall i, part_path p i <> p) /\
  (forall i, part_path (splitext_root p +:+ "_extended.mp4") i <> p).
Proof.
  destruct (splitext_root_split p) as (ext & Hp & Hext).
  assert (Hno : forall rest, ext <> String "_" rest).
  { intros rest. destruct Hext as [->|(e & -> & _)]; discriminate. }
  split; [|split].
  - intros H. rewrite Hp in H at 2. apply (inj (String.append _)) in H.
    symmetry in H. now apply Hno in H.
  - intros i H. unfold part_path in H. rewrite Hp in H at 2.
    apply (inj (String.append _)) in H. symmetry in H. now apply Hno in H.
  - intros i H. unfold part_path in H.
    rewrite splitext_root_extended, append_assoc in H. rewrite Hp in H at 2.
    apply (inj (String.append _)) in H. symmetry in H. now apply Hno in H.
Qed.

End PathNames.

(* ------------------------------------------------------------------ *)
(** ** The regimes of the splitter *)

Section SplitterRegimes.
Import FfmpegSplit.
Local Open Scope Q_scope.

Lemma floor_parts_fit D (n : Z) :
  (n <= Qfloor (D / 113))%Z -> inject_Z (n * 113) <= D.
Proof.
  intros Hn. rewrite inject_Z_mult.
  rewrite Zle_Qle in Hn.
  pose proof (Qfloor_le (D / 113)) as Hfl.
  assert (Hdiv : D / 113 * 113 == D) by (field; discriminate).
  assert (H113 : inject_Z 113 == 113) by reflexivity.
  rewrite H113. rewrite <- Hdiv.
  apply Qmult_le_compat_r; [|discriminate].
  eapply Qle_trans; [exact Hn|exact Hfl].
Qed.

Lemma floor_below_one D : D < 113 -> (Qfloor (D / 113) <= 0)%Z.
Proof.
  intros HD.
  pose proof (Qfloor_le (D / 113)) as Hfl.
  assert (Hlt : D / 113 < 1).
  { apply Qlt_shift_div_r; [reflexivity|]. lra. }
  assert (H1 : inject_Z (Qfloor (D / 113)) < inject_Z 1).
  { eapply Qle_lt_trans; [exact Hfl|exact Hlt]. }
  rewrite <- Zlt_Qlt in H1. lia.
Qed.

Lemma plan_loop_full D N k :
  inject_Z ((Z.of_nat k + Z.of_nat N) * 113) <= D ->
  plan_loop D 113 (seq k N) = map (full_part 113) (seq k N).
Proof.
  revert k. induction N as [|N IH]; intros k Hfit; [reflexivity|].
  assert (Hnext : inject_Z ((Z.of_nat k + 1) * 113)
                  = inject_Z (Z.of_nat k * 113) + 113).
  { replace ((Z.of_nat k + 1) * 113)%Z with (Z.of_nat k * 113 + 113)%Z by ring.
    now rewrite inject_Z_plus. }
  assert (Hle : inject_Z ((Z.of_nat k + 1) * 113) <= D).
  { eapply Qle_trans; [|exact Hfit]. rewrite <- Zle_Qle. lia. }
  cbn [seq map plan_loop].
  assert (Hbrk : Qle_bool D (inject_Z (Z.of_nat k * 113)) = false).
  { apply Qle_bool_false. rewrite Hnext in Hle. lra. }
  rewrite Hbrk.
  assert (Hmin : py_min (inject_Z ((Z.of_nat k + 1) * 113)) D
                 = inject_Z ((Z.of_nat k + 1) * 113)).
  { unfold py_min.
    assert (Hb : Qlt_bool D (inject_Z ((Z.of_nat k + 1) * 113)) = false)
      by now apply Qlt_bool_false.
    now rewrite Hb. }
  rewrite Hmin.
  assert (Hlong : Qlt_bool (inject_Z ((Z.of_nat k + 1) * 113)
                            - inject_Z (Z.of_nat k * 113)) 3 = false).
  { apply Qlt_bool_false. rewrite Hnext. lra. }
  rewrite Hlong. unfold full_part at 1. f_equal.
  apply IH. eapply Qle_trans; [|exact Hfit]. rewrite <- Zle_Qle. lia.
Qed.

(** X1.  When [n = min(num_parts, floor(D / 113))] is at least 1, the
    plan consists of exactly the [n] full parts [113 i, 113 (i + 1)),
    [i < n]: every part lasts exactly 113 seconds, the plan ends at
    [113 n <= D], and what lies beyond is planned for no part. *)
Theorem plan_is_full_parts (D : Q) (hint : Z) :
  (1 <= Z.min hint (Qfloor (D / 113)))%Z ->
  let n := Z.to_nat (Z.min hint (Qfloor (D / 113))) in
  segment_plan D hint 113 = map (full_part 113) (seq 0 n) /\
  length (segment_plan D hint 113) = n /\
  inject_Z (Z.of_nat n * 113) <= D.
Proof.
  intros Hn n.
  assert (Hfit : inject_Z (Z.of_nat n * 113) <= D).
  { apply floor_parts_fit. subst n. lia. }
  assert (Hplan : segment_plan D hint 113 = map (full_part 113) (seq 0 n)).
  { unfold segment_plan, py_range, actual_num_parts, max_possible_parts.
    change (inject_Z 113) with (113 : Q).
    assert (H3 : Qle_bool 3 D = true).
    { apply Qle_bool_iff.
      assert (H1 : inject_Z (1 * 113) <= D) by (apply floor_parts_fit; lia).
      eapply Qle_trans; [|exact H1]. vm_compute. discriminate. }
    rewrite H3. rewrite Z.max_r by lia. fold n.
    apply plan_loop_full. now rewrite Z.add_0_l. }
  split; [exact Hplan|]. split; [|exact Hfit].
  now rewrite Hplan, length_map, length_seq.
Qed.

Lemma plan_is_full_parts_witness :
  segment_plan 400 5 113 = map (full_part 113) (seq 0 3).
Proof.
  apply (plan_is_full_parts 400 5). vm_compute. discriminate.
Defined.

Lemma segment_plan_single (D : Q) (hint : Z) :
  3 <= D -> (Z.min hint (Qfloor (D / 113)) <= 1)%Z ->
  segment_plan D hint 113 = [Part 0 0 (py_min 113 D)].
Proof.
  intros H3 Hn.
  unfold segment_plan, py_range, actual_num_parts, max_possible_parts.
  change (inject_Z 113) with (113 : Q).
  apply Qle_bool_iff in H3 as H3b. rewrite H3b.
  replace (Z.to_nat (Z.max 1 (Z.min hint (Qfloor (D / 113))))) with 1%nat by lia.
  cbn [seq plan_loop].
  change (inject_Z (Z.of_nat 0 * 113)) with (0 : Q).
  change (inject_Z ((Z.of_nat 0 + 1) * 113)) with (113 : Q).
  assert (Hbrk : Qle_bool D 0 = false) by (apply Qle_bool_false; lra).
  rewrite Hbrk.
  assert (Hlong : Qlt_bool (py_min 113 D - 0) 3 = false).
  { apply Qlt_bool_false.
    destruct (py_min_cases 113 D) as [[_ ->]|[_ ->]]; lra. }
  now rewrite Hlong.
Qed.

(** X2.  A video of at least 3 seconds for which
    [min(num_parts, floor(D / 113))] is at most 1 (the video is shorter
    than 226 seconds, or at most one part was asked for, zero and
    negative counts included) yields exactly one part, from 0 to
    [min(113, D)]. *)
Theorem plan_is_single_part (D : Q) (hint : Z) :
  3 <= D -> (Z.min hint (Qfloor (D / 113)) <= 1)%Z ->
  segment_plan D hint 113 = [Part 0 0 (py_min 113 D)].
Proof. apply segment_plan_single. Qed.

Lemma plan_is_single_part_witness :
  segment_plan 200 0 113 = [Part 0 0 113].
Proof.
  apply (plan_is_single_part 200 0); vm_compute; discriminate.
Defined.

(** X3.  A video shorter than 3 seconds yields no part, whatever the
    requested count and whatever the extractions would do. *)
Theorem too_short_yields_nothing (D : Q) (hint : Z) (extract_ok : nat -> bool) :
  D < 3 ->
  segment_plan D hint 113 = [] /\
  ffmpeg_split_video D hint 113 extract_ok = [].
Proof.
  intros HD.
  assert (Hplan : segment_plan D hint 113 = []).
  { unfold segment_plan, py_range, actual_num_parts, max_possible_parts.
    change (inject_Z 113) with (113 : Q).
    assert (H3 : Qle_bool 3 D = false) by now apply Qle_bool_false.
    rewrite H3.
    assert (Hfl : (Qfloor (D / 113) <= 0)%Z) by (apply floor_below_one; lra).
    replace (Z.to_nat (Z.min hint (Qfloor (D / 113)))) with 0%nat by lia.
    reflexivity. }
  split; [exact Hplan|].
  unfold ffmpeg_split_video. simpl (113 =? 0)%Z. cbv iota. now rewrite Hplan.
Qed.

Lemma too_short_yields_nothing_witness :
  ffmpeg_split_video (5 # 2) 3 113 (fun _ => true) = [].
Proof.
  apply (too_short_yields_nothing (5 # 2) 3 (fun _ => true)).
  vm_compute. reflexivity.
Defined.

End SplitterRegimes.

(* ------------------------------------------------------------------ *)
(** ** The duration policy *)

Section DurationVerdicts.
Import VideoDurationUtils FfmpegSplit.
Local Open Scope Q_scope.

Lemma floor_below_two D : D < 226 -> (Qfloor (D / 113) <= 1)%Z.
Proof.
  intros HD.
  pose proof (Qfloor_le (D / 113)) as Hfl.
  assert (Hlt : D / 113 < 2).
  { apply Qlt_shift_div_r; [reflexivity|]. lra. }
  assert (H1 : inject_Z (Qfloor (D / 113)) < inject_Z 2).
  { eapply Qle_lt_trans; [exact Hfl|exact Hlt]. }
  rewrite <- Zlt_Qlt in H1. lia.
Qed.

(** What [process_video_for_upload] returns for a readable file. *)
Lemma process_readable encode fs p sz D :
  fs !! p = Some (File sz (Some D)) ->
  process_video_for_upload encode fs p =
    if Qlt_bool D 3 then
      ((false, (if Qeq_bool D 0 then FailedToGetDuration else VideoTooShort),
        None), fs)
    else if Qlt_bool 120 D then ((false, VideoTooLong, None), fs)
    else if Qlt_bool D 60 then
      match encode (splitext_root p +:+ "_extended.mp4") with
      | Encoded sz' =>
          ((true, ExtendedTo63, Some (splitext_root p +:+ "_extended.mp4")),
           <[splitext_root p +:+ "_extended.mp4"
             := File sz' (Some (extended_duration D 63))]> fs)
      | EncodeRaised e =>
          ((false, FailedToExtend, None),
           apply_effect fs (splitext_root p +:+ "_extended.mp4") e)
      end
    else ((true, ReadyForUpload, Some p), fs).
Proof.
  intros Hfile.
  unfold process_video_for_upload, check_video_duration_requirements,
    get_video_duration.
  rewrite Hfile. cbn [media_duration default from_option id].
  destruct (Qeq_bool D 0) eqn:Hz.
  { apply Qeq_bool_iff in Hz.
    assert (H3 : Qlt_bool D 3 = true) by (apply Qlt_bool_iff; lra).
    now rewrite H3. }
  destruct (Qlt_bool D 3) eqn:H3; [reflexivity|].
  destruct (Qlt_bool 120 D) eqn:H120; [reflexivity|]. cbn [negb].
  destruct (Qlt_bool D 60) eqn:H60; [|reflexivity].
  unfold extend_video_to_minimum_duration. rewrite Hfile.
  cbn [media_duration mbind option_bind].
  assert (H63 : Qle_bool 63 D = false).
  { apply Qle_bool_false. apply Qlt_bool_iff in H60. lra. }
  rewrite H63. now destruct (encode _).
Qed.

Lemma process_unreadable encode fs p :
  fs !! p ≫= media_duration = None ->
  process_video_for_upload encode fs p
  = ((false, FailedToGetDuration, None), fs).
Proof.
  intros Hnone.
  unfold process_video_for_upload, check_video_duration_requirements,
    get_video_duration.
  destruct (fs !! p) as [[sz [D|]]|]; [discriminate|reflexivity..].
Qed.

(** X4.  The duration policy accepts a file exactly when moviepy reads
    a duration [D] with [3 <= D <= 120] from it and, if [D < 60], the
    extended copy is written without an exception.  A rejection returns
    no path.  A rejection by the duration check (missing or unreadable
    file, too short, too long) leaves the disk as it was.  A failed
    extension leaves behind what the failed write put at the path of
    the extended copy: nothing removes it.  Every other path, the
    original included, is as before. *)
Theorem duration_policy_verdict (encode : string -> encode_outcome)
    (fs : filesystem) (p : string) :
  let '((ok, msg, out), fs') := process_video_for_upload encode fs p in
  (ok = true <->
   exists D, fs !! p ≫= media_duration = Some D /\ 3 <= D /\ D <= 120 /\
     (D < 60 ->
      encoded (encode (splitext_root p +:+ "_extended.mp4")) = true)) /\
  (ok = false ->
   out = None /\
   (msg <> FailedToExtend -> fs' = fs) /\
   (msg = FailedToExtend ->
    exists e,
      encode (splitext_root p +:+ "_extended.mp4") = EncodeRaised e /\
      fs' = apply_effect fs (splitext_root p +:+ "_extended.mp4") e) /\
   fs' !! p = fs !! p) /\
  (ok = true -> is_Some out).
Proof.
  destruct (derived_names_differ p) as (Hext & _).
  destruct (fs !! p ≫= media_duration) as [D|] eqn:Hread.
  - assert (Hfile : exists sz, fs !! p = Some (File sz (Some D))).
    { destruct (fs !! p) as [[sz [D'|]]|]; try discriminate.
      injection Hread as ->. now exists sz. }
    destruct Hfile as [sz Hfile].
    rewrite (process_readable encode fs p sz D Hfile).
    destruct (Qlt_bool D 3) eqn:H3.
    { apply Qlt_bool_iff in H3. split; [|split; [|discriminate]].
      - split; [discriminate|]. intros (D' & [= <-] & Hmin & _). lra.
      - intros _. split; [reflexivity|]. split; [reflexivity|].
        split; [|reflexivity]. now destruct (Qeq_bool D 0). }
    apply Qlt_bool_false in H3.
    destruct (Qlt_bool 120 D) eqn:H120.
    { apply Qlt_bool_iff in H120. split; [|split; [|discriminate]].
      - split; [discriminate|]. intros (D' & [= <-] & _ & Hmax & _). lra.
      - intros _. split; [reflexivity|]. split; [reflexivity|].
        split; [discriminate|reflexivity]. }
    apply Qlt_bool_false in H120.
    destruct (Qlt_bool D 60) eqn:H60.
    + apply Qlt_bool_iff in H60.
      destruct (encode _) as [sz'|e] eqn:Henc.
      * split; [|split; [discriminate|now eexists]].
        split; [intros _|reflexivity]. exists D. repeat split; auto.
      * split; [|split; [|discriminate]].
        -- split; [discriminate|]. intros (D' & [= <-] & _ & _ & Hencoded).
           specialize (Hencoded H60). discriminate.
        -- intros _. split; [reflexivity|]. split; [now intros []|].
           split; [intros _; now exists e|].
           destruct e; cbn [apply_effect]; [reflexivity| |].
           ++ now apply lookup_insert_ne.
           ++ now apply lookup_delete_ne.
    + apply Qlt_bool_false in H60.
      split; [|split; [discriminate|now eexists]].
      split; [intros _|reflexivity]. exists D. repeat split; auto.
      intros Hlt. lra.
  - rewrite (process_unreadable encode fs p Hread).
    split; [|split; [|discriminate]].
    + split; [discriminate|]. intros (D & HD & _). discriminate.
    + intros _. split; [reflexivity|]. split; [reflexivity|].
      split; [discriminate|reflexivity].
Qed.

Lemma duration_policy_verdict_witness :
  (process_video_for_upload
     (fun _ => EncodeRaised (Wrote (File 7 None)))
     {[ "dl/v.mp4"%string := File 1000 (Some 10) ]} "dl/v.mp4").1
  = (false, FailedToExtend, None) /\
  (process_video_for_upload
     (fun _ => EncodeRaised (Wrote (File 7 None)))
     {[ "dl/v.mp4"%string := File 1000 (Some 10) ]} "dl/v.mp4").2
    !! "dl/v_extended.mp4"%string = Some (File 7 None) /\
  (process_video_for_upload
     (fun _ => EncodeRaised (Wrote (File 7 None)))
     {[ "dl/v.mp4"%string := File 1000 (Some 10) ]} "dl/v.mp4").2
    !! "dl/v.mp4"%string
  = ({[ "dl/v.mp4"%string := File 1000 (Some 10) ]} : filesystem)
      !! "dl/v.mp4"%string.
Proof.
  split; [vm_compute; reflexivity|]. split; [vm_compute; reflexivity|].
  pose proof (duration_policy_verdict
                (fun _ => EncodeRaised (Wrote (File 7 None)))
                {[ "dl/v.mp4"%string := File 1000 (Some 10) ]} "dl/v.mp4")
    as H.
  assert (Hok : (process_video_for_upload
                   (fun _ => EncodeRaised (Wrote (File 7 None)))
                   {[ "dl/v.mp4"%string := File 1000 (Some 10) ]}
                   "dl/v.mp4").1.1.1 = false) by (vm_compute; reflexivity).
  destruct (process_video_for_upload _ _ _) as [[[ok msg] out] fs'].
  cbn [fst snd] in *. destruct H as (_ & H & _).
  destruct (H Hok) as (_ & _ & _ & Hsame). exact Hsame.
Defined.

(** X5.  A readable file of 3 to 60 seconds whose re-encoding succeeds
    is handed on as a file of duration [d] with [D < d <= 63]: the
    extension lengthens the video and never overshoots the 63-second
    target.  The target is reached exactly when [D >= 31.5]; below
    that the result lasts [2 D].  The original file is kept. *)
Theorem extension_bounds (encode : string -> encode_outcome) (fs : filesystem)
    (p : string) (sz sz' : N) (D : Q) :
  fs !! p = Some (File sz (Some D)) -> 3 <= D -> D < 60 ->
  encode (splitext_root p +:+ "_extended.mp4") = Encoded sz' ->
  exists d,
    processed_duration encode fs p = Some d /\
    D < d /\ d <= 63 /\
    (63 <= d <-> 63 <= 2 * D) /\
    (2 * D < 63 -> d == 2 * D).
Proof.
  intros Hfile Hmin Hmax Henc.
  exists (extended_duration D 63).
  split; [now apply (process_short_video encode fs p sz D sz')|].
  unfold extended_duration.
  assert (Hrem : Qlt_bool 0 (63 - D) = true) by (apply Qlt_bool_iff; lra).
  rewrite Hrem.
  destruct (py_min_cases (63 - D) D) as [[H ->]|[H ->]];
    repeat split; intros; lra.
Qed.

Lemma extension_bounds_witness :
  let fs : filesystem := {[ "dl/v.mp4"%string := File 1000 (Some 45) ]} in
  exists d, processed_duration (fun _ => Encoded 2000) fs "dl/v.mp4" = Some d /\
            45 < d /\ d <= 63.
Proof.
  intros fs.
  destruct (extension_bounds (fun _ => Encoded 2000) fs "dl/v.mp4" 1000 2000 45)
    as (d & Hd & Hlo & Hhi & _).
  - reflexivity.
  - vm_compute. discriminate.
  - vm_compute. reflexivity.
  - reflexivity.
  - exists d. auto.
Defined.

Lemma processed_duration_range encode fs p d :
  processed_duration encode fs p = Some d -> 3 <= d /\ d <= 120.
Proof.
  unfold processed_duration.
  destruct (fs !! p ≫= media_duration) as [D|] eqn:Hread.
  - assert (Hfile : exists sz, fs !! p = Some (File sz (Some D))).
    { destruct (fs !! p) as [[sz [D'|]]|]; try discriminate.
      injection Hread as ->. now exists sz. }
    destruct Hfile as [sz Hfile].
    rewrite (process_readable encode fs p sz D Hfile).
    destruct (Qlt_bool D 3) eqn:H3; [discriminate|].
    apply Qlt_bool_false in H3.
    destruct (Qlt_bool 120 D) eqn:H120; [discriminate|].
    apply Qlt_bool_false in H120.
    destruct (Qlt_bool D 60) eqn:H60.
    + apply Qlt_bool_iff in H60.
      destruct (encode _) as [sz'|e]; [|discriminate].
      rewrite lookup_insert_eq. cbn [mbind option_bind media_duration].
      intros [= <-]. unfold extended_duration.
      assert (Hrem : Qlt_bool 0 (63 - D) = true) by (apply Qlt_bool_iff; lra).
      rewrite Hrem.
      destruct (py_min_cases (63 - D) D) as [[H ->]|[H ->]]; split; lra.
    + rewrite Hread. intros [= <-]. auto.
  - rewrite (process_unreadable encode fs p Hread). discriminate.
Qed.

(** X6.  Whatever file the duration policy hands on lasts between 3
    and 120 seconds, so with parts of 113 seconds the splitter plans
    exactly one part for it, from 0 to [min(113, d)], whatever number
    of parts is requested.  In the pipeline a video is therefore never
    cut into several parts, and up to 7 seconds at its end are left
    out. *)
Theorem accepted_video_single_part (encode : string -> encode_outcome)
    (fs : filesystem) (p : string) (d : Q) (hint : Z) :
  processed_duration encode fs p = Some d ->
  3 <= d /\ d <= 120 /\
  segment_plan d hint 113 = [Part 0 0 (py_min 113 d)] /\
  d - py_min 113 d <= 7.
Proof.
  intros Hd. apply processed_duration_range in Hd as [Hmin Hmax].
  split; [exact Hmin|]. split; [exact Hmax|]. split.
  - apply segment_plan_single; [exact Hmin|].
    assert (Hfl : (Qfloor (d / 113) <= 1)%Z) by (apply floor_below_two; lra).
    lia.
  - destruct (py_min_cases 113 d) as [[_ ->]|[_ ->]]; lra.
Qed.

Lemma accepted_video_single_part_witness :
  let fs : filesystem := {[ "dl/v.mp4"%string := File 1000 (Some 118) ]} in
  segment_plan 118 5 113 = [Part 0 0 (py_min 113 118)].
Proof.
  intros fs.
  apply (accepted_video_single_part (fun _ => EncodeRaised Untouched) fs
           "dl/v.mp4" 118 5).
  vm_compute. reflexivity.
Defined.

End DurationVerdicts.

(* ------------------------------------------------------------------ *)
(** ** The channel-list cache: lookups *)

Section CacheLookups.
Import YouTubeMonitor.
Local Open Scope Q_scope.

Lemma od_get_set_eq d k v : od_get (od_set d k v) k = Some v.
Proof.
  induction d as [|[k' v'] d IH]; simpl.
  - now rewrite String.eqb_refl.
  - destruct (String.eqb k' k) eqn:Hk; simpl.
    + now rewrite String.eqb_refl.
    + now rewrite Hk.
Qed.

Lemma od_get_set_ne d k k' v : k <> k' -> od_get (od_set d k v) k' = od_get d k'.
Proof.
  intros Hne. induction d as [|[k0 v0] d IH]; simpl.
  - apply String.eqb_neq in Hne. now rewrite Hne.
  - destruct (String.eqb_spec k0 k) as [->|Hk0]; simpl.
    + apply String.eqb_neq in Hne. now rewrite Hne.
    + destruct (String.eqb k0 k'); [reflexivity|exact IH].
Qed.

Lemma od_set_length d k v :
  length (od_set d k v)
  = if bool_decide (k ∈ od_keys d) then length d else S (length d).
Proof.
  induction d as [|[k' v'] d IH]; simpl; [reflexivity|].
  destruct (String.eqb_spec k' k) as [->|Hne]; simpl.
  - rewrite bool_decide_eq_true_2; [reflexivity|apply list_elem_of_here].
  - rewrite IH. unfold od_keys. cbn [fmap list_fmap fst].
    destruct (bool_decide (k ∈ fst <$> d)) eqn:Hin.
    + apply bool_decide_eq_true in Hin.
      rewrite bool_decide_eq_true_2; [reflexivity|now apply list_elem_of_further].
    + apply bool_decide_eq_false in Hin.
      rewrite bool_decide_eq_false_2; [reflexivity|].
      intros [Heq|Hin']%elem_of_cons; [congruence|contradiction].
Qed.

Lemma od_set_keys_existing d k v :
  k ∈ od_keys d -> od_keys (od_set d k v) = od_keys d.
Proof.
  induction d as [|[k' v'] d IH]; simpl; intros Hin.
  - now apply elem_of_nil in Hin.
  - destruct (String.eqb_spec k' k) as [->|Hne]; [reflexivity|].
    unfold od_keys in *. cbn [fmap list_fmap fst] in *.
    apply elem_of_cons in Hin as [Heq|Hin]; [congruence|].
    f_equal. now apply IH.
Qed.

Lemma od_set_head d k v x rest :
  d <> [] -> od_set d k v = x :: rest -> k ∉ od_keys d -> x.1 <> k.
Proof.
  destruct d as [|[k' v'] d]; [congruence|]. simpl. intros _ Hset Hk.
  apply not_elem_of_cons in Hk as [Hne _].
  destruct (String.eqb_spec k' k) as [->|_]; [congruence|].
  injection Hset as <- _. simpl. congruence.
Qed.

(** The entry just cached is the one found under its key. *)
Lemma od_get_after_put m id vs now :
  (1 <= max_cache_size m)%nat ->
  (length (scrapetube_cache m) <= max_cache_size m)%nat ->
  od_get (scrapetube_cache (cache_scrapetube_data m id vs now)) (cache_key id)
  = Some (CacheEntry vs now).
Proof.
  intros Hcap Hlen. rewrite scrapetube_cache_put. cbv zeta.
  set (d := scrapetube_cache m) in *. set (k := cache_key id).
  set (e := CacheEntry vs now).
  pose proof (od_set_length d k e) as Hsz.
  destruct (bool_decide (k ∈ od_keys d)) eqn:Hin.
  - rewrite Hsz.
    assert (Hno : (max_cache_size m <? length d)%nat = false)
      by (apply Nat.ltb_ge; exact Hlen).
    rewrite Hno. apply od_get_set_eq.
  - apply bool_decide_eq_false in Hin. rewrite Hsz.
    destruct (max_cache_size m <? S (length d))%nat eqn:Hfull;
      [|apply od_get_set_eq].
    apply Nat.ltb_lt in Hfull.
    assert (Hd : d <> []) by (destruct d; simpl in *; [lia|discriminate]).
    pose proof (od_get_set_eq d k e) as Hget.
    destruct (od_set d k e) as [|[k0 v0] rest] eqn:Hset; [discriminate|].
    pose proof (od_set_head d k e (k0, v0) rest Hd Hset Hin) as Hk0.
    simpl in Hk0, Hget |- *.
    apply String.eqb_neq in Hk0. now rewrite Hk0 in Hget.
Qed.

(** X7.  Cache round trip with time to live.  In a monitor whose cache
    respects its capacity (of at least 1), the videos cached for a
    channel at time [now] are returned by a lookup at time [now']
    exactly when [now' - now < max_age]; otherwise the lookup misses.
    The entry stays in the cache either way. *)
Theorem cache_put_get (m : monitor) (id : string) (vs : list video)
    (now now' max_age : Q) :
  (1 <= max_cache_size m)%nat ->
  (length (scrapetube_cache m) <= max_cache_size m)%nat ->
  get_cached_scrapetube_data (cache_scrapetube_data m id vs now) id max_age now'
  = if Qlt_bool (now' - now) max_age then Some vs else None.
Proof.
  intros Hcap Hlen. unfold get_cached_scrapetube_data.
  now rewrite (od_get_after_put m id vs now Hcap Hlen).
Qed.

Lemma cache_put_get_witness :
  get_cached_scrapetube_data
    (cache_scrapetube_data (new_monitor Examples.two_channels) "UC_A"
       [Examples.video_a] 1000) "UC_A" 300 1299
  = Some [Examples.video_a] /\
  get_cached_scrapetube_data
    (cache_scrapetube_data (new_monitor Examples.two_channels) "UC_A"
       [Examples.video_a] 1000) "UC_A" 300 1300
  = None.
Proof.
  split.
  - rewrite (cache_put_get (new_monitor Examples.two_channels) "UC_A"
               [Examples.video_a] 1000 1299 300); [reflexivity|simpl; lia..].
  - rewrite (cache_put_get (new_monitor Examples.two_channels) "UC_A"
               [Examples.video_a] 1000 1300 300); [reflexivity|simpl; lia..].
Defined.

(** X8.  Caching again for a channel that is already in the cache
    replaces its entry where it stands: the order of the keys, hence
    the order of eviction, does not change.  The cache evicts in order
    of first insertion, not of last use. *)
Theorem recache_keeps_position (m : monitor) (id : string) (vs : list video)
    (now : Q) :
  cache_key id ∈ od_keys (scrapetube_cache m) ->
  (length (scrapetube_cache m) <= max_cache_size m)%nat ->
  od_keys (scrapetube_cache (cache_scrapetube_data m id vs now))
  = od_keys (scrapetube_cache m).
Proof.
  intros Hin Hlen. rewrite scrapetube_cache_put. cbv zeta.
  rewrite od_set_length, bool_decide_eq_true_2 by exact Hin.
  assert (Hno : (max_cache_size m <? length (scrapetube_cache m))%nat = false)
    by (apply Nat.ltb_ge; exact Hlen).
  rewrite Hno. now apply od_set_keys_existing.
Qed.

Lemma recache_keeps_position_witness :
  let m := cache_all (new_monitor Examples.two_channels) ["UC_A"; "UC_B"]%string
             (fun _ => []) (fun _ => 0) in
  od_keys (scrapetube_cache (cache_scrapetube_data m "UC_A" [Examples.video_a] 9))
  = ["scrapetube_UC_A"; "scrapetube_UC_B"]%string.
Proof.
  intros m.
  rewrite (recache_keeps_position m "UC_A" [Examples.video_a] 9).
  - reflexivity.
  - apply (bool_decide_eq_true_1 (_ ∈ _)). vm_compute. reflexivity.
  - vm_compute. lia.
Defined.

End CacheLookups.

(* ------------------------------------------------------------------ *)
(** ** Fetching through the cache, and the hash cache on disk *)

Section PollingState.
Import YouTubeMonitor.
Local Open Scope Q_scope.



Lemma mark_video_hash_cache m h :
  video_hash_cache (mark_video_processed m h) = {[h]} ∪ video_hash_cache m.
Proof.
  unfold mark_video_processed. cbv zeta.
  now destruct (_ mod 50 =? 0)%nat.
Qed.


Lemma mark_all_snoc m hs h :
  mark_all m (hs ++ [h]) = mark_video_processed (mark_all m hs) h.
Proof. unfold mark_all. now rewrite foldl_app. Qed.

Lemma mark_all_cache m hs :
  video_hash_cache (mark_all m hs) = list_to_set hs ∪ video_hash_cache m.
Proof.
  induction hs as [|h hs IH] using rev_ind.
  - simpl. set_solver.
  - rewrite mark_all_snoc, mark_video_hash_cache, IH, list_to_set_app_L.
    simpl. set_solver.
Qed.

Lemma div50_step n :
  (S n mod 50 = 0 -> 50 * (S n / 50) = S n)%nat /\
  (S n mod 50 <> 0 -> S n / 50 = n / 50)%nat.
Proof.
  pose proof (Nat.div_mod_eq (S n) 50) as HS.
  pose proof (Nat.div_mod_eq n 50) as Hn.
  pose proof (Nat.mod_upper_bound (S n) 50 ltac:(lia)) as HbS.
  pose proof (Nat.mod_upper_bound n 50 ltac:(lia)) as Hbn.
  split; intros H; [lia|].
  assert (n / 50 <= S n / 50)%nat by (apply Nat.Div0.div_le_mono; lia).
  nia.
Qed.

(** X10.  The hash cache reaches the disk only when its size is a
    multiple of 50.  After marking the distinct hashes [hs] in a fresh
    monitor, all of them are in memory, while the file holds exactly
    the first [50 * (|hs| / 50)] of them: up to 49 marks exist in
    memory only. *)
Theorem hash_cache_file_lags (cfg : config) (hs : list string) :
  NoDup hs ->
  let m := mark_all (new_monitor cfg) hs in
  video_hash_cache m = list_to_set hs /\
  video_hash_cache_file m = list_to_set (take (50 * (length hs / 50)) hs).
Proof.
  intros Hnd m. subst m.
  split; [rewrite mark_all_cache; simpl; set_solver|].
  induction hs as [|h hs IH] using rev_ind; [reflexivity|].
  apply NoDup_app in Hnd as (Hnd & Hfresh & _). specialize (IH Hnd).
  rewrite mark_all_snoc. unfold mark_video_processed. cbv zeta.
  assert (Hsize : size (video_hash_cache
                          (set_video_hash_cache (mark_all (new_monitor cfg) hs)
                             ({[h]} ∪ video_hash_cache (mark_all (new_monitor cfg) hs))))
                  = S (length hs)).
  { cbn [video_hash_cache set_video_hash_cache].
    rewrite mark_all_cache. simpl.
    replace ({[h]} ∪ (list_to_set hs ∪ ∅) : gset string)
      with (list_to_set (hs ++ [h]) : gset string)
      by (rewrite list_to_set_app_L; simpl; set_solver).
    rewrite size_list_to_set.
    - rewrite length_app. simpl. lia.
    - apply NoDup_app. split; [exact Hnd|]. split; [exact Hfresh|].
      apply NoDup_singleton. }
  rewrite Hsize, length_app. simpl length.
  replace (length hs + 1)%nat with (S (length hs)) by lia.
  destruct (div50_step (length hs)) as [Hfull Hpart].
  destruct (S (length hs) mod 50 =? 0)%nat eqn:Hmod.
  - apply Nat.eqb_eq in Hmod. rewrite (Hfull Hmod).
    cbn [video_hash_cache_file save_video_hash_cache video_hash_cache
         set_video_hash_cache].
    rewrite mark_all_cache. simpl.
    rewrite take_ge by (rewrite length_app; simpl; lia).
    rewrite list_to_set_app_L. simpl. set_solver.
  - apply Nat.eqb_neq in Hmod. rewrite (Hpart Hmod).
    cbn [video_hash_cache_file set_video_hash_cache]. rewrite IH.
    rewrite take_app_le; [reflexivity|].
    pose proof (Nat.div_mod_eq (length hs) 50). lia.
Qed.

Lemma hash_cache_file_lags_witness :
  let hs := pretty <$> seq 0 51 in
  let m := mark_all (new_monitor Examples.no_channels) hs in
  video_hash_cache_file m = list_to_set (take 50 hs).
Proof.
  intros hs m.
  destruct (hash_cache_file_lags Examples.no_channels hs) as [_ H].
  - apply (bool_decide_eq_true_1 (NoDup hs)). vm_compute. reflexivity.
  - exact H.
Defined.

End PollingState.

(* ------------------------------------------------------------------ *)
(** ** The download stage: what it logs *)

Section DownloadTrace.
Import Download.

Lemma primary_attempts_download_events E fuel attempt fs p :
  Forall (fun e => is_download_event e = true)
    (primary_attempts E fuel attempt fs p).2.
Proof.
  revert attempt fs. induction fuel as [|fuel IH]; intros attempt fs;
    cbn [primary_attempts]; [constructor|].
  destruct (attempt <? max_attempts)%nat; cbn [negb]; [|constructor].
  assert (Hwait : Forall (fun e => is_download_event e = true)
            (if (S attempt <? max_attempts)%nat
             then [Sleep (5 * S attempt)] else [])).
  { destruct (S attempt <? max_attempts)%nat; repeat constructor. }
  destruct (raised _).
  - destruct (S attempt <? max_attempts)%nat.
    + specialize (IH (S attempt)
        (apply_effect fs p (ytdlp_effect (ytdlp E p (S attempt))))).
      destruct (primary_attempts E fuel (S attempt) _ p) as [[r fs2] tr].
      constructor; [reflexivity|]. apply Forall_app. now split.
    + repeat constructor.
  - destruct (exists_ _ p).
    + destruct (0 <? getsize _ p)%N; [repeat constructor|].
      specialize (IH (S attempt)
        (remove (apply_effect fs p (ytdlp_effect (ytdlp E p (S attempt)))) p)).
      destruct (primary_attempts E fuel (S attempt) _ p) as [[r fs2] tr].
      constructor; [reflexivity|]. apply Forall_app. now split.
    + specialize (IH (S attempt)
        (apply_effect fs p (ytdlp_effect (ytdlp E p (S attempt))))).
      destruct (primary_attempts E fuel (S attempt) _ p) as [[r fs2] tr].
      constructor; [reflexivity|]. apply Forall_app. now split.
Qed.

Lemma download_video_events E fs p :
  Forall (fun e => is_download_event e = true) (download_video E fs p).2.
Proof.
  unfold download_video.
  pose proof (primary_attempts_download_events E max_attempts 0 fs p) as H.
  destruct (primary_attempts E max_attempts 0 fs p) as [[[r|] fs1] tr];
    simpl in *; [exact H|].
  unfold download_video_pytube_fallback.
  destruct (pytube E p); simpl;
    try (destruct (exists_ _ p && _)%bool; simpl);
    (apply Forall_app; split; [exact H|repeat constructor]).
Qed.

Lemma download_video_no_remove E fs p path :
  RemoveFile path ∉ (download_video E fs p).2.
Proof.
  intros Hin. pose proof (download_video_events E fs p) as H.
  rewrite Forall_forall in H. specialize (H _ Hin). discriminate.
Qed.


End DownloadTrace.


(* ------------------------------------------------------------------ *)
(** ** The polling job from end to end *)

Section PollingJob.
Import YouTubeMonitor.

Lemma download_video_success E fs p q fs1 tr :
  Download.download_video E fs p = (Some q, fs1, tr) ->
  q = p /\ exists f, fs1 !! p = Some f /\ (0 < file_size f)%N.
Proof.
  unfold Download.download_video.
  pose proof (primary_attempts_post E Download.max_attempts 0 fs p) as Hpost.
  destruct (Download.primary_attempts E Download.max_attempts 0 fs p)
    as [[[r|] fs0] tr0]; destruct Hpost as [_ Hr].
  - intros [= -> <- <-]. destruct Hr as (-> & Hf & _). auto.
  - pose proof (fallback_post E fs0 p) as Hfb.
    destruct (Download.download_video_pytube_fallback E fs0 p) as [[r' fs2] tr'].
    destruct Hfb as (res & _ & _ & Hsome).
    intros [= -> <- <-]. now apply Hsome.
Qed.

(** A rejection changes the disk at most at the path of the extended
    copy. *)
Lemma process_rejected_fs encode fs p x :
  (VideoDurationUtils.process_video_for_upload encode fs p).1.1.1 = false ->
  x <> splitext_root p +:+ "_extended.mp4" ->
  (VideoDurationUtils.process_video_for_upload encode fs p).2 !! x = fs !! x.
Proof.
  intros _ Hx.
  destruct (fs !! p ≫= media_duration) as [D|] eqn:Hread.
  - assert (Hfile : exists sz, fs !! p = Some (File sz (Some D))).
    { destruct (fs !! p) as [[sz [D'|]]|]; try discriminate.
      injection Hread as ->. now exists sz. }
    destruct Hfile as [sz Hfile].
    rewrite (process_readable encode fs p sz D Hfile).
    destruct (Qlt_bool D 3); [reflexivity|].
    destruct (Qlt_bool 120 D); [reflexivity|].
    destruct (Qlt_bool D 60); [|reflexivity].
    destruct (encode _) as [sz'|[|f|]]; cbn [snd apply_effect].
    + now apply lookup_insert_ne.
    + reflexivity.
    + now apply lookup_insert_ne.
    + now apply lookup_delete_ne.
  - now rewrite (process_unreadable encode fs p Hread).
Qed.

Lemma split_video_rejected_fs E cfg fs p n c :
  (VideoDurationUtils.process_video_for_upload (encode E) fs p).1.1.1 = false ->
  exists fs',
    split_video E cfg fs p n c = ([], fs', []) /\ fs' !! p = fs !! p.
Proof.
  intros Hrej.
  destruct (derived_names_differ p) as (Hext & _).
  pose proof (process_rejected_fs (encode E) fs p p Hrej
                (fun H => Hext (eq_sym H))) as Hfs.
  unfold split_video. destruct (exists_ fs p); [|now eexists]. cbn [negb].
  destruct (VideoDurationUtils.process_video_for_upload (encode E) fs p)
    as [[[[|] msg] [q|]] fs1]; simpl in *; try discriminate; now eexists.
Qed.

(** X12.  When the duration policy rejects a downloaded video, the
    polling job returns nothing and removes nothing: the downloaded
    file, non-empty, is still on disk afterwards. *)
Theorem poll_rejection_keeps_download (E : env) (m : monitor)
    (fs : filesystem) (j : job) (out : string) :
  job_output_path m j = Some out ->
  duration_rejected E fs out ->
  let '(r, _, fs', tr) := check_job E m fs j in
  r = [] /\
  (exists f, fs' !! out = Some f /\ (0 < file_size f)%N) /\
  (forall path, RemoveFile path ∉ tr).
Proof.
  intros Hout (q & fs1 & tr1 & Hdl & Hrej).
  unfold check_job. rewrite Hout.
  pose proof (download_video_no_remove E fs out) as Hnorm.
  rewrite Hdl in Hnorm |- *. cbn [snd] in Hnorm.
  destruct (download_video_success E fs out q fs1 tr1 Hdl) as [-> Hfile].
  destruct (proxy_config_of (Some (job_channel j))) as [proxy_config|];
    [|split; [reflexivity|]; split; [exact Hfile|exact Hnorm]].
  destruct (split_video_rejected_fs E (mon_config m) fs1 out
              (Z.min 3 (default 3 (video_parts (mon_config m))))
              (default "default" (tiktok_cookie (job_channel j))) Hrej)
    as (fs2 & Hsplit & Hsame).
  rewrite Hsplit.
  split; [reflexivity|]. split; [now rewrite Hsame|].
  intros path. rewrite app_nil_r. apply Hnorm.
Qed.

Lemma poll_rejection_keeps_download_witness :
  let m := new_monitor Examples.two_channels in
  let c := Channel (Some "A") (Some "UC_A") (Some "acct_a") None in
  let j := Job c "vidA" "u" "First" (video_hash "vidA" "First") in
  let E := Env Examples.feed
             (fun _ _ => YtDlp false (Wrote (File 5000 (Some 200%Q))))
             (fun _ => PytubeNoStreams) (fun _ => EncodeRaised Untouched)
             (fun _ => None) (fun _ _ => true) in
  (check_job E m ∅ j).1.2 !! "dl/A_vidA.mp4"%string
  = Some (File 5000 (Some 200%Q)).
Proof.
  intros m c j E.
  pose proof (poll_rejection_keeps_download E m ∅ j "dl/A_vidA.mp4") as H.
  destruct (check_job E m ∅ j) as [[[r m'] fs'] tr] eqn:Hrun.
  destruct H as (_ & (f & Hf & _) & _).
  - reflexivity.
  - exists "dl/A_vidA.mp4"%string,
      ({[ "dl/A_vidA.mp4"%string := File 5000 (Some 200%Q) ]} : filesystem),
      [PrimaryAttempt 1 AttemptOk].
    split; vm_compute; reflexivity.
  - vm_compute in Hrun. injection Hrun as _ _ <- _. reflexivity.
Defined.




(** A proxy entry that lacks one of its four keys makes the f-string
    raise. *)
Lemma incomplete_proxy_raises (c : channel) (e : proxy_entry) :
  channel_proxy c = Some e ->
  entry_ip e = None \/ entry_port e = None \/
  entry_username e = None \/ entry_password e = None ->
  proxy_config_of (Some c) = None.
Proof.
  intros Hc Hmissing. unfold proxy_config_of. cbn [mbind option_bind].
  rewrite Hc. unfold proxy_entry_string.
  destruct e as [[ip|] [port|] [user|] [pw|]]; cbn in *; try reflexivity.
  destruct Hmissing as [H|[H|[H|H]]]; discriminate.
Qed.

(** X28.  A polling job for a channel whose proxy entry lacks a key
    downloads the video and then stops: building the proxy string
    raises, the job returns nothing, the monitor is exactly as before
    (the video is not marked, so the next poll takes it up again), and
    the downloaded file, non-empty, stays on disk with nothing split,
    uploaded or removed. *)
Theorem poll_incomplete_proxy_stops (E : env) (m : monitor)
    (fs : filesystem) (j : job) (out : string) (e : proxy_entry) :
  job_output_path m j = Some out ->
  ~ download_failed E fs out ->
  channel_proxy (job_channel j) = Some e ->
  entry_ip e = None \/ entry_port e = None \/
  entry_username e = None \/ entry_password e = None ->
  let '(r, m', fs', tr) := check_job E m fs j in
  r = [] /\ m' = m /\
  (exists f, fs' !! out = Some f /\ (0 < file_size f)%N) /\
  Forall (fun ev => is_download_event ev = true) tr.
Proof.
  intros Hout Hok Hc Hmissing. unfold check_job. rewrite Hout.
  unfold download_failed in Hok.
  pose proof (download_video_events E fs out) as Hev.
  destruct (Download.download_video E fs out) as [[[q|] fs1] tr1] eqn:Hdl;
    [|now destruct Hok].
  destruct (download_video_success E fs out q fs1 tr1 Hdl) as [-> Hfile].
  rewrite (incomplete_proxy_raises _ e Hc Hmissing).
  split; [reflexivity|]. split; [reflexivity|]. split; [exact Hfile|exact Hev].
Qed.

Lemma poll_incomplete_proxy_stops_witness :
  (check_job Examples.all_succeed (new_monitor Examples.incomplete_proxy) ∅
     (Job (Channel (Some "A") (Some "UC_A") (Some "acct_a")
             (Some (ProxyEntry (Some "10.0.0.1") (Some "8080") None None)))
        "vidA" "u" "First" (video_hash "vidA" "First"))).1.1.1 = [].
Proof.
  pose proof (poll_incomplete_proxy_stops Examples.all_succeed
                (new_monitor Examples.incomplete_proxy) ∅
                (Job (Channel (Some "A") (Some "UC_A") (Some "acct_a")
                        (Some (ProxyEntry (Some "10.0.0.1") (Some "8080")
                                 None None)))
                   "vidA" "u" "First" (video_hash "vidA" "First"))
                "dl/A_vidA.mp4"
                (ProxyEntry (Some "10.0.0.1") (Some "8080") None None)) as H.
  destruct (check_job _ _ _ _) as [[[r m'] fs'] tr]. cbn [fst].
  destruct H as (Hr & _).
  - reflexivity.
  - vm_compute. discriminate.
  - reflexivity.
  - right. right. left. reflexivity.
  - exact Hr.
Defined.

End PollingJob.

(* ------------------------------------------------------------------ *)
(** ** The push path from end to end *)

Section PushJob.
Import YouTubeMonitorPubSub.

(** X14.  Once the download has succeeded, what becomes of the
    downloaded file depends on the proxy entry of the routed channel.
    When the proxy string can be built (no entry, or an entry with all
    four keys), the push job removes the download whether splitting
    succeeds or not: it is gone from the disk when the job ends, and
    its removal is the last event.  When a key of the entry is
    missing, building the string raises and the job ends in its
    handler: the download is still on disk, non-empty, nothing was
    split, uploaded or removed, and the video is not counted. *)
Theorem push_job_removes_download (E : env) (ps : pubsub) (fs : filesystem)
    (v : video) (out : string) :
  truthy (video_url v) = true ->
  job_output_path ps v = Some out ->
  ~ download_failed E fs out ->
  let '(ps', fs', tr) := process_video_async_body E ps fs v in
  (is_Some (job_proxy_config (ps_config ps) v) ->
   fs' !! out = None /\ last tr = Some (RemoveFile out)) /\
  (job_proxy_config (ps_config ps) v = None ->
   ps' = ps /\
   (exists f, fs' !! out = Some f /\ (0 < file_size f)%N) /\
   Forall (fun e => is_download_event e = true) tr).
Proof.
  intros Hurl Hout Hok. unfold process_video_async_body.
  rewrite Hurl, Hout. cbn [negb]. unfold download_failed in Hok.
  pose proof (download_video_events E fs out) as Hev.
  destruct (Download.download_video E fs out) as [[[q|] fs1] tr1] eqn:Hdl;
    [|now destruct Hok].
  destruct (download_video_success E fs out q fs1 tr1 Hdl) as [-> Hfile].
  destruct (job_proxy_config (ps_config ps) v) as [proxy_config|].
  - destruct (YouTubeMonitor.split_video E (yt_config ps) fs1 out 5 _)
      as [[[|part parts] fs2] tr2];
      (split; [intros _|discriminate]);
      (split; [apply remove_lookup|now rewrite !app_assoc, last_snoc]).
  - split; [intros [x Hx]; discriminate|]. intros _.
    split; [reflexivity|]. split; [exact Hfile|exact Hev].
Qed.

Lemma push_job_removes_download_witness :
  (process_video_async_body Examples.all_succeed
     (new_pubsub Examples.two_channels Examples.two_channels) ∅
     Examples.video_a).1.2 !! "dl/new_video_vidA.mp4"%string = None /\
  exists f,
    (process_video_async_body Examples.all_succeed
       (new_pubsub Examples.incomplete_proxy Examples.incomplete_proxy) ∅
       Examples.video_a).1.2 !! "dl/new_video_vidA.mp4"%string = Some f /\
    (0 < file_size f)%N.
Proof.
  split.
  - pose proof (push_job_removes_download Examples.all_succeed
                  (new_pubsub Examples.two_channels Examples.two_channels) ∅
                  Examples.video_a "dl/new_video_vidA.mp4") as H.
    destruct (process_video_async_body _ _ _ _) as [[ps' fs'] tr].
    cbn [fst snd]. destruct H as [H _].
    + reflexivity.
    + reflexivity.
    + vm_compute. discriminate.
    + apply H. now eexists.
  - pose proof (push_job_removes_download Examples.all_succeed
                  (new_pubsub Examples.incomplete_proxy
                     Examples.incomplete_proxy) ∅
                  Examples.video_a "dl/new_video_vidA.mp4") as H.
    destruct (process_video_async_body _ _ _ _) as [[ps' fs'] tr].
    cbn [fst snd]. destruct H as [_ H].
    + reflexivity.
    + reflexivity.
    + vm_compute. discriminate.
    + destruct H as (_ & Hfile & _); [reflexivity|exact Hfile].
Defined.

(** X15.  Delivering the same notification a second time does
    nothing: after a notification has been handled, whatever its
    outcome, the same video is rejected by the dedup check, with the
    state and the disk unchanged and no event. *)
Theorem push_redelivery_is_noop (E E' : env) (ps : pubsub)
    (fs fs' : filesystem) (v : video) :
  let ps1 := (video_notification_callback E ps fs v).1.1 in
  video_notification_callback E' ps1 fs' v = (ps1, fs', []).
Proof.
  intros ps1.
  assert (Hin : video_id v ∈ processed_videos ps1).
  { destruct (decide (video_id v ∈ processed_videos ps)) as [Hold|Hnew].
    - subst ps1. unfold video_notification_callback.
      apply callback_admit_None in Hold as Hadmit. now rewrite Hadmit.
    - pose proof (callback_marks_before_job E ps fs v Hnew) as H.
      apply (f_equal fst) in H. cbn [fst dedup_state] in H.
      fold ps1 in H. rewrite H.
      apply elem_of_union_l, elem_of_singleton. reflexivity. }
  unfold video_notification_callback.
  apply callback_admit_None in Hin. now rewrite Hin.
Qed.

(** X16.  With [auto_upload] switched off, a notification for a new
    video is counted and its id is marked and saved, but nothing is
    downloaded: the disk is untouched and there is no event.  The
    video is rejected as already processed from then on. *)
Theorem auto_upload_off_marks_only (E : env) (ps : pubsub) (fs : filesystem)
    (v : video) :
  auto_upload (ps_config ps) = Some false ->
  video_id v ∉ processed_videos ps ->
  let '(ps', fs', tr) := video_notification_callback E ps fs v in
  fs' = fs /\ tr = [] /\
  processed_videos ps' = {[video_id v]} ∪ processed_videos ps /\
  YouTubeMonitorPubSub.processed_videos_file ps'
    = {[video_id v]} ∪ processed_videos ps /\
  notifications_received ps' = S (notifications_received ps) /\
  videos_processed ps' = videos_processed ps /\
  push_accepts ps' v = false.
Proof.
  intros Hoff Hnew. unfold video_notification_callback.
  destruct (callback_admit ps v) as [ps1|] eqn:Hadmit.
  2:{ apply callback_admit_None in Hadmit. contradiction. }
  assert (Hps1 : ps1 = PubSub (ps_config ps) ({[video_id v]} ∪ processed_videos ps)
                         (processing_video ps) (S (notifications_received ps))
                         (videos_processed ps)
                         ({[video_id v]} ∪ processed_videos ps) (yt_config ps)).
  { unfold callback_admit in Hadmit.
    destruct (bool_decide _); [discriminate|]. now injection Hadmit as <-. }
  subst ps1. cbn [ps_config]. rewrite Hoff. cbn [default from_option id].
  repeat (split; [reflexivity|]).
  unfold push_accepts. apply bool_decide_eq_false_2.
  intros [ps2 Hsome].
  assert (Hnone : callback_admit
                    (PubSub (ps_config ps) ({[video_id v]} ∪ processed_videos ps)
                       (processing_video ps) (S (notifications_received ps))
                       (videos_processed ps)
                       ({[video_id v]} ∪ processed_videos ps) (yt_config ps)) v
                  = None).
  { apply callback_admit_None. cbn [processed_videos].
    apply elem_of_union_l, elem_of_singleton. reflexivity. }
  congruence.
Qed.

Lemma auto_upload_off_marks_only_witness :
  let cfg := Config (Some []) (Some false) (Some "dl") None None in
  let '(ps', fs', tr) :=
    video_notification_callback Examples.all_succeed (new_pubsub cfg cfg) ∅
      Examples.video_a in
  fs' = ∅ /\ tr = [] /\ push_accepts ps' Examples.video_a = false.
Proof.
  intros cfg.
  pose proof (auto_upload_off_marks_only Examples.all_succeed
                (new_pubsub cfg cfg) ∅ Examples.video_a) as H.
  destruct (video_notification_callback Examples.all_succeed
              (new_pubsub cfg cfg) ∅ Examples.video_a) as [[ps' fs'] tr].
  destruct H as (Hfs & Htr & _ & _ & _ & _ & Hrej).
  - reflexivity.
  - apply not_elem_of_empty.
  - auto.
Defined.

Lemma process_video_async_body_flag E ps fs v :
  processing_video (process_video_async_body E ps fs v).1.1
  = processing_video ps.
Proof.
  unfold process_video_async_body.
  destruct (truthy (video_url v)); simpl; [|reflexivity].
  destruct (job_output_path ps v) as [out|]; [|reflexivity].
  destruct (Download.download_video E fs out) as [[[q|] fs1] tr1];
    [|reflexivity].
  destruct (job_proxy_config (ps_config ps) v) as [proxy_config|];
    [|reflexivity].
  destruct (YouTubeMonitor.split_video E (yt_config ps) fs1 q 5 _)
    as [[[|part parts] fs2] tr2]; reflexivity.
Qed.

(** X17.  Handling a notification never leaves the in-flight flag
    set: if the flag is clear before [video_notification_callback], it
    is clear after it, whichever stage failed or succeeded.  If the
    flag is set, [process_video_async] drops the video without any
    effect. *)
Theorem notification_releases_flag (E : env) (ps : pubsub) (fs : filesystem)
    (v : video) :
  (processing_video ps = false ->
   processing_video (video_notification_callback E ps fs v).1.1 = false) /\
  (processing_video ps = true ->
   process_video_async E ps fs v = (ps, fs, [])).
Proof.
  split.
  - intros Hclear. unfold video_notification_callback.
    destruct (callback_admit ps v) as [ps1|] eqn:Hadmit; [|exact Hclear].
    apply callback_admit_flag in Hadmit.
    destruct (default true (auto_upload (ps_config ps1)));
      [|cbn [fst]; now rewrite Hadmit].
    unfold process_video_async, process_video_async_enter.
    rewrite Hadmit, Hclear.
    destruct (process_video_async_body E (set_processing_video ps1 true) fs v)
      as [[ps2 fs1] tr]. reflexivity.
  - intros Hset. unfold process_video_async, process_video_async_enter.
    now rewrite Hset.
Qed.

Lemma notification_releases_flag_witness :
  let ps := new_pubsub Examples.two_channels Examples.two_channels in
  processing_video
    (video_notification_callback Examples.always_raising ps ∅
       Examples.video_a).1.1 = false.
Proof.
  intros ps.
  apply (notification_releases_flag Examples.always_raising ps ∅
           Examples.video_a).
  reflexivity.
Defined.

Lemma match_channel_Some cs vcid c :
  match_channel cs vcid = Some c ->
  c ∈ cs /\ default ""%string (channel_id c) = vcid.
Proof.
  induction cs as [|c0 cs IH]; simpl; [discriminate|].
  destruct (String.eqb_spec (default ""%string (channel_id c0)) vcid) as [Heq|Hne].
  - intros [= <-]. split; [apply list_elem_of_here|exact Heq].
  - intros H. destruct (IH H) as [Hin Hid].
    split; [now apply list_elem_of_further|exact Hid].
Qed.

Lemma match_channel_None cs vcid :
  match_channel cs vcid = None ->
  forall c, c ∈ cs -> default ""%string (channel_id c) <> vcid.
Proof.
  induction cs as [|c0 cs IH]; simpl; intros Hnone c Hin.
  - now apply elem_of_nil in Hin.
  - destruct (String.eqb_spec (default ""%string (channel_id c0)) vcid) as [Heq|Hne];
      [discriminate|].
    apply elem_of_cons in Hin as [->|Hin]; [exact Hne|now apply IH].
Qed.

(** X18.  Routing only ever returns a configured channel.  When the
    video carries a channel id and some configured channel has that
    id, the channel returned has that id too: the fall-back to the
    first channel is taken only when no channel matches. *)
Theorem routing_returns_configured_channel (cfg : config) (v : video)
    (c : channel) :
  find_channel_for_video cfg v = Some c ->
  c ∈ default [] (channels cfg) /\
  (truthy (video_channel_id v) = true ->
   (exists c', c' ∈ default [] (channels cfg) /\
      default ""%string (channel_id c') = default ""%string (video_channel_id v)) ->
   default ""%string (channel_id c) = default ""%string (video_channel_id v)).
Proof.
  unfold find_channel_for_video, first_channel. intros Hfind.
  assert (Hfirst : forall c0,
            match default [] (channels cfg) with
            | default_channel :: _ =>
                match channel_name default_channel with
                | Some _ => Some default_channel
                | None => None
                end
            | [] => None
            end = Some c0 -> c0 ∈ default [] (channels cfg)).
  { intros c0. destruct (default [] (channels cfg)) as [|d ds]; [discriminate|].
    destruct (channel_name d); [|discriminate].
    intros [= <-]. apply list_elem_of_here. }
  destruct (truthy (video_channel_id v)); cbn [negb] in Hfind.
  - destruct (match_channel (default [] (channels cfg))
                (default ""%string (video_channel_id v))) as [c1|] eqn:Hm.
    + injection Hfind as <-. apply match_channel_Some in Hm as [Hin Hid].
      split; [exact Hin|]. intros _ _. exact Hid.
    + split; [now apply Hfirst|].
      intros _ (c' & Hin' & Hid'). now destruct (match_channel_None _ _ Hm c' Hin').
  - split; [now apply Hfirst|]. discriminate.
Qed.

Lemma routing_returns_configured_channel_witness :
  find_channel_for_video Examples.two_channels Examples.video_b
  = Some (Channel (Some "B") (Some "UC_B") (Some "acct_b") None) /\
  Channel (Some "B") (Some "UC_B") (Some "acct_b") None
    ∈ default [] (channels Examples.two_channels).
Proof.
  split; [reflexivity|].
  apply (routing_returns_configured_channel Examples.two_channels
           Examples.video_b).
  reflexivity.
Defined.

End PushJob.

(* ------------------------------------------------------------------ *)
(** ** Splitting with uploads *)

Section SplitWithUploads.
Import YouTubeMonitor Upload.

Lemma part_event_mono c parts parts' e :
  (forall x, x ∈ parts -> x ∈ parts') ->
  part_event c parts e -> part_event c parts' e.
Proof.
  intros Hsub. destruct e; simpl; auto.
  intros [-> Hin]. auto.
Qed.

Lemma upload_part_worker_events c E fs part :
  Forall (part_event c [part]) (upload_part_worker E fs part c).2 /\
  (upload_attempts (upload_part_worker E fs part c).2 <= 1)%nat.
Proof.
  unfold upload_part_worker.
  destruct (exists_ fs part); simpl;
    [|split; [apply Forall_nil_2|unfold upload_attempts; simpl; lia]].
  destruct (getsize fs part =? 0)%N;
    [split; [apply Forall_nil_2|unfold upload_attempts; simpl; lia]|].
  destruct (upload_video E c part); simpl;
    (split; [repeat constructor; apply list_elem_of_here
            |unfold upload_attempts; simpl; lia]).
Qed.

Lemma upload_attempts_app tr tr' :
  upload_attempts (tr ++ tr') = (upload_attempts tr + upload_attempts tr')%nat.
Proof. unfold upload_attempts. now rewrite List.filter_app, length_app. Qed.

Lemma run_upload_workers_events c E fs parts :
  Forall (part_event c parts) (run_upload_workers E fs parts c).2 /\
  (upload_attempts (run_upload_workers E fs parts c).2 <= length parts)%nat.
Proof.
  revert fs. induction parts as [|part rest IH]; intros fs; simpl.
  { split; [apply Forall_nil_2|unfold upload_attempts; simpl; lia]. }
  destruct (upload_part_worker_events c E fs part) as [Hw Hn].
  destruct (upload_part_worker E fs part c) as [fs1 tr1].
  destruct (IH fs1) as [Hr Hm].
  destruct (run_upload_workers E fs1 rest c) as [fs2 tr2].
  cbn [snd] in *. split.
  - apply Forall_app. split.
    + eapply Forall_impl; [exact Hw|]. intros e. apply part_event_mono.
      intros x ->%list_elem_of_singleton. apply list_elem_of_here.
    + eapply Forall_impl; [exact Hr|]. intros e. apply part_event_mono.
      intros x Hx. now apply list_elem_of_further.
  - rewrite upload_attempts_app. lia.
Qed.

(** X19.  [split_video] makes at most one upload attempt per part it
    returns, and none when [auto_upload] is off.  Every event it
    causes is an upload of a returned part to the given account or the
    removal of a returned part: it uploads and removes nothing else. *)
Theorem split_video_uploads_only_parts (E : env) (cfg : config)
    (fs : filesystem) (p : string) (n : Z) (c : string) :
  let '(parts, _, tr) := split_video E cfg fs p n c in
  (upload_attempts tr <= length parts)%nat /\
  Forall (part_event c parts) tr /\
  (auto_upload cfg = Some false -> tr = []).
Proof.
  unfold split_video.
  destruct (exists_ fs p); cbn [negb];
    [|split; [unfold upload_attempts; simpl; lia|split; [apply Forall_nil_2|reflexivity]]].
  destruct (VideoDurationUtils.process_video_for_upload (encode E) fs p)
    as [[[[|] msg] [q|]] fs1];
    try (split; [unfold upload_attempts; simpl; lia|split; [apply Forall_nil_2|reflexivity]]).
  destruct (ffmpeg_split_video_files E fs1 q n _) as [[|part parts] fs2];
    [split; [unfold upload_attempts; simpl; lia|split; [apply Forall_nil_2|reflexivity]]|].
  destruct (auto_upload cfg) as [[|]|]; cbn [default from_option id];
    try (split; [unfold upload_attempts; simpl; lia|split; [apply Forall_nil_2|reflexivity]]).
  - destruct (run_upload_workers_events c E fs2 (part :: parts)) as [He Hn].
    destruct (run_upload_workers E fs2 (part :: parts) c) as [fs3 tr].
    split; [exact Hn|]. split; [exact He|discriminate].
  - destruct (run_upload_workers_events c E fs2 (part :: parts)) as [He Hn].
    destruct (run_upload_workers E fs2 (part :: parts) c) as [fs3 tr].
    split; [exact Hn|]. split; [exact He|discriminate].
Qed.

Lemma split_video_uploads_only_parts_witness :
  let cfg := Config None (Some false) (Some "dl") None None in
  let fs : filesystem := {[ "dl/v.mp4"%string := File 5000 (Some 70%Q) ]} in
  (split_video Examples.all_succeed cfg fs "dl/v.mp4" 3 "acct").2 = [].
Proof.
  intros cfg fs.
  pose proof (split_video_uploads_only_parts Examples.all_succeed cfg fs
                "dl/v.mp4" 3 "acct") as H.
  destruct (split_video Examples.all_succeed cfg fs "dl/v.mp4" 3 "acct")
    as [[parts fs'] tr].
  destruct H as (_ & _ & H). apply H. reflexivity.
Defined.

End SplitWithUploads.

(* ------------------------------------------------------------------ *)
(** ** Paths, and what splitting leaves alone *)

Section Paths.
Import YouTubeMonitor.

Lemma split_files_frame E fs q n md x :
  (forall i, part_path q i <> x) ->
  (ffmpeg_split_video_files E fs q n md).2 !! x = fs !! x /\
  Forall (fun y => exists i, y = part_path q i)
    (ffmpeg_split_video_files E fs q n md).1.
Proof.
  intros Hx. unfold ffmpeg_split_video_files.
  destruct (exists_ fs q); cbn [negb]; [|split; [reflexivity|constructor]].
  destruct (fs !! q ≫= media_duration) as [d|];
    [|split; [reflexivity|constructor]].
  cbn [fst snd].
  generalize (FfmpegSplit.ffmpeg_split_video d n md
                (fun i => bool_decide (is_Some (extract E (part_path q i))))).
  intros parts. split.
  - revert fs. induction parts as [|pt parts IH]; intros fs; simpl;
      [reflexivity|].
    rewrite IH. destruct (extract E _); [|reflexivity].
    apply lookup_insert_ne. apply Hx.
  - induction parts as [|pt parts IH]; simpl; constructor;
      [now eexists|exact IH].
Qed.

Lemma upload_part_worker_frame E fs part c x :
  x <> part -> (Upload.upload_part_worker E fs part c).1 !! x = fs !! x.
Proof.
  intros Hne. unfold Upload.upload_part_worker.
  destruct (exists_ fs part); simpl; [|reflexivity].
  destruct (getsize fs part =? 0)%N; [reflexivity|].
  destruct (upload_video E c part); simpl; [|reflexivity].
  unfold remove. now apply lookup_delete_ne.
Qed.

Lemma run_upload_workers_frame E fs parts c x :
  x ∉ parts -> (run_upload_workers E fs parts c).1 !! x = fs !! x.
Proof.
  revert fs. induction parts as [|part rest IH]; intros fs Hx; simpl;
    [reflexivity|].
  apply not_elem_of_cons in Hx as [Hne Hrest].
  pose proof (upload_part_worker_frame E fs part c x Hne) as Hw.
  destruct (Upload.upload_part_worker E fs part c) as [fs1 tr1].
  specialize (IH fs1 Hrest).
  destruct (run_upload_workers E fs1 rest c) as [fs2 tr2].
  cbn [fst] in *. congruence.
Qed.

Lemma cleanup_extended_frame fs q x :
  x <> q -> VideoDurationUtils.cleanup_extended_video fs q !! x = fs !! x.
Proof.
  intros Hne. unfold VideoDurationUtils.cleanup_extended_video.
  destruct (exists_ fs q && py_in_str "_extended" q); [|reflexivity].
  unfold remove. now apply lookup_delete_ne.
Qed.

Lemma process_video_paths encode fs p ok msg q fs1 :
  VideoDurationUtils.process_video_for_upload encode fs p
  = ((ok, msg, Some q), fs1) ->
  (q = p /\ fs1 = fs) \/
  (q = splitext_root p +:+ "_extended.mp4" /\
   exists f, fs1 = <[q := f]> fs).
Proof.
  destruct (fs !! p ≫= media_duration) as [D|] eqn:Hread.
  - assert (Hfile : exists sz, fs !! p = Some (File sz (Some D))).
    { destruct (fs !! p) as [[sz [D'|]]|]; try discriminate.
      injection Hread as ->. now exists sz. }
    destruct Hfile as [sz Hfile].
    rewrite (process_readable encode fs p sz D Hfile).
    destruct (Qlt_bool D 3); [discriminate|].
    destruct (Qlt_bool 120 D); [discriminate|].
    destruct (Qlt_bool D 60).
    + destruct (encode _) as [sz'|]; [|discriminate].
      intros [= <- <- <- <-]. right. split; [reflexivity|]. now eexists.
    + intros [= <- <- <- <-]. now left.
  - rewrite (process_unreadable encode fs p Hread). discriminate.
Qed.

(** X20.  [split_video] never touches the video it is given: whatever
    the collaborators do, the file at [video_path] is after the call
    what it was before.  The extended copy and the parts are written
    under other names, and only those are removed. *)
Theorem split_video_keeps_original (E : env) (cfg : config) (fs : filesystem)
    (p : string) (n : Z) (c : string) :
  (split_video E cfg fs p n c).1.2 !! p = fs !! p.
Proof.
  destruct (derived_names_differ p) as (Hext & Hpart & Hpart').
  unfold split_video.
  destruct (exists_ fs p); cbn [negb]; [|reflexivity].
  destruct (VideoDurationUtils.process_video_for_upload (encode E) fs p)
    as [[[ok msg] [q|]] fs1] eqn:Hproc.
  2:{ destruct ok; cbn [fst snd].
      - destruct (fs !! p ≫= media_duration) as [D|] eqn:Hread.
        + assert (Hfile : exists sz, fs !! p = Some (File sz (Some D))).
          { destruct (fs !! p) as [[sz [D'|]]|]; try discriminate.
            injection Hread as ->. now exists sz. }
          destruct Hfile as [sz Hfile].
          rewrite (process_readable (encode E) fs p sz D Hfile) in Hproc.
          destruct (Qlt_bool D 3); [discriminate|].
          destruct (Qlt_bool 120 D); [discriminate|].
          destruct (Qlt_bool D 60); [|discriminate].
          destruct (encode E _); discriminate.
        + rewrite (process_unreadable (encode E) fs p Hread) in Hproc.
          discriminate.
      - pose proof (process_rejected_fs (encode E) fs p) as Hfs.
        rewrite Hproc in Hfs. cbn [fst snd] in Hfs. now rewrite Hfs. }
  destruct ok.
  2:{ pose proof (process_rejected_fs (encode E) fs p) as Hfs.
      rewrite Hproc in Hfs. cbn [fst snd] in Hfs. now rewrite Hfs. }
  assert (Hq : (forall i, part_path q i <> p) /\ fs1 !! p = fs !! p /\
               (String.eqb q p = false -> q <> p)).
  { destruct (process_video_paths _ _ _ _ _ _ _ Hproc)
      as [[-> ->]|(-> & f & ->)].
    - split; [exact Hpart|]. split; [reflexivity|].
      intros Hb. now apply String.eqb_neq in Hb.
    - split; [exact Hpart'|]. split; [now apply lookup_insert_ne|].
      intros _. exact Hext. }
  destruct Hq as (Hparts & Hfs1 & Hneq).
  destruct (split_files_frame E fs1 q n
              (default 113 (video_duration_limit cfg)) p Hparts)
    as [Hfs2 Hnames].
  destruct (ffmpeg_split_video_files E fs1 q n _) as [split_videos fs2].
  cbn [fst snd] in Hfs2, Hnames.
  assert (Hnotin : p ∉ split_videos).
  { intros Hin. rewrite Forall_forall in Hnames.
    destruct (Hnames _ Hin) as [i Hi]. now apply (Hparts i). }
  assert (Hfs3 : forall fs3 tr,
            match split_videos with
            | [] => (fs2, [])
            | _ :: _ =>
                if default true (auto_upload cfg)
                then run_upload_workers E fs2 split_videos c
                else (fs2, [])
            end = (fs3, tr) -> fs3 !! p = fs !! p).
  { intros fs3 tr Hrun.
    destruct split_videos as [|part parts].
    - injection Hrun as <- _. congruence.
    - destruct (default true (auto_upload cfg)).
      + pose proof (run_upload_workers_frame E fs2 (part :: parts) c p Hnotin)
          as Hw.
        rewrite Hrun in Hw. cbn [fst] in Hw. congruence.
      + injection Hrun as <- _. congruence. }
  destruct (match split_videos with
            | [] => (fs2, [])
            | _ :: _ => _
            end) as [fs3 tr] eqn:Hrun.
  specialize (Hfs3 fs3 tr eq_refl). cbn [fst snd].
  destruct (String.eqb q p) eqn:Hqp; [exact Hfs3|].
  rewrite cleanup_extended_frame; [exact Hfs3|].
  intros Heq. now apply (Hneq eq_refl).
Qed.

End Paths.


(* ------------------------------------------------------------------ *)
(** ** Proxy strings *)

Section ProxyStrings.
Local Open Scope nat_scope.

Lemma occurrences_app c (a b : string) :
  occurrences c (a +:+ b) = occurrences c a + occurrences c b.
Proof.
  induction a as [|x a IH]; [reflexivity|].
  change (occurrences c (String x (a +:+ b))
          = occurrences c (String x a) + occurrences c b).
  cbn [occurrences]. rewrite IH. lia.
Qed.

Lemma split_char_length sep s :
  length (split_char sep s) = S (occurrences sep s).
Proof.
  induction s as [|c s IH]; [reflexivity|]. cbn [split_char occurrences].
  destruct (Ascii.eqb c sep); cbn [length]; [now rewrite IH|].
  destruct (split_char sep s) as [|h t]; [discriminate IH|].
  cbn [length] in *. lia.
Qed.

Lemma split_char_free sep a :
  occurrences sep a = 0 -> split_char sep a = [a].
Proof.
  induction a as [|c a IH]; [reflexivity|]. cbn [split_char occurrences].
  destruct (Ascii.eqb c sep); [discriminate|].
  intros H. now rewrite IH.
Qed.

Lemma split_char_app sep a b :
  occurrences sep a = 0 ->
  split_char sep (a +:+ String sep b) = a :: split_char sep b.
Proof.
  induction a as [|c a IH].
  - intros _. change (split_char sep (String sep b) = "" :: split_char sep b).
    cbn [split_char]. now rewrite Ascii.eqb_refl.
  - change (String c a +:+ String sep b) with (String c (a +:+ String sep b)).
    cbn [split_char occurrences].
    destruct (Ascii.eqb c sep); [discriminate|].
    intros H. now rewrite IH.
Qed.

Lemma not_four_parts {A} (l : list string) (f : string -> string -> string -> string -> A) :
  length l <> 4 ->
  match l with
  | [a; b; c; d] => Some (f a b c d)
  | _ => None
  end = None.
Proof.
  destruct l as [|a [|b [|c [|d [|e l]]]]]; cbn [length]; intros H;
    try reflexivity.
  now contradiction H.
Qed.

(** X21.  A channel's proxy entry reaches the uploader as
    [http://user:password@ip:port] exactly when none of its four
    fields contains a colon; otherwise the string built from it no
    longer splits into four parts and the upload is made without a
    proxy. *)
Theorem proxy_entry_round_trip (p : proxy) :
  proxy_url (Some (proxy_string p)) =
  if colon_free (proxy_ip p) && colon_free (proxy_port p)
     && colon_free (proxy_username p) && colon_free (proxy_password p)
  then Some ("http://" +:+ proxy_username p +:+ ":" +:+ proxy_password p
               +:+ "@" +:+ proxy_ip p +:+ ":" +:+ proxy_port p)
  else None.
Proof.
  destruct p as [ip port user pw]. unfold proxy_url, proxy_string.
  cbn [proxy_ip proxy_port proxy_username proxy_password from_option id].
  assert (Htruthy : truthy (Some (ip +:+ ":" +:+ port +:+ ":" +:+ user
                                   +:+ ":" +:+ pw)) = true).
  { unfold truthy. destruct ip; reflexivity. }
  rewrite Htruthy.
  change (":" +:+ port +:+ ":" +:+ user +:+ ":" +:+ pw)
    with (String colon (port +:+ String colon (user +:+ String colon pw))).
  unfold colon_free.
  destruct (Nat.eqb_spec (occurrences colon ip) 0) as [Hip|Hip];
    destruct (Nat.eqb_spec (occurrences colon port) 0) as [Hport|Hport];
    destruct (Nat.eqb_spec (occurrences colon user) 0) as [Huser|Huser];
    destruct (Nat.eqb_spec (occurrences colon pw) 0) as [Hpw|Hpw];
    cbn [andb];
    try (apply not_four_parts; rewrite split_char_length;
         rewrite !occurrences_app; cbn [occurrences];
         rewrite !occurrences_app; cbn [occurrences];
         rewrite !occurrences_app; cbn [occurrences];
         rewrite Ascii.eqb_refl; lia).
  rewrite !split_char_app, split_char_free by assumption. reflexivity.
Qed.

End ProxyStrings.

(* ------------------------------------------------------------------ *)
(** ** Channel administration and routing *)

Section ChannelAdministration.
Import YouTubeMonitorPubSub ChannelAdmin.

Lemma match_channel_app cs ds vid :
  match_channel (cs ++ ds) vid =
  match match_channel cs vid with
  | Some c => Some c
  | None => match_channel ds vid
  end.
Proof.
  induction cs as [|c cs IH]; [reflexivity|]. cbn [app match_channel].
  now destruct (String.eqb _ vid).
Qed.

Lemma match_channel_elem cs vid c :
  match_channel cs vid = Some c ->
  c ∈ cs /\ default "" (channel_id c) = vid.
Proof.
  induction cs as [|d cs IH]; cbn [match_channel]; [discriminate|].
  destruct (String.eqb_spec (default "" (channel_id d)) vid) as [He|_].
  - intros [= <-]. split; [left|exact He].
  - intros H. destruct (IH H) as [Hin Hid]. split; [now right|exact Hid].
Qed.

Lemma match_channel_finds cs cid c :
  c ∈ cs -> channel_id c = Some cid -> is_Some (match_channel cs cid).
Proof.
  induction cs as [|d cs IH]; intros Hin Hid.
  - now apply elem_of_nil in Hin.
  - cbn [match_channel].
    destruct (String.eqb_spec (default "" (channel_id d)) cid) as [_|Hne];
      [now eexists|].
    apply elem_of_cons in Hin as [->|Hin]; [|now apply IH].
    rewrite Hid in Hne. now contradiction Hne.
Qed.

Lemma first_channel_elem cfg c :
  first_channel cfg = Some c -> c ∈ default [] (channels cfg).
Proof.
  unfold first_channel. destruct (default [] (channels cfg)) as [|d cs];
    [discriminate|].
  destruct (channel_name d); [|discriminate]. intros [= <-]. left.
Qed.

Lemma find_channel_elem cfg v c :
  find_channel_for_video cfg v = Some c -> c ∈ default [] (channels cfg).
Proof.
  unfold find_channel_for_video.
  destruct (negb (truthy (video_channel_id v)));
    [apply first_channel_elem|].
  destruct (match_channel _ _) as [d|] eqn:Hm; [|apply first_channel_elem].
  intros [= <-]. now apply match_channel_elem in Hm as [Hin _].
Qed.

Lemma filter_elem {A} (f : A -> bool) (l : list A) x :
  x ∈ List.filter f l -> x ∈ l /\ f x = true.
Proof.
  intros H. apply list_elem_of_In, filter_In in H as [Hin Hf].
  split; [now apply list_elem_of_In|exact Hf].
Qed.

Lemma filter_all {A} (f : A -> bool) (l : list A) :
  Forall (fun x => f x = true) l -> List.filter f l = l.
Proof.
  induction 1 as [|x l Hx _ IH]; [reflexivity|].
  cbn [List.filter]. now rewrite Hx, IH.
Qed.

Lemma set_channels_id cfg cs :
  channels cfg = Some cs -> set_channels cfg (Some cs) = cfg.
Proof. destruct cfg; cbn. now intros ->. Qed.

(** X22.  After [remove_channel] no notification is routed to an entry
    with the removed id, whether or not saving the configuration
    worked: the entry returned is one of those configured before, with
    another id. *)
Theorem removed_channel_not_routed (cfg : config) (cid : string)
    (io_ok : bool) (v : video) (c : channel) :
  find_channel_for_video (remove_channel cfg cid io_ok).2 v = Some c ->
  channel_id c <> Some cid /\ c ∈ default [] (channels cfg).
Proof.
  intros H. apply find_channel_elem in H. cbn in H.
  apply filter_elem in H as [Hin Hf].
  split; [|exact Hin]. now apply bool_decide_eq_true_1 in Hf.
Qed.

Lemma removed_channel_not_routed_witness :
  find_channel_for_video
    (remove_channel Examples.two_channels "UC_A" true).2 Examples.video_a
    = Some (Channel (Some "B") (Some "UC_B") (Some "acct_b") None) /\
  channel_id (Channel (Some "B") (Some "UC_B") (Some "acct_b") None)
    <> Some "UC_A"%string /\
  Channel (Some "B") (Some "UC_B") (Some "acct_b") None
    ∈ default [] (channels Examples.two_channels).
Proof.
  split; [reflexivity|].
  apply (removed_channel_not_routed Examples.two_channels "UC_A" true
           Examples.video_a).
  reflexivity.
Defined.

(** X23.  [add_channel] does not look for an entry with the same id:
    when one exists, the appended entry is never reached and every
    video is routed as before, so the account given to [add_channel]
    is not used. *)
Theorem add_existing_channel_shadowed (cfg : config) (cs : list channel)
    (cid name cookie : string) (io_ok : bool) (old : channel) (v : video) :
  channels cfg = Some cs ->
  old ∈ cs -> channel_id old = Some cid ->
  find_channel_for_video (add_channel cfg cid name cookie io_ok).2 v
  = find_channel_for_video cfg v.
Proof.
  intros Hcs Hin Hid. destruct cfg as [chs au dp vp vdl].
  cbn [channels] in Hcs. subst chs.
  unfold add_channel, set_channels, find_channel_for_video, first_channel.
  cbn [snd channels from_option id].
  assert (Hfirst : forall n : channel,
    match cs ++ [n] with
    | default_channel :: _ =>
        match channel_name default_channel with
        | Some _ => Some default_channel
        | None => None
        end
    | [] => None
    end =
    match cs with
    | default_channel :: _ =>
        match channel_name default_channel with
        | Some _ => Some default_channel
        | None => None
        end
    | [] => None
    end).
  { intros n. destruct cs as [|d cs'];
      [now apply elem_of_nil in Hin|reflexivity]. }
  destruct (negb (truthy (video_channel_id v))); [apply Hfirst|].
  rewrite match_channel_app.
  destruct (match_channel cs _) as [c|] eqn:Hm; [reflexivity|].
  cbn [match_channel new_channel channel_id from_option id].
  destruct (String.eqb_spec cid (from_option id "" (video_channel_id v)))
    as [He|_]; [|apply Hfirst].
  rewrite <- He in Hm.
  destruct (match_channel_finds cs cid old Hin Hid) as [c Hc]. congruence.
Qed.

Lemma add_existing_channel_shadowed_witness :
  Push.job_tiktok_cookie
    (add_channel Examples.two_channels "UC_A" "A again" "acct_new" true).2
    Examples.video_a = "acct_a"%string.
Proof.
  unfold Push.job_tiktok_cookie.
  rewrite (add_existing_channel_shadowed Examples.two_channels
             [Channel (Some "A") (Some "UC_A") (Some "acct_a") None;
              Channel (Some "B") (Some "UC_B") (Some "acct_b") None]
             "UC_A" "A again" "acct_new" true
             (Channel (Some "A") (Some "UC_A") (Some "acct_a") None)
             Examples.video_a);
    [reflexivity|reflexivity|left|reflexivity].
Defined.

(** X24.  A channel added under an id no entry has yet receives the
    videos of that id, with the account given to [add_channel].  This
    holds also when [add_channel] returns [False] because the
    configuration could not be saved or the subscription raised: the
    entry is already in the running configuration. *)
Theorem add_fresh_channel_routes (cfg : config) (cs : list channel)
    (cid name cookie : string) (io_ok : bool) (v : video) :
  channels cfg = Some cs ->
  match_channel cs cid = None ->
  cid <> ""%string ->
  video_channel_id v = Some cid ->
  add_channel cfg cid name cookie io_ok
  = (io_ok, set_channels cfg (Some (cs ++ [new_channel cid name cookie]))) /\
  find_channel_for_video (add_channel cfg cid name cookie io_ok).2 v
  = Some (new_channel cid name cookie) /\
  job_tiktok_cookie (add_channel cfg cid name cookie io_ok).2 v = cookie.
Proof.
  intros Hcs Hfresh Hne Hv. unfold add_channel. rewrite Hcs. cbn [snd].
  assert (Hfind :
    find_channel_for_video
      (set_channels cfg (Some (cs ++ [new_channel cid name cookie]))) v
    = Some (new_channel cid name cookie)).
  { unfold find_channel_for_video. rewrite Hv.
    cbn [truthy negb set_channels channels from_option id].
    apply String.eqb_neq in Hne. rewrite Hne. cbn [negb].
    rewrite match_channel_app, Hfresh.
    cbn [match_channel new_channel channel_id from_option id].
    now rewrite String.eqb_refl. }
  split; [reflexivity|]. split; [exact Hfind|].
  unfold job_tiktok_cookie. now rewrite Hfind.
Qed.

Lemma add_fresh_channel_routes_witness :
  job_tiktok_cookie
    (add_channel Examples.two_channels "UC_C" "C" "acct_c" false).2
    (Video (Some "vidC") None None None (Some "UC_C") None)
  = "acct_c"%string.
Proof.
  apply (add_fresh_channel_routes Examples.two_channels
           [Channel (Some "A") (Some "UC_A") (Some "acct_a") None;
            Channel (Some "B") (Some "UC_B") (Some "acct_b") None]
           "UC_C" "C" "acct_c" false
           (Video (Some "vidC") None None None (Some "UC_C") None));
    [reflexivity|reflexivity|discriminate|reflexivity].
Defined.

(** X25.  Adding a channel and removing it again gives the
    configuration that removing alone gives, and gives back the
    configuration itself when no entry had that id. *)
Theorem add_then_remove (cfg : config) (cs : list channel)
    (cid name cookie : string) (io1 io2 : bool) :
  channels cfg = Some cs ->
  (remove_channel (add_channel cfg cid name cookie io1).2 cid io2).2
  = (remove_channel cfg cid io2).2 /\
  (Forall (fun ch => channel_id ch <> Some cid) cs ->
   (remove_channel (add_channel cfg cid name cookie io1).2 cid io2).2 = cfg).
Proof.
  intros Hcs.
  assert (Heq :
    (remove_channel (add_channel cfg cid name cookie io1).2 cid io2).2
    = (remove_channel cfg cid io2).2).
  { unfold remove_channel, add_channel. rewrite Hcs.
    cbn [snd set_channels channels from_option id auto_upload
         download_path video_parts video_duration_limit].
    rewrite List.filter_app. cbn [List.filter new_channel channel_id].
    rewrite bool_decide_eq_false_2 by (intros H; now apply H).
    now rewrite app_nil_r. }
  split; [exact Heq|]. intros Hfree. rewrite Heq.
  unfold remove_channel. cbn [snd]. rewrite Hcs. cbn [from_option id].
  rewrite filter_all; [now apply set_channels_id|].
  eapply Forall_impl; [exact Hfree|].
  intros ch Hch. now apply bool_decide_eq_true_2.
Qed.

Lemma add_then_remove_witness :
  (remove_channel
     (add_channel Examples.two_channels "UC_C" "C" "acct_c" true).2
     "UC_C" true).2 = Examples.two_channels.
Proof.
  apply (add_then_remove Examples.two_channels
           [Channel (Some "A") (Some "UC_A") (Some "acct_a") None;
            Channel (Some "B") (Some "UC_B") (Some "acct_b") None]
           "UC_C" "C" "acct_c" true true); [reflexivity|].
  repeat constructor; discriminate.
Defined.

End ChannelAdministration.


(* ------------------------------------------------------------------ *)
(** ** Channel ids from URLs *)

Section ChannelUrls.

Lemma strip_prefix_Some p s r : strip_prefix p s = Some r -> s = p +:+ r.
Proof.
  revert s. induction p as [|a p IH]; intros [|b s]; cbn [strip_prefix];
    try discriminate.
  - now intros [= <-].
  - now intros [= <-].
  - destruct (Ascii.eqb_spec a b) as [->|_]; [|discriminate].
    intros H. now rewrite (IH _ H).
Qed.

Lemma after_first_Some sep s r :
  after_first sep s = Some r -> exists pre, s = pre +:+ sep +:+ r.
Proof.
  induction s as [|c s IH]; cbn [after_first].
  - destruct (strip_prefix sep "") as [r'|] eqn:Hp; [|discriminate].
    intros [= <-]. exists ""%string. exact (strip_prefix_Some _ _ _ Hp).
  - destruct (strip_prefix sep (String c s)) as [r'|] eqn:Hp.
    + intros [= <-]. exists ""%string. exact (strip_prefix_Some _ _ _ Hp).
    + intros H. destruct (IH H) as [pre ->]. now exists (String c pre).
Qed.

Lemma before_first_split sep s :
  exists post,
    s = before_first sep s +:+ post /\
    (post = ""%string \/ exists r, post = sep +:+ r).
Proof.
  induction s as [|c s IH]; cbn [before_first].
  - destruct (strip_prefix sep "") as [r|] eqn:Hp.
    + exists ""%string. split; [reflexivity|now left].
    + exists ""%string. split; [reflexivity|now left].
  - destruct (strip_prefix sep (String c s)) as [r|] eqn:Hp.
    + exists (String c s). split; [reflexivity|]. right. exists r.
      now apply strip_prefix_Some.
    + destruct IH as (post & Hs & Hpost). exists post.
      split; [|exact Hpost].
      change (String c s = String c (before_first sep s +:+ post)).
      now rewrite <- Hs.
Qed.

Lemma before_first_free (c : ascii) (s : string) :
  occurrences c (before_first (String c "") s) = 0%nat.
Proof.
  induction s as [|x s IH]; [reflexivity|].
  cbn [before_first strip_prefix].
  destruct (Ascii.eqb_spec c x) as [->|Hne]; [reflexivity|].
  cbn [occurrences]. rewrite IH.
  destruct (Ascii.eqb_spec x c) as [->|_]; [now contradiction Hne|reflexivity].
Qed.

(** X26.  The id [get_channel_id_from_url] returns contains no slash
    and stands in the URL right after an occurrence of ["channel/"];
    what follows it there is nothing, a slash, or a further
    ["channel/"].  The last case is an id that ends in ["channel"]: it
    is cut before that ending. *)
Theorem channel_id_in_url (channel_url cid : string) :
  get_channel_id_from_url channel_url = Some cid ->
  occurrences "/" cid = 0%nat /\
  exists pre post,
    channel_url = pre +:+ "channel/" +:+ cid +:+ post /\
    (post = ""%string \/ (exists r, post = "/" +:+ r)
     \/ exists r, post = "channel/" +:+ r).
Proof.
  unfold get_channel_id_from_url.
  destruct (after_first "channel/" channel_url) as [rest|] eqn:Hafter;
    [|discriminate].
  intros [= <-]. split; [apply before_first_free|].
  apply after_first_Some in Hafter as [pre Hurl].
  destruct (before_first_split "channel/" rest) as (post1 & Hrest & Hpost1).
  destruct (before_first_split "/" (before_first "channel/" rest))
    as (post2 & Hmid & Hpost2).
  exists pre.
  destruct Hpost2 as [->|[r ->]].
  - rewrite append_nil_r in Hmid. exists post1. split.
    + rewrite <- Hmid. now rewrite <- Hrest.
    + destruct Hpost1 as [->|Hr]; [now left|right; now right].
  - exists (("/" +:+ r) +:+ post1). split.
    + rewrite Hurl. do 2 f_equal.
      rewrite <- append_assoc, <- Hmid. exact Hrest.
    + right. left. exists (r +:+ post1). reflexivity.
Qed.

Lemma channel_id_in_url_witness :
  get_channel_id_from_url "https://www.youtube.com/channel/UC_A/videos"
    = Some "UC_A"%string /\
  get_channel_id_from_url "https://www.youtube.com/channel/mychannel/videos"
    = Some "my"%string /\
  occurrences "/" "UC_A" = 0%nat.
Proof.
  split; [reflexivity|]. split; [reflexivity|].
  apply (channel_id_in_url "https://www.youtube.com/channel/UC_A/videos"
           "UC_A").
  reflexivity.
Defined.

End ChannelUrls.
